(** * Roosearch: the semantic code search plugin, embedded and verified

    The development follows the two TypeScript sources of the repository:
    [.opencode/plugin/roosearch.ts] (the pipeline parameterised by the
    workspace path, module [Roosearch] below) and the stand-alone tool with
    a fixed collection (module [Part000] below).

    JavaScript strings are sequences of UTF-16 code units, numbers are
    IEEE 754 binary64 values (the kernel's primitive floats), exceptions are
    explicit outcomes, and every call that leaves the process (fetch, the
    vector database client, console.error) is recorded in an event trace.

    The interfaces of the sources are not checked at run time. What the
    database stores for the user, the payload of a point, is JSON of any
    shape: each of its keys holds a loosely typed value ([jsval]), and the
    reply need not hold an array of points ([points_slot]). What the
    database computes itself is typed as declared: a point has an id, a
    score that is a number, and a payload that is an object, [null] or
    missing. *)

From Stdlib Require Import String Ascii DecimalString.
From Stdlib Require Import List NArith ZArith Bool Lia.
From Stdlib Require Import Floats.
From Stdlib Require Import Permutation Sorted.
Import ListNotations.

Set Implicit Arguments.
Set Warnings "-inexact-float".

(* ================================================================== *)
(** ** JavaScript strings *)

(** A string value is a finite sequence of 16-bit code units. *)
Definition code_unit := N.
Definition jsstring := list code_unit.

(** Source literals are ASCII; [lit] gives their code units. *)
Definition lit (s : string) : jsstring :=
  map N_of_ascii (list_ascii_of_string s).
Arguments lit s%_string.

Definition dquote : code_unit := 34%N.
Definition LF : code_unit := 10%N.

Definition jsstring_eq_dec : forall s t : jsstring, {s = t} + {s <> t} :=
  list_eq_dec N.eq_dec.

(** ToBoolean on a string: the empty string is the only falsy one. *)
Definition string_truthy (s : jsstring) : bool :=
  match s with [] => false | _ :: _ => true end.

(** [String.prototype.substring(start, end)]: both indices are clamped to
    the length and swapped when out of order. *)
Definition substring (s : jsstring) (start finish : nat) : jsstring :=
  let len := length s in
  let a := Nat.min start len in
  let b := Nat.min finish len in
  let from := Nat.min a b in
  let to := Nat.max a b in
  firstn (to - from) (skipn from s).

(** ECMA-262 WhiteSpace and LineTerminator code points, all of them in the
    basic plane: the characters [String.prototype.trim] strips. *)
Definition is_white (c : code_unit) : bool :=
  ((9 <=? c) && (c <=? 13) || (c =? 32) || (c =? 160) || (c =? 5760)
   || (8192 <=? c) && (c <=? 8202) || (c =? 8232) || (c =? 8233)
   || (c =? 8239) || (c =? 8287) || (c =? 12288) || (c =? 65279))%N.

Fixpoint trim_start (s : jsstring) : jsstring :=
  match s with
  | [] => []
  | c :: s' => if is_white c then trim_start s' else s
  end.

Definition trim_end (s : jsstring) : jsstring := rev (trim_start (rev s)).

(** [String.prototype.trim]. *)
Definition trim (s : jsstring) : jsstring := trim_end (trim_start s).

(** Decimal rendering of an array length in a template literal. *)
Definition nat_to_string (n : nat) : jsstring :=
  lit (NilEmpty.string_of_uint (Nat.to_uint n)).

(** [Array.prototype.join] on strings. *)
Fixpoint join (sep : jsstring) (l : list jsstring) : jsstring :=
  match l with
  | [] => []
  | [x] => x
  | x :: l' => x ++ sep ++ join sep l'
  end.

(* ================================================================== *)
(** ** UTF-8 encoding of a string (what [hash.update(string)] digests) *)

Definition byte := N.

Definition is_high_surrogate (c : code_unit) : bool :=
  ((55296 <=? c) && (c <=? 56319))%N.
Definition is_low_surrogate (c : code_unit) : bool :=
  ((56320 <=? c) && (c <=? 57343))%N.

(** UTF-8 bytes of one code point. *)
Definition utf8_code_point (cp : N) : list byte :=
  (if cp <? 128 then [cp]
   else if cp <? 2048 then [192 + cp / 64; 128 + cp mod 64]
   else if cp <? 65536 then
     [224 + cp / 4096; 128 + (cp / 64) mod 64; 128 + cp mod 64]
   else
     [240 + (cp / 262144) mod 8; 128 + (cp / 4096) mod 64;
      128 + (cp / 64) mod 64; 128 + cp mod 64])%N.

(** U+FFFD, written for every unpaired surrogate. *)
Definition replacement_character : N := 65533%N.

Fixpoint utf8_encode (s : jsstring) : list byte :=
  match s with
  | [] => []
  | c :: rest =>
    if is_high_surrogate c then
      match rest with
      | d :: rest' =>
        if is_low_surrogate d
        then utf8_code_point (65536 + (c - 55296) * 1024 + (d - 56320))%N
               ++ utf8_encode rest'
        else utf8_code_point replacement_character ++ utf8_encode rest
      | [] => utf8_code_point replacement_character
      end
    else if is_low_surrogate c
    then utf8_code_point replacement_character ++ utf8_encode rest
    else utf8_code_point c ++ utf8_encode rest
  end.

(* ================================================================== *)
(** ** SHA-256 (FIPS 180-4), on 32-bit words held in [N] *)

Module SHA256.
Local Open Scope N_scope.

Definition word := N.
Definition modulus : N := 4294967296.
Definition wrap (x : N) : word := x mod modulus.
Definition add32 (a b : word) : word := wrap (a + b).
Definition not32 (a : word) : word := N.lxor a 4294967295.
Definition rotr (n : N) (x : word) : word :=
  N.lor (N.shiftr x n) (wrap (N.shiftl x (32 - n))).
Definition shr (n : N) (x : word) : word := N.shiftr x n.

Definition Ch (x y z : word) : word :=
  N.lxor (N.land x y) (N.land (not32 x) z).
Definition Maj (x y z : word) : word :=
  N.lxor (N.lxor (N.land x y) (N.land x z)) (N.land y z).
Definition Sigma0 x := N.lxor (N.lxor (rotr 2 x) (rotr 13 x)) (rotr 22 x).
Definition Sigma1 x := N.lxor (N.lxor (rotr 6 x) (rotr 11 x)) (rotr 25 x).
Definition sigma0 x := N.lxor (N.lxor (rotr 7 x) (rotr 18 x)) (shr 3 x).
Definition sigma1 x := N.lxor (N.lxor (rotr 17 x) (rotr 19 x)) (shr 10 x).

(** The constants are derived as the standard defines them, from the
    first 64 primes. *)
Definition is_prime (n : nat) : bool :=
  (1 <? n)%nat
  && forallb (fun d => negb (Nat.eqb (n mod d) 0)) (seq 2 (n - 2)).

Definition primes : list N :=
  Eval vm_compute in
    map N.of_nat (firstn 64 (List.filter is_prime (seq 2 310))).

(** The largest [r] with [r ^ 3 <= x], found bit by bit below [2 ^ 36]. *)
Definition cube_root (x : N) : N :=
  fold_left
    (fun r bit => let r' := r + 2 ^ N.of_nat bit in
                  if r' * r' * r' <=? x then r' else r)
    (rev (seq 0 36)) 0.

(** The first 32 bits of the fractional part of the cube root of each of
    the 64 primes. *)
Definition K : list word :=
  Eval vm_compute in map (fun p => wrap (cube_root (p * 2 ^ 96))) primes.

(** The eight working variables / chaining values. *)
Record state := mkState {
  ha : word; hb : word; hc : word; hd : word;
  he : word; hf : word; hg : word; hh : word }.

(** The first 32 bits of the fractional part of the square root of a
    prime. *)
Definition root_bits (p : N) : word := wrap (N.sqrt (p * 2 ^ 64)).

(** The initial hash value, from the first eight primes. *)
Definition H0 : state :=
  Eval vm_compute in
    mkState (root_bits 2) (root_bits 3) (root_bits 5) (root_bits 7)
            (root_bits 11) (root_bits 13) (root_bits 17) (root_bits 19).

(** The [count] low bytes of [x], most significant first. *)
Definition be_bytes (count : nat) (x : N) : list byte :=
  map (fun i => (x / 2 ^ (8 * N.of_nat i)) mod 256) (rev (seq 0 count)).

(** Padding: a 1 bit, zeros up to 56 mod 64 bytes, the bit length on
    64 bits, big-endian. *)
Definition pad (msg : list byte) : list byte :=
  let len := length msg in
  let zeros := ((64 - (len + 9) mod 64) mod 64)%nat in
  msg ++ [128] ++ repeat 0 zeros ++ be_bytes 8 (8 * N.of_nat len).

Fixpoint be_word (bs : list byte) (acc : N) : N :=
  match bs with
  | [] => acc
  | b :: bs' => be_word bs' (acc * 256 + b)
  end.

(** The sixteen words of a 64-byte block. *)
Fixpoint block_words (count : nat) (bs : list byte) : list word :=
  match count with
  | O => []
  | S count' => be_word (firstn 4 bs) 0 :: block_words count' (skipn 4 bs)
  end.

(** Message schedule, extended one word at a time. *)
Fixpoint schedule (count : nat) (w : list word) : list word :=
  match count with
  | O => w
  | S count' =>
    let t := length w in
    let at_ i := nth (t - i) w 0 in
    schedule count'
      (w ++ [add32 (add32 (sigma1 (at_ 2%nat)) (at_ 7%nat))
                   (add32 (sigma0 (at_ 15%nat)) (at_ 16%nat))])
  end.

Definition round (s : state) (kw : word * word) : state :=
  let (k, w) := kw in
  let t1 := add32 (add32 (add32 (hh s) (Sigma1 (he s)))
                         (add32 (Ch (he s) (hf s) (hg s)) k)) w in
  let t2 := add32 (Sigma0 (ha s)) (Maj (ha s) (hb s) (hc s)) in
  mkState (add32 t1 t2) (ha s) (hb s) (hc s)
          (add32 (hd s) t1) (he s) (hf s) (hg s).

Definition compress (h : state) (block : list byte) : state :=
  let w := schedule 48 (block_words 16 block) in
  let s := fold_left round (combine K w) h in
  mkState (add32 (ha h) (ha s)) (add32 (hb h) (hb s))
          (add32 (hc h) (hc s)) (add32 (hd h) (hd s))
          (add32 (he h) (he s)) (add32 (hf h) (hf s))
          (add32 (hg h) (hg s)) (add32 (hh h) (hh s)).

Fixpoint blocks (count : nat) (h : state) (bs : list byte) : state :=
  match count with
  | O => h
  | S count' => blocks count' (compress h (firstn 64 bs)) (skipn 64 bs)
  end.

Definition digest_state (msg : list byte) : state :=
  let p := pad msg in
  blocks (length p / 64)%nat H0 p.

(** The 32 bytes of the digest. *)
Definition digest (msg : list byte) : list byte :=
  let s := digest_state msg in
  flat_map (be_bytes 4)
    [ha s; hb s; hc s; hd s; he s; hf s; hg s; hh s].
End SHA256.

(** Lowercase hexadecimal, two characters a byte: [digest("hex")]. *)
Definition hex_digit (d : N) : code_unit :=
  (if d <? 10 then 48 + d else 87 + d)%N.

Definition hex_byte (b : byte) : jsstring :=
  [hex_digit (b / 16)%N; hex_digit (b mod 16)%N].

Definition hex (bs : list byte) : jsstring := flat_map hex_byte bs.

(** [createHash("sha256").update(s).digest("hex")]. *)
Definition sha256_hex (s : jsstring) : jsstring :=
  hex (SHA256.digest (utf8_encode s)).


(* ================================================================== *)
(** ** Numbers and loosely typed values *)

(** ToBoolean on a number: zero (of either sign) and NaN are falsy. *)
Definition number_truthy (x : float) : bool :=
  negb (PrimFloat.is_zero x || PrimFloat.is_nan x).

(** A value as the program sees it: what a key of a payload holds, and
    what the validity test of the filter moves around ([a && b] yields one
    of its operands, not a boolean). Of an object or an array the program
    observes that it is truthy, that it has no [trim] method (JSON holds no
    function), and what converting it to a string gives: [shown] is that
    string, and is [None] where the conversion raises a TypeError (an
    object with a key [toString] of its own, or an array that holds one). *)
Inductive jsval :=
| VUndefined
| VNull
| VBool (b : bool)
| VNumber (x : float)
| VString (s : jsstring)
| VObject (shown : option jsstring).

Definition to_boolean (v : jsval) : bool :=
  match v with
  | VUndefined | VNull => false
  | VBool b => b
  | VNumber x => number_truthy x
  | VString s => string_truthy s
  | VObject _ => true
  end.

(** [a && b] where evaluating [b] has no effect. *)
Definition js_and (a b : jsval) : jsval := if to_boolean a then b else a.

(** Reading a property: an absent key reads as [undefined]. *)
Definition read_key (o : option jsval) : jsval :=
  match o with Some v => v | None => VUndefined end.

(** [key in object]. *)
Definition has_key {A : Type} (o : option A) : bool :=
  match o with Some _ => true | None => false end.

(* ================================================================== *)
(** ** The interfaces both source files declare *)

(** [interface Payload]: the four declared keys. Each may be missing from
    the object the database returns (it then reads as [undefined]), and a
    key that is present holds whatever was stored: the declared types are
    not checked when the reply is cast. Keys allowed by the index
    signature are never read by the program. *)
Module Payload.
Record t := mk {
  filePath : option jsval;
  codeChunk : option jsval;
  startLine : option jsval;
  endLine : option jsval }.
End Payload.

Inductive point_id := IdString (s : jsstring) | IdNumber (n : float).

(** [payload?: Payload | null]. *)
Inductive payload_slot :=
| PayloadUndefined
| PayloadNull
| PayloadObject (p : Payload.t).

Module VectorStoreSearchResult.
Record t := mk {
  id : point_id;
  score : float;
  payload : payload_slot }.
End VectorStoreSearchResult.

(** [interface EmbeddingResponse], as parsed from the response body: the
    [embeddings] key is missing from a body that is not the expected one. *)
Module EmbeddingResponse.
Record t := mk { embeddings : option (list (list float)) }.
End EmbeddingResponse.

(** [interface SearchResult]. [filePath], [startLine] and [endLine] hold
    whatever the payload held ([None] where the key was missing, which
    reads as [undefined]); [codeChunk] is the string [trim] returned. *)
Module SearchResult.
Record t := mk {
  filePath : jsval;
  score : float;
  startLine : option jsval;
  endLine : option jsval;
  codeChunk : jsstring }.
End SearchResult.

(* ================================================================== *)
(** ** Exceptions, events and the effect monad *)

(** What a [catch] clause can receive. *)
Inductive thrown :=
| ErrorObject (message : jsstring)   (* [error instanceof Error] holds *)
| OtherValue (shown : jsstring).     (* any other thrown value *)

(** [error instanceof Error ? error.message : 'Unknown error']. *)
Definition message_or_unknown (error : thrown) : jsstring :=
  match error with
  | ErrorObject message => message
  | OtherValue _ => lit "Unknown error"
  end.

Inductive outcome (A : Type) :=
| Returned (a : A)
| Thrown (error : thrown).
Arguments Returned {A} a.
Arguments Thrown {A} error.

(** Sequencing of two steps that may throw. *)
Definition and_then {A B} (o : outcome A) (k : A -> outcome B) : outcome B :=
  match o with
  | Returned a => k a
  | Thrown error => Thrown error
  end.

(** The body of the POST request to the embedding service, before
    [JSON.stringify]. *)
Record embed_body := { model : jsstring; input : jsstring }.

Record fetch_init := {
  method : jsstring;
  headers : list (jsstring * jsstring);
  body : embed_body }.

Record search_params := { hnsw_ef : N; exact : bool }.

Record search_request := {
  query : option (list float);     (* [undefined] when there is no vector *)
  filter : unit;                   (* always [undefined] *)
  score_threshold : float;
  limit : N;
  params : search_params;
  with_payload_include : list jsstring }.

Inductive event :=
| Fetch (url : jsstring) (init : fetch_init)
| Query (collection : jsstring) (request : search_request)
| ConsoleError (label : jsstring) (error : thrown).

(** A computation: the events it caused, in order, and how it ended. *)
Definition M (A : Type) : Type := list event * outcome A.

Definition ret {A} (a : A) : M A := ([], Returned a).
Definition throw {A} (error : thrown) : M A := ([], Thrown error).
Definition emit (e : event) : M unit := ([e], Returned tt).
Definition lift {A} (o : outcome A) : M A := ([], o).

Definition bind {A B} (m : M A) (k : A -> M B) : M B :=
  match m with
  | (tr, Returned a) => let (tr', o) := k a in (tr ++ tr', o)
  | (tr, Thrown error) => (tr, Thrown error)
  end.

(** [try { m } catch (error) { handler error }]. *)
Definition try_catch {A} (m : M A) (handler : thrown -> M A) : M A :=
  match m with
  | (tr, Returned a) => (tr, Returned a)
  | (tr, Thrown error) => let (tr', o) := handler error in (tr ++ tr', o)
  end.

Declare Scope js_scope.
Delimit Scope js_scope with js.
Notation "x <- m ;; k" := (bind m (fun x => k))
  (at level 61, m at next level, right associativity) : js_scope.
Notation "m ;;; k" := (bind m (fun _ => k))
  (at level 61, right associativity) : js_scope.

Definition trace {A} (m : M A) : list event := fst m.
Definition result {A} (m : M A) : outcome A := snd m.

(** [array.map(f)] with a callback that may throw: the first exception
    ends the traversal. *)
Fixpoint map_outcome {A B} (f : A -> outcome B) (l : list A)
  : outcome (list B) :=
  match l with
  | [] => Returned []
  | a :: l' =>
    match f a with
    | Thrown error => Thrown error
    | Returned b =>
      match map_outcome f l' with
      | Thrown error => Thrown error
      | Returned bs => Returned (b :: bs)
      end
    end
  end.

(** [array.filter(x => x !== null)]. *)
Fixpoint drop_nulls {A} (l : list (option A)) : list A :=
  match l with
  | [] => []
  | Some a :: l' => a :: drop_nulls l'
  | None :: l' => drop_nulls l'
  end.

(* ================================================================== *)
(** ** Array.prototype.sort

    ECMA-262 requires a stable sort and fixes the result whenever the
    comparison function is consistent on the elements; the result is then
    the one stable ordering, which insertion from the right computes. A
    comparison result of NaN counts as zero. For an inconsistent comparison
    function (here: when a score is NaN) the standard leaves the order to
    the engine; what is computed below is then one of the orders the
    standard allows, and the statements about the order of the blocks are
    made for scores other than NaN. *)
Section Sort.
Variable A : Type.
Variable comparefn : A -> A -> float.

(** [comparefn(x, e) > 0]: [x] has to come after [e]. *)
Definition comes_after (x e : A) : bool := (0 <? comparefn x e)%float.

Fixpoint insert (x : A) (l : list A) : list A :=
  match l with
  | [] => [x]
  | e :: l' => if comes_after x e then e :: insert x l' else x :: l
  end.

Definition sort (l : list A) : list A := fold_right insert [] l.
End Sort.

(* ================================================================== *)
(** ** Arrays that are shared by reference

    [formatResults] copies its argument before sorting in place; the store
    holds the arrays of search results so that the copy and the original
    are different objects. *)
Definition array_ref := nat.
Definition store := list (list SearchResult.t).

Definition read (st : store) (r : array_ref) : list SearchResult.t :=
  nth r st [].

Definition alloc (st : store) (a : list SearchResult.t) : store * array_ref :=
  (st ++ [a], length st).

Fixpoint write (st : store) (r : array_ref) (a : list SearchResult.t) : store :=
  match st, r with
  | [], _ => []
  | _ :: st', O => a :: st'
  | b :: st', S r' => b :: write st' r' a
  end.

(** [array.sort(comparefn)]: sorts the array in place and returns it. *)
Definition sort_in_place (comparefn : SearchResult.t -> SearchResult.t -> float)
    (st : store) (r : array_ref) : store * array_ref :=
  (write st r (sort comparefn (read st r)), r).

(* ================================================================== *)
(** ** The world outside the program *)

(** Where the runtime raises a TypeError of its own. *)
Inductive type_error_site :=
| IndexOfUndefined     (* [embedding.embeddings[0]] without [embeddings] *)
| TrimOfUndefined      (* [payload.codeChunk.trim()] without [codeChunk] *)
| TrimOfNull           (* ... with [codeChunk] null *)
| TrimNotAFunction     (* ... with a [codeChunk] that is not a string *)
| FilterOfUndefined    (* [results.filter(...)] without [results] *)
| FilterOfNull         (* ... with [results] null *)
| FilterNotAFunction   (* ... with [results] that is not an array *)
| ObjectToPrimitive.   (* an object without a string form in a template *)

Module Response.
Record t := mk {
  ok : bool;
  statusText : jsstring;
  json : outcome EmbeddingResponse.t }.   (* [await response.json()] *)
End Response.

(** What [operationResult.points] reads: the array of points, or, in a
    reply of another shape, [undefined], [null] or a value that is not an
    array. The cast to [VectorStoreSearchResult[]] checks nothing. *)
Inductive points_slot :=
| PointsUndefined
| PointsNull
| PointsNotArray
| PointsArray (points : list VectorStoreSearchResult.t).

Module QueryResponse.
Record t := mk { points : points_slot }.
End QueryResponse.

(** The two network services and the parts of the JavaScript runtime whose
    output is engine-defined text. *)
Record World := {
  fetch : jsstring -> fetch_init -> outcome Response.t;
  qdrant_query : jsstring -> search_request -> outcome QueryResponse.t;
  Number_toFixed : float -> nat -> jsstring;
  Number_toString : float -> jsstring;
  TypeError_message : type_error_site -> jsstring }.

(** What [tool({...})] is given: the description and what [execute] does
    with the [query] argument. *)
Record tool := {
  description : jsstring;
  execute : jsstring -> M jsstring }.

(** A value inside a template literal: ToString. *)
Definition template_value (W : World) (v : jsval) : outcome jsstring :=
  match v with
  | VUndefined => Returned (lit "undefined")
  | VNull => Returned (lit "null")
  | VBool b => Returned (if b then lit "true" else lit "false")
  | VNumber x => Returned (Number_toString W x)
  | VString s => Returned s
  | VObject (Some shown) => Returned shown
  | VObject None => Thrown (ErrorObject (TypeError_message W ObjectToPrimitive))
  end.

(** The receiver of [results.filter(...)]: an array, or a TypeError. *)
Definition filter_receiver (W : World) (results : points_slot)
  : outcome (list VectorStoreSearchResult.t) :=
  match results with
  | PointsArray points => Returned points
  | PointsUndefined =>
    Thrown (ErrorObject (TypeError_message W FilterOfUndefined))
  | PointsNull => Thrown (ErrorObject (TypeError_message W FilterOfNull))
  | PointsNotArray =>
    Thrown (ErrorObject (TypeError_message W FilterNotAFunction))
  end.

(** [value.trim()] on a value read from a payload. *)
Definition call_trim (W : World) (v : jsval) : outcome jsstring :=
  match v with
  | VString s => Returned (trim s)
  | VUndefined => Thrown (ErrorObject (TypeError_message W TrimOfUndefined))
  | VNull => Thrown (ErrorObject (TypeError_message W TrimOfNull))
  | VBool _ | VNumber _ | VObject _ =>
    Thrown (ErrorObject (TypeError_message W TrimNotAFunction))
  end.

(* ================================================================== *)
(** ** [.opencode/plugin/roosearch.ts] *)

Module Roosearch.

Record RooSearchConfig := {
  qdrantClientUrl : jsstring;
  embeddingServiceUrl : jsstring;
  embeddingModel : jsstring;
  searchScoreThreshold : float;
  searchLimit : N;
  hnswEf : N;
  hnswExact : bool;
  payloadIncludeFields : list jsstring;
  hashLength : nat }.

Definition ROO_SEARCH_CONFIG : RooSearchConfig := {|
  qdrantClientUrl := lit "http://localhost:6333";
  embeddingServiceUrl := lit "http://localhost:11434/api/embed";
  embeddingModel := lit "nomic-embed-text";
  searchScoreThreshold := 0x1.999999999999ap-2%float;   (* 0.40 *)
  searchLimit := 50;
  hnswEf := 128;
  hnswExact := false;
  payloadIncludeFields :=
    [lit "filePath"; lit "codeChunk"; lit "startLine"; lit "endLine";
     lit "pathSegments"];
  hashLength := 16 |}.

Definition getWorkspaceVectorStoreName (workspacePath : jsstring) : jsstring :=
  let hash := sha256_hex workspacePath in
  lit "ws-" ++ substring hash 0 (hashLength ROO_SEARCH_CONFIG).

Section WithWorld.
Variable W : World.
Local Open Scope js_scope.

Definition createEmbeddings (input : jsstring) : M EmbeddingResponse.t :=
  let url := embeddingServiceUrl ROO_SEARCH_CONFIG in
  let model := embeddingModel ROO_SEARCH_CONFIG in
  try_catch
    (let init := {| method := lit "POST";
                    headers := [(lit "Content-Type", lit "application/json")];
                    body := Build_embed_body model input |} in
     emit (Fetch url init) ;;;
     response <- lift (fetch W url init) ;;
     if negb (Response.ok response)
     then throw (ErrorObject (lit "Failed to create embeddings: "
                                ++ Response.statusText response))
     else
       data <- lift (Response.json response) ;;
       ret data)
    (fun error =>
       emit (ConsoleError (lit "Embedding creation failed:") error) ;;;
       throw (ErrorObject (lit "Embedding creation failed: "
                             ++ message_or_unknown error))).

(** [embedding.embeddings[0]]. *)
Definition first_embedding (embedding : EmbeddingResponse.t)
  : outcome (option (list float)) :=
  match EmbeddingResponse.embeddings embedding with
  | None => Thrown (ErrorObject (TypeError_message W IndexOfUndefined))
  | Some [] => Returned None
  | Some (v :: _) => Returned (Some v)
  end.

Definition searchQdrant (embedding : EmbeddingResponse.t)
    (workspacePath : jsstring) : M points_slot :=
  vector <- lift (first_embedding embedding) ;;
  let searchRequest := {|
    query := vector;
    filter := tt;
    score_threshold := searchScoreThreshold ROO_SEARCH_CONFIG;
    limit := searchLimit ROO_SEARCH_CONFIG;
    params := {| hnsw_ef := hnswEf ROO_SEARCH_CONFIG;
                 exact := hnswExact ROO_SEARCH_CONFIG |};
    with_payload_include := payloadIncludeFields ROO_SEARCH_CONFIG |} in
  try_catch
    (let collection := getWorkspaceVectorStoreName workspacePath in
     emit (Query collection searchRequest) ;;;
     operationResult <- lift (qdrant_query W collection searchRequest) ;;
     ret (QueryResponse.points operationResult))
    (fun error =>
       throw (ErrorObject (lit "Search operation failed: "
                             ++ message_or_unknown error))).

(** The value of [isValid] in the callback of [filterValidResults]: a
    falsy [result.payload] is the value of the whole chain, otherwise the
    remaining operands are evaluated on the payload object. *)
Definition isValid (result : VectorStoreSearchResult.t) : jsval :=
  match VectorStoreSearchResult.payload result with
  | PayloadUndefined => VUndefined
  | PayloadNull => VNull
  | PayloadObject p =>
    js_and (js_and (js_and (js_and
      (VBool (has_key (Payload.filePath p)))
      (read_key (Payload.filePath p)))
      (read_key (Payload.startLine p)))
      (read_key (Payload.endLine p)))
      (read_key (Payload.codeChunk p))
  end.

Definition filterValidResults (results : points_slot)
  : outcome (list VectorStoreSearchResult.t) :=
  and_then (filter_receiver W results) (fun points =>
  let filtered := List.filter (fun result => to_boolean (isValid result)) points in
  Returned filtered).

Definition transformSearchResult (result : VectorStoreSearchResult.t)
  : outcome (option SearchResult.t) :=
  match VectorStoreSearchResult.payload result with
  | PayloadUndefined | PayloadNull => Returned None
  | PayloadObject p =>
    match Payload.filePath p with
    | None => Returned None
    | Some filePath =>
      and_then (call_trim W (read_key (Payload.codeChunk p))) (fun codeChunk =>
      Returned (Some {|
        SearchResult.filePath := filePath;
        SearchResult.score := VectorStoreSearchResult.score result;
        SearchResult.startLine := Payload.startLine p;
        SearchResult.endLine := Payload.endLine p;
        SearchResult.codeChunk := codeChunk |}))
    end
  end.

Definition transformResults (results : points_slot)
  : outcome (list SearchResult.t) :=
  and_then (filterValidResults results) (fun filteredResults =>
  and_then (map_outcome transformSearchResult filteredResults) (fun mapped =>
  let transformed := drop_nulls mapped in
  Returned transformed)).

(** The substitutions of the template are converted to strings from left
    to right; the first one that cannot be converted ends the call. *)
Definition formatSearchResult (result : SearchResult.t) : outcome jsstring :=
  and_then (template_value W (SearchResult.filePath result)) (fun filePath =>
  let score := Number_toFixed W (SearchResult.score result) 3 in
  and_then (template_value W (read_key (SearchResult.startLine result)))
    (fun startLine =>
  and_then (template_value W (read_key (SearchResult.endLine result)))
    (fun endLine =>
  Returned
    (lit "File: " ++ filePath ++ [LF]
     ++ lit "Score: " ++ score ++ [LF]
     ++ lit "Lines: " ++ startLine ++ lit "-" ++ endLine ++ [LF]
     ++ lit "Code:" ++ [LF]
     ++ lit "```" ++ [LF]
     ++ SearchResult.codeChunk result ++ [LF]
     ++ lit "```" ++ [LF])))).

(** The comparison function handed to [sort]. *)
Definition by_score (a b : SearchResult.t) : float :=
  (SearchResult.score b - SearchResult.score a)%float.

Definition formatResults (st : store) (results : array_ref)
    (query : jsstring) : store * outcome jsstring :=
  let count := length (read st results) in
  if Nat.eqb count 0 then
    (st, Returned (lit "Query: " ++ [dquote] ++ query ++ [dquote] ++ [LF; LF]
                   ++ lit "No results found."))
  else
    let (st1, resultsArray) := alloc st (read st results) in
    let (st2, spread) := alloc st1 (read st1 resultsArray) in
    let (st3, sortedResults) := sort_in_place by_score st2 spread in
    (st3,
     and_then (map_outcome formatSearchResult (read st3 sortedResults))
       (fun blocks =>
     let formattedResults := join [LF; LF] blocks in
     let plural := if negb (Nat.eqb count 1) then lit "s" else [] in
     Returned
       (lit "Query: " ++ [dquote] ++ query ++ [dquote] ++ [LF; LF]
        ++ lit "Found " ++ nat_to_string count ++ lit " result" ++ plural
        ++ lit ":" ++ [LF; LF]
        ++ formattedResults ++ [LF; LF]
        ++ lit "---" ++ [LF]
        ++ lit "Search completed with " ++ nat_to_string count
        ++ lit " result" ++ plural ++ lit "."))).

(** The array [transformResults] returns is a fresh object: the call
    of [formatResults] finds it as the only array of the store. *)
Definition format_fresh (results : list SearchResult.t) (query : jsstring)
  : outcome jsstring :=
  let (st, r) := alloc [] results in
  snd (formatResults st r query).

Definition executeSearchPipeline (query workspacePath : jsstring)
  : M jsstring :=
  try_catch
    (embeddingResponse <- createEmbeddings query ;;
     searchResults <- searchQdrant embeddingResponse workspacePath ;;
     transformedResults <- lift (transformResults searchResults) ;;
     lift (format_fresh transformedResults query))
    (fun error =>
       emit (ConsoleError (lit "Error executing search pipeline:") error) ;;;
       ret (lit "Error executing search: " ++ message_or_unknown error)).

(** The plugin: the [roosearch] tool for the host's [directory]. *)
Definition RooSearchPlugin (directory : jsstring) : tool := {|
  description := lit "Query the workspace using roosearch qdrant indexing";
  execute := fun query => executeSearchPipeline query directory |}.
End WithWorld.
End Roosearch.

(* ================================================================== *)
(** ** The stand-alone tool with the fixed collection (second source file) *)

Module Part000.
Section WithWorld.
Variable W : World.
Local Open Scope js_scope.

Definition createEmbeddings (input : jsstring) : M EmbeddingResponse.t :=
  let url := lit "http://localhost:11434/api/embed" in
  let model := lit "nomic-embed-text" in
  try_catch
    (let init := {| method := lit "POST";
                    headers := [(lit "Content-Type", lit "application/json")];
                    body := Build_embed_body model input |} in
     emit (Fetch url init) ;;;
     response <- lift (fetch W url init) ;;
     if negb (Response.ok response)
     then throw (ErrorObject (lit "Failed to create embeddings: "
                                ++ Response.statusText response))
     else
       data <- lift (Response.json response) ;;
       ret data)
    (fun error =>
       throw (ErrorObject (lit "Embedding creation failed: "
                             ++ message_or_unknown error))).

(** [embedding.embeddings[0]]. *)
Definition first_embedding (embedding : EmbeddingResponse.t)
  : outcome (option (list float)) :=
  match EmbeddingResponse.embeddings embedding with
  | None => Thrown (ErrorObject (TypeError_message W IndexOfUndefined))
  | Some [] => Returned None
  | Some (v :: _) => Returned (Some v)
  end.

Definition searchQdrant (embedding : EmbeddingResponse.t)
  : M points_slot :=
  vector <- lift (first_embedding embedding) ;;
  let searchRequest := {|
    query := vector;
    filter := tt;
    score_threshold := 0x1.999999999999ap-2%float;   (* .40 *)
    limit := 50;
    params := {| hnsw_ef := 128; exact := false |};
    with_payload_include :=
      [lit "filePath"; lit "codeChunk"; lit "startLine"; lit "endLine";
       lit "pathSegments"] |} in
  try_catch
    (emit (Query (lit "ws-e9be3207f7247f18") searchRequest) ;;;
     operationResult <-
       lift (qdrant_query W (lit "ws-e9be3207f7247f18") searchRequest) ;;
     ret (QueryResponse.points operationResult))
    (fun error =>
       throw (ErrorObject (lit "Search operation failed: "
                             ++ message_or_unknown error))).

Definition filterValidResults (results : points_slot)
  : outcome (list VectorStoreSearchResult.t) :=
  and_then (filter_receiver W results) (fun points =>
  Returned
    (List.filter
       (fun result =>
          to_boolean
            match VectorStoreSearchResult.payload result with
            | PayloadUndefined => VUndefined
            | PayloadNull => VNull
            | PayloadObject p =>
              js_and (js_and (js_and (js_and
                (VBool (has_key (Payload.filePath p)))
                (read_key (Payload.filePath p)))
                (read_key (Payload.startLine p)))
                (read_key (Payload.endLine p)))
                (read_key (Payload.codeChunk p))
            end)
       points)).

Definition transformSearchResult (result : VectorStoreSearchResult.t)
  : outcome (option SearchResult.t) :=
  match VectorStoreSearchResult.payload result with
  | PayloadUndefined | PayloadNull => Returned None
  | PayloadObject p =>
    match Payload.filePath p with
    | None => Returned None
    | Some filePath =>
      and_then (call_trim W (read_key (Payload.codeChunk p))) (fun codeChunk =>
      Returned (Some {|
        SearchResult.filePath := filePath;
        SearchResult.score := VectorStoreSearchResult.score result;
        SearchResult.startLine := Payload.startLine p;
        SearchResult.endLine := Payload.endLine p;
        SearchResult.codeChunk := codeChunk |}))
    end
  end.

Definition transformResults (results : points_slot)
  : outcome (list SearchResult.t) :=
  and_then (filterValidResults results) (fun filteredResults =>
  and_then (map_outcome transformSearchResult filteredResults) (fun mapped =>
  let transformed := drop_nulls mapped in
  Returned transformed)).

(** The substitutions of the template are converted to strings from left
    to right; the first one that cannot be converted ends the call. *)
Definition formatSearchResult (result : SearchResult.t) : outcome jsstring :=
  and_then (template_value W (SearchResult.filePath result)) (fun filePath =>
  let score := Number_toFixed W (SearchResult.score result) 3 in
  and_then (template_value W (read_key (SearchResult.startLine result)))
    (fun startLine =>
  and_then (template_value W (read_key (SearchResult.endLine result)))
    (fun endLine =>
  Returned
    (lit "File: " ++ filePath ++ [LF]
     ++ lit "Score: " ++ score ++ [LF]
     ++ lit "Lines: " ++ startLine ++ lit "-" ++ endLine ++ [LF]
     ++ lit "Code:" ++ [LF]
     ++ lit "```" ++ [LF]
     ++ SearchResult.codeChunk result ++ [LF]
     ++ lit "```" ++ [LF])))).

(** The comparison function handed to [sort]. *)
Definition by_score (a b : SearchResult.t) : float :=
  (SearchResult.score b - SearchResult.score a)%float.

Definition formatResults (st : store) (results : array_ref)
    (query : jsstring) : store * outcome jsstring :=
  let count := length (read st results) in
  if Nat.eqb count 0 then
    (st, Returned (lit "Query: " ++ [dquote] ++ query ++ [dquote] ++ [LF; LF]
                   ++ lit "No results found."))
  else
    let (st1, resultsArray) := alloc st (read st results) in
    let (st2, spread) := alloc st1 (read st1 resultsArray) in
    let (st3, sortedResults) := sort_in_place by_score st2 spread in
    (st3,
     and_then (map_outcome formatSearchResult (read st3 sortedResults))
       (fun blocks =>
     let formattedResults := join [LF; LF] blocks in
     let plural := if negb (Nat.eqb count 1) then lit "s" else [] in
     Returned
       (lit "Query: " ++ [dquote] ++ query ++ [dquote] ++ [LF; LF]
        ++ lit "Found " ++ nat_to_string count ++ lit " result" ++ plural
        ++ lit ":" ++ [LF; LF]
        ++ formattedResults ++ [LF; LF]
        ++ lit "---" ++ [LF]
        ++ lit "Search completed with " ++ nat_to_string count
        ++ lit " result" ++ plural ++ lit "."))).

(** As in [Roosearch]: the transformed array is a fresh object. *)
Definition format_fresh (results : list SearchResult.t) (query : jsstring)
  : outcome jsstring :=
  let (st, r) := alloc [] results in
  snd (formatResults st r query).

Definition executeSearchPipeline (query : jsstring) : M jsstring :=
  try_catch
    (embeddingResponse <- createEmbeddings query ;;
     searchResults <- searchQdrant embeddingResponse ;;
     transformedResults <- lift (transformResults searchResults) ;;
     lift (format_fresh transformedResults query))
    (fun error =>
       ret (lit "Error executing search: " ++ message_or_unknown error)).

(** The default export. *)
Definition default_tool : tool := {|
  description := lit "Query the cuent workspace using roo code qdrant indexing";
  execute := fun query => executeSearchPipeline query |}.
End WithWorld.
End Part000.

(* ================================================================== *)
(** ** A concrete world for the examples

    [fixed_decimal] is [Number.prototype.toFixed] computed exactly from the
    binary value (round half up on the magnitude); it agrees with ECMA-262
    for magnitudes below 10^21. [integer_string] is [Number::toString] on
    integral values of that range. Elsewhere the example runtime prints a
    question mark; the theorems hold for every runtime. *)
Module Examples.

Definition decimal (n : Z) : jsstring :=
  lit (NilEmpty.string_of_uint (N.to_uint (Z.to_N n))).

(** The digits of [n / 10^digits] with the decimal point in place. *)
Definition place_point (n : Z) (digits : nat) : jsstring :=
  let ds := decimal n in
  let padded := repeat 48%N (S digits - length ds) ++ ds in
  let k := (length padded - digits)%nat in
  if Nat.eqb digits 0 then padded
  else firstn k padded ++ lit "." ++ skipn k padded.

Definition fixed_decimal (x : float) (digits : nat) : jsstring :=
  match Prim2SF x with
  | S754_nan => lit "NaN"
  | S754_infinity s => if s then lit "-Infinity" else lit "Infinity"
  | S754_zero _ => place_point 0 digits
  | S754_finite s m e =>
    let num := (Zpos m * 10 ^ Z.of_nat digits * 2 ^ Z.max e 0)%Z in
    let den := (2 ^ Z.max (- e) 0)%Z in
    let n := ((2 * num + den) / (2 * den))%Z in
    (if s then lit "-" else []) ++ place_point n digits
  end.

Definition integer_string (x : float) : jsstring :=
  match Prim2SF x with
  | S754_nan => lit "NaN"
  | S754_infinity s => if s then lit "-Infinity" else lit "Infinity"
  | S754_zero _ => lit "0"
  | S754_finite s m e =>
    if (0 <=? e)%Z
    then (if s then lit "-" else []) ++ decimal (Zpos m * 2 ^ e)
    else if (Zpos m mod 2 ^ (- e) =? 0)%Z
    then (if s then lit "-" else []) ++ decimal (Zpos m / 2 ^ (- e))
    else lit "?"
  end.

Definition type_error_text (site : type_error_site) : jsstring :=
  match site with
  | IndexOfUndefined =>
    lit "Cannot read properties of undefined (reading '0')"
  | TrimOfUndefined =>
    lit "Cannot read properties of undefined (reading 'trim')"
  | TrimOfNull =>
    lit "Cannot read properties of null (reading 'trim')"
  | TrimNotAFunction =>
    lit "result.payload.codeChunk.trim is not a function"
  | FilterOfUndefined =>
    lit "Cannot read properties of undefined (reading 'filter')"
  | FilterOfNull =>
    lit "Cannot read properties of null (reading 'filter')"
  | FilterNotAFunction =>
    lit "results.filter is not a function"
  | ObjectToPrimitive =>
    lit "Cannot convert object to primitive value"
  end.

(** A point as the database returns it, with keys of the declared
    types. *)
Definition point (path : jsstring) (s : float) (first last : option float)
    (code : option jsstring) : VectorStoreSearchResult.t :=
  VectorStoreSearchResult.mk (IdNumber 1%float) s
    (PayloadObject
       (Payload.mk (Some (VString path)) (option_map VString code)
          (option_map VNumber first) (option_map VNumber last))).

(** A point whose payload was not stored with the declared types: the
    code chunk is the number 123 and the first line the string [0]. Each
    of its four keys is truthy. *)
Definition ill_typed_point : VectorStoreSearchResult.t :=
  VectorStoreSearchResult.mk (IdNumber 2%float) 0.9%float
    (PayloadObject
       (Payload.mk (Some (VString (lit "c.ts"))) (Some (VNumber 123%float))
          (Some (VString (lit "0"))) (Some (VNumber 5%float)))).

(** The end-to-end scenario: one valid point and one without [codeChunk]. *)
Definition two_points : list VectorStoreSearchResult.t :=
  [ point (lit "a.ts") 0.8%float (Some 10%float) (Some 20%float)
          (Some (lit "  foo()  "));
    point (lit "b.ts") 0.5%float (Some 1%float) (Some 2%float) None ].

Definition embedding_body : EmbeddingResponse.t :=
  EmbeddingResponse.mk (Some [[0.1%float; 0.2%float]]).

(** Both services answer, whatever they are asked. *)
Definition healthy : World := {|
  fetch := fun _ _ =>
    Returned (Response.mk true (lit "OK") (Returned embedding_body));
  qdrant_query := fun _ _ =>
    Returned (QueryResponse.mk (PointsArray two_points));
  Number_toFixed := fixed_decimal;
  Number_toString := integer_string;
  TypeError_message := type_error_text |}.

(** The embedding service answers HTTP 500. *)
Definition embedding_down : World := {|
  fetch := fun _ _ =>
    Returned (Response.mk false (lit "Internal Server Error")
                (Thrown (ErrorObject (lit "Unexpected end of JSON input"))));
  qdrant_query := fun _ _ =>
    Returned (QueryResponse.mk (PointsArray two_points));
  Number_toFixed := fixed_decimal;
  Number_toString := integer_string;
  TypeError_message := type_error_text |}.

(** The fetch itself rejects with a value that is not an Error. *)
Definition network_down : World := {|
  fetch := fun _ _ => Thrown (OtherValue (lit "ECONNREFUSED"));
  qdrant_query := fun _ _ =>
    Returned (QueryResponse.mk (PointsArray two_points));
  Number_toFixed := fixed_decimal;
  Number_toString := integer_string;
  TypeError_message := type_error_text |}.

(** The database client rejects. *)
Definition database_down : World := {|
  fetch := fun _ _ =>
    Returned (Response.mk true (lit "OK") (Returned embedding_body));
  qdrant_query := fun _ _ => Thrown (ErrorObject (lit "Not Found"));
  Number_toFixed := fixed_decimal;
  Number_toString := integer_string;
  TypeError_message := type_error_text |}.

(** The embedding service answers 200 with a body without [embeddings]. *)
Definition odd_body : World := {|
  fetch := fun _ _ =>
    Returned (Response.mk true (lit "OK")
                (Returned (EmbeddingResponse.mk None)));
  qdrant_query := fun _ _ =>
    Returned (QueryResponse.mk (PointsArray two_points));
  Number_toFixed := fixed_decimal;
  Number_toString := integer_string;
  TypeError_message := type_error_text |}.

(** Both services answer; the database answers with a point whose
    payload is not of the declared types. *)
Definition ill_typed_reply : World := {|
  fetch := fun _ _ =>
    Returned (Response.mk true (lit "OK") (Returned embedding_body));
  qdrant_query := fun _ _ =>
    Returned (QueryResponse.mk (PointsArray [ill_typed_point]));
  Number_toFixed := fixed_decimal;
  Number_toString := integer_string;
  TypeError_message := type_error_text |}.

(** Both services answer; the database's reply holds no [points]. *)
Definition reply_without_points : World := {|
  fetch := fun _ _ =>
    Returned (Response.mk true (lit "OK") (Returned embedding_body));
  qdrant_query := fun _ _ => Returned (QueryResponse.mk PointsUndefined);
  Number_toFixed := fixed_decimal;
  Number_toString := integer_string;
  TypeError_message := type_error_text |}.

(** Both services answer; the one point is valid and its [filePath] is an
    object that has no string form. *)
Definition unprintable_path : World := {|
  fetch := fun _ _ =>
    Returned (Response.mk true (lit "OK") (Returned embedding_body));
  qdrant_query := fun _ _ =>
    Returned (QueryResponse.mk (PointsArray
      [VectorStoreSearchResult.mk (IdNumber 3%float) 0.7%float
         (PayloadObject
            (Payload.mk (Some (VObject None)) (Some (VString (lit "x")))
               (Some (VNumber 1%float)) (Some (VNumber 2%float))))]));
  Number_toFixed := fixed_decimal;
  Number_toString := integer_string;
  TypeError_message := type_error_text |}.

Definition result_with_score (name : jsstring) (s : float) : SearchResult.t :=
  SearchResult.mk (VString name) s (Some (VNumber 1%float))
    (Some (VNumber 2%float)) (lit "x").

(** For reading a result: code units back to a string literal. *)
Definition show (s : jsstring) : string :=
  string_of_list_ascii (map ascii_of_N s).
End Examples.

(* ================================================================== *)
(** ** Vocabulary of the properties

    The notions the statements below are written in: the readings of the
    specification's words that the embedded functions are compared with. *)

Definition no_leading_white (s : jsstring) : Prop :=
  match s with
  | [] => True
  | c :: _ => is_white c = false
  end.

Definition no_trailing_white (s : jsstring) : Prop :=
  no_leading_white (rev s).

Definition all_white (s : jsstring) : Prop :=
  Forall (fun c => is_white c = true) s.

(** Truthiness of a payload key: a missing key is [undefined], and the
    falsy values are [undefined], [null], [false], the empty string, zero
    (of either sign) and NaN. Objects and arrays are truthy. *)
Definition truthy (key : option jsval) : bool :=
  match key with
  | None => false
  | Some VUndefined | Some VNull => false
  | Some (VBool b) => b
  | Some (VString []) => false
  | Some (VString (_ :: _)) => true
  | Some (VNumber x) => negb (PrimFloat.is_zero x) && negb (PrimFloat.is_nan x)
  | Some (VObject _) => true
  end.

(** The points the specification says are kept: the payload is present
    and [filePath], [startLine], [endLine] and [codeChunk] are truthy. *)
Definition keeps (point : VectorStoreSearchResult.t) : bool :=
  match VectorStoreSearchResult.payload point with
  | PayloadObject p =>
    truthy (Payload.filePath p) && truthy (Payload.startLine p)
    && truthy (Payload.endLine p) && truthy (Payload.codeChunk p)
  | PayloadUndefined | PayloadNull => false
  end.

(** A falsy value, case by case. *)
Definition falsy (v : jsval) : Prop :=
  v = VUndefined \/ v = VNull \/ v = VBool false \/ v = VString [] \/
  (exists x, v = VNumber x /\ PrimFloat.is_zero x = true) \/
  (exists x, v = VNumber x /\ PrimFloat.is_nan x = true).

Definition missing_or_falsy (key : option jsval) : Prop :=
  key = None \/ exists v, key = Some v /\ falsy v.

(** A point with one of the four keys missing or falsy. *)
Definition lacks_a_field (p : Payload.t) : Prop :=
  missing_or_falsy (Payload.filePath p)
  \/ missing_or_falsy (Payload.startLine p)
  \/ missing_or_falsy (Payload.endLine p)
  \/ missing_or_falsy (Payload.codeChunk p).

(** The payload is stored with the types the interface declares: a key
    that is present holds a string ([filePath], [codeChunk]) or a number
    ([startLine], [endLine]). *)
Definition is_string (key : option jsval) : bool :=
  match key with
  | None | Some (VString _) => true
  | Some _ => false
  end.

Definition is_number (key : option jsval) : bool :=
  match key with
  | None | Some (VNumber _) => true
  | Some _ => false
  end.

Definition well_typed (point : VectorStoreSearchResult.t) : bool :=
  match VectorStoreSearchResult.payload point with
  | PayloadObject p =>
    is_string (Payload.filePath p) && is_string (Payload.codeChunk p)
    && is_number (Payload.startLine p) && is_number (Payload.endLine p)
  | PayloadUndefined | PayloadNull => true
  end.

(** The one type the normalisation depends on: the code chunk of the
    point is a string. *)
Definition chunk_is_string (point : VectorStoreSearchResult.t) : bool :=
  match VectorStoreSearchResult.payload point with
  | PayloadObject p =>
    match Payload.codeChunk p with
    | Some (VString _) => true
    | _ => false
    end
  | PayloadUndefined | PayloadNull => false
  end.

(** The report for no result, as the specification words it. *)
Definition empty_report (query : jsstring) : jsstring :=
  lit "Query: " ++ [dquote] ++ query ++ [dquote; LF; LF]
  ++ lit "No results found.".

(** The report for [blocks] rendered results, [count] of them. *)
Definition report (blocks : list jsstring) (count : nat) (query : jsstring)
  : jsstring :=
  let noun := if Nat.eqb count 1 then lit " result" else lit " results" in
  lit "Query: " ++ [dquote] ++ query ++ [dquote; LF; LF]
  ++ lit "Found " ++ nat_to_string count ++ noun ++ lit ":" ++ [LF; LF]
  ++ join [LF; LF] blocks
  ++ [LF; LF] ++ lit "---" ++ [LF]
  ++ lit "Search completed with " ++ nat_to_string count ++ noun ++ lit ".".

Definition error_prefix : jsstring := lit "Error executing search: ".

(** The request [createEmbeddings] posts for a query. *)
Definition embed_url : jsstring := lit "http://localhost:11434/api/embed".

Definition embed_init (text : jsstring) : fetch_init := {|
  method := lit "POST";
  headers := [(lit "Content-Type", lit "application/json")];
  body := {| model := lit "nomic-embed-text"; input := text |} |}.

(** The search request built around a query vector. *)
Definition request_for (vector : option (list float)) : search_request := {|
  query := vector;
  filter := tt;
  score_threshold := 0.40%float;
  limit := 50;
  params := {| hnsw_ef := 128; exact := false |};
  with_payload_include :=
    [lit "filePath"; lit "codeChunk"; lit "startLine"; lit "endLine";
     lit "pathSegments"] |}.

Definition fixed_collection : jsstring := lit "ws-e9be3207f7247f18".

(** How an embedding call ends, read off the service's behaviour. *)
Definition embedding_outcome (W : World) (text : jsstring)
  : outcome EmbeddingResponse.t :=
  match fetch W embed_url (embed_init text) with
  | Thrown error =>
    Thrown (ErrorObject (lit "Embedding creation failed: "
                           ++ message_or_unknown error))
  | Returned response =>
    if Response.ok response then
      match Response.json response with
      | Returned data => Returned data
      | Thrown error =>
        Thrown (ErrorObject (lit "Embedding creation failed: "
                               ++ message_or_unknown error))
      end
    else
      Thrown (ErrorObject (lit "Embedding creation failed: "
                             ++ lit "Failed to create embeddings: "
                             ++ Response.statusText response))
  end.

(** The specification's [embed] operation: the embedding call followed by
    the indexing of its result, which the source does as the first step of
    [searchQdrant]. *)
Definition embed (W : World) (text : jsstring) : M (option (list float)) :=
  bind (Roosearch.createEmbeddings W text)
       (fun data => lift (Roosearch.first_embedding W data)).

(** How a search ends for a given collection. *)
Definition search_outcome (W : World) (collection : jsstring)
    (embedding : EmbeddingResponse.t)
  : outcome points_slot :=
  match Roosearch.first_embedding W embedding with
  | Thrown error => Thrown error
  | Returned vector =>
    match qdrant_query W collection (request_for vector) with
    | Returned operationResult =>
      Returned (QueryResponse.points operationResult)
    | Thrown error =>
      Thrown (ErrorObject (lit "Search operation failed: "
                             ++ message_or_unknown error))
    end
  end.

(** The text the pipeline returns, stage by stage. *)
Definition pipeline_text (W : World) (collection query : jsstring) : jsstring :=
  match embedding_outcome W query with
  | Thrown error => error_prefix ++ message_or_unknown error
  | Returned embedding =>
    match search_outcome W collection embedding with
    | Thrown error => error_prefix ++ message_or_unknown error
    | Returned points =>
      match Roosearch.transformResults W points with
      | Thrown error => error_prefix ++ message_or_unknown error
      | Returned normalized =>
        match Roosearch.format_fresh W normalized query with
        | Thrown error => error_prefix ++ message_or_unknown error
        | Returned text => text
        end
      end
    end
  end.

Definition is_network_call (e : event) : bool :=
  match e with
  | ConsoleError _ _ => false
  | Fetch _ _ | Query _ _ => true
  end.

Definition network_calls (tr : list event) : list event :=
  List.filter is_network_call tr.

(** The calls a run makes: the POST to the embedding service and, when it
    gave a response whose [embeddings] can be indexed, one query. *)
Definition expected_calls (W : World) (collection text : jsstring) : list event :=
  Fetch embed_url (embed_init text)
  :: match embedding_outcome W text with
     | Returned embedding =>
       match Roosearch.first_embedding W embedding with
       | Returned vector => [Query collection (request_for vector)]
       | Thrown _ => []
       end
     | Thrown _ => []
     end.

(** A run turns whatever a stage throws into the error text: it returns,
    and when the embedding call, the search, the transformation or the
    formatting throws [error], it returns the prefix followed by the
    message of [error]; when no stage throws it returns what the
    formatting returned. *)
Definition catches_every_stage (run : M jsstring)
    (embed : M EmbeddingResponse.t)
    (search : EmbeddingResponse.t -> M points_slot)
    (transform : points_slot -> outcome (list SearchResult.t))
    (format : list SearchResult.t -> outcome jsstring)
  : Prop :=
  (exists text, result run = Returned text)
  /\ (forall error,
        result embed = Thrown error ->
        result run = Returned (error_prefix ++ message_or_unknown error))
  /\ (forall embedding error,
        result embed = Returned embedding ->
        result (search embedding) = Thrown error ->
        result run = Returned (error_prefix ++ message_or_unknown error))
  /\ (forall embedding points error,
        result embed = Returned embedding ->
        result (search embedding) = Returned points ->
        transform points = Thrown error ->
        result run = Returned (error_prefix ++ message_or_unknown error))
  /\ (forall embedding points normalized error,
        result embed = Returned embedding ->
        result (search embedding) = Returned points ->
        transform points = Returned normalized ->
        format normalized = Thrown error ->
        result run = Returned (error_prefix ++ message_or_unknown error))
  /\ (forall embedding points normalized text,
        result embed = Returned embedding ->
        result (search embedding) = Returned points ->
        transform points = Returned normalized ->
        format normalized = Returned text ->
        result run = Returned text).

(** The event with its query, if it is one, sent to the fixed collection. *)
Definition in_fixed_collection (e : event) : event :=
  match e with
  | Query _ request => Query fixed_collection request
  | Fetch _ _ | ConsoleError _ _ => e
  end.

(** The characters of lowercase hexadecimal: [0-9a-f]. *)
Definition is_lower_hex (c : code_unit) : bool :=
  ((48 <=? c) && (c <=? 57) || (97 <=? c) && (c <=? 102))%N.

(** The first eight bytes of a digest as a number below 2^64. *)
Fixpoint bytes_value (bs : list byte) : N :=
  match bs with
  | [] => 0
  | b :: bs' => b + 256 * bytes_value bs'
  end.

(** The digits of a number in base 16, least significant first. *)
Fixpoint digits_le (count : nat) (n : N) : list N :=
  match count with
  | O => []
  | S count' => (n mod 16)%N :: digits_le count' (n / 16)%N
  end.

Fixpoint digits_value (ds : list N) : N :=
  match ds with
  | [] => 0
  | d :: ds' => d + 16 * digits_value ds'
  end.

(** Short paths, one for each number below 16^17: its 17 digits as
    lowercase hexadecimal characters. *)
Definition path_of_index (i : nat) : jsstring :=
  map hex_digit (digits_le 17 (N.of_nat i)).

Definition first_bytes_value (workspacePath : jsstring) : N :=
  bytes_value (firstn 8 (SHA256.digest (utf8_encode workspacePath))).

(** A binary64 value other than NaN as an exact integer: its value times
    2^1074, with the infinities beyond every finite value. The order of
    the numbers is the order of these integers. *)
Definition magnitude (m : positive) (e : Z) : Z := (Zpos m * 2 ^ (e + 1074))%Z.

Definition scaled (f : spec_float) : Z :=
  match f with
  | S754_zero _ => 0
  | S754_infinity s => if s then - 2 ^ 2100 else 2 ^ 2100
  | S754_nan => 0
  | S754_finite s m e => if s then - magnitude m e else magnitude m e
  end%Z.

Definition exact_value (x : float) : Z := scaled (Prim2SF x).

(** No score is NaN. *)
Definition no_NaN (results : list SearchResult.t) : Prop :=
  Forall (fun r => PrimFloat.is_nan (SearchResult.score r) = false) results.


(** Every result has a greater score than all that follow it. *)
Definition strictly_descending (results : list SearchResult.t) : Prop :=
  StronglySorted
    (fun earlier later =>
       (SearchResult.score later <? SearchResult.score earlier)%float = true)
    results.



(** What makes an embedding call fail, if anything does: what [fetch]
    rejected with, the Error raised for a status that is not a success, or
    what [response.json()] rejected with. *)
Definition embedding_failure (W : World) (text : jsstring) : option thrown :=
  match fetch W embed_url (embed_init text) with
  | Thrown error => Some error
  | Returned response =>
    if Response.ok response then
      match Response.json response with
      | Returned _ => None
      | Thrown error => Some error
      end
    else
      Some (ErrorObject (lit "Failed to create embeddings: "
                           ++ Response.statusText response))
  end.

(** What a run wrote with [console.error]. *)
Definition console_errors (tr : list event) : list event :=
  List.filter (fun e => negb (is_network_call e)) tr.

(** [array[0]]. *)
Definition first_or_undefined {A : Type} (l : list A) : option A :=
  match l with
  | [] => None
  | a :: _ => Some a
  end.

(** The vector a run sends to the database, when it gets that far: the
    embedding call has to succeed and its result to have [embeddings]. *)
Definition sent_vector (W : World) (text : jsstring)
  : option (option (list float)) :=
  match embedding_outcome W text with
  | Returned data =>
    match EmbeddingResponse.embeddings data with
    | Some vectors => Some (first_or_undefined vectors)
    | None => None
    end
  | Thrown _ => None
  end.

(** A value that can be converted to a string: every value but an object
    without a string form. *)
Definition has_string_form (v : jsval) : bool :=
  match v with
  | VObject None => false
  | _ => true
  end.

(** The three loosely typed fields of a result can be converted. *)
Definition can_be_rendered (r : SearchResult.t) : bool :=
  has_string_form (SearchResult.filePath r)
  && has_string_form (read_key (SearchResult.startLine r))
  && has_string_form (read_key (SearchResult.endLine r)).

(** The text a run returns once the database has answered with [points],
    by what happened next: the reply holds no array of points; a kept
    point has a code chunk that is not a string; a result has a field
    without a string form; or none of these, and the text is the report
    of the kept points, normalised in order. *)
Definition output_after_search (W : World) (query : jsstring)
    (points : points_slot) (text : jsstring) : Prop :=
  match points with
  | PointsUndefined =>
    text = lit "Error executing search: "
           ++ TypeError_message W FilterOfUndefined
  | PointsNull =>
    text = lit "Error executing search: " ++ TypeError_message W FilterOfNull
  | PointsNotArray =>
    text = lit "Error executing search: "
           ++ TypeError_message W FilterNotAFunction
  | PointsArray points =>
    if forallb chunk_is_string (List.filter keeps points) then
      exists normalized,
        Forall2
          (fun point n =>
             Roosearch.transformSearchResult W point = Returned (Some n))
          (List.filter keeps points) normalized
        /\ if forallb can_be_rendered normalized
           then Roosearch.format_fresh W normalized query = Returned text
           else text = lit "Error executing search: "
                       ++ TypeError_message W ObjectToPrimitive
    else
      text = lit "Error executing search: "
             ++ TypeError_message W TrimNotAFunction
  end.

(** The text a run returns, by what happened: the embedding call failed;
    its result had no [embeddings]; the database rejected the query; or
    both services answered, and the text is as [output_after_search]
    says. *)
Definition output_by_cause (W : World) (collection query text : jsstring)
  : Prop :=
  match embedding_failure W query with
  | Some cause =>
    text = lit "Error executing search: Embedding creation failed: "
           ++ message_or_unknown cause
  | None =>
    exists data,
      embedding_outcome W query = Returned data
      /\ match EmbeddingResponse.embeddings data with
         | None =>
           text = lit "Error executing search: "
                  ++ TypeError_message W IndexOfUndefined
         | Some vectors =>
           match qdrant_query W collection
                   (request_for (first_or_undefined vectors)) with
           | Thrown error =>
             text = lit "Error executing search: Search operation failed: "
                    ++ message_or_unknown error
           | Returned operationResult =>
             output_after_search W query
               (QueryResponse.points operationResult) text
           end
         end
  end.

(** A result as the interface declares it, from a valid point: the path
    is a string that is not empty, both line numbers are numbers other
    than 0 and NaN, and the code has no white space at either end. *)
Definition well_formed (r : SearchResult.t) : Prop :=
  (exists path, SearchResult.filePath r = VString path /\ path <> [])
  /\ (exists first,
        SearchResult.startLine r = Some (VNumber first)
        /\ PrimFloat.is_zero first = false /\ PrimFloat.is_nan first = false)
  /\ (exists last,
        SearchResult.endLine r = Some (VNumber last)
        /\ PrimFloat.is_zero last = false /\ PrimFloat.is_nan last = false)
  /\ no_leading_white (SearchResult.codeChunk r)
  /\ no_trailing_white (SearchResult.codeChunk r).

(** The block of a result whose path is the string [path] and whose line
    numbers are [first] and [last]. *)
Definition block (W : World) (r : SearchResult.t) (path : jsstring)
    (first last : float) : jsstring :=
  lit "File: " ++ path ++ [LF]
  ++ lit "Score: " ++ Number_toFixed W (SearchResult.score r) 3 ++ [LF]
  ++ lit "Lines: " ++ Number_toString W first ++ lit "-"
  ++ Number_toString W last ++ [LF]
  ++ lit "Code:" ++ [LF] ++ lit "```" ++ [LF]
  ++ SearchResult.codeChunk r ++ [LF] ++ lit "```" ++ [LF].

(* ================================================================== *)
(** * Properties *)

(* ------------------------------------------------------------------ *)
(** ** Strings *)

Lemma trim_start_split (s : jsstring) :
  exists w, s = w ++ trim_start s /\ all_white w.
Proof.
  induction s as [|c s IH]; simpl.
  - exists []. split; [reflexivity | constructor].
  - destruct (is_white c) eqn:Hc.
    + destruct IH as (w & Hs & Hw).
      exists (c :: w). split.
      * simpl. now rewrite <- Hs.
      * now constructor.
    + exists []. split; [reflexivity | constructor].
Qed.

Lemma trim_start_no_leading (s : jsstring) : no_leading_white (trim_start s).
Proof.
  induction s as [|c s IH]; simpl; [exact I|].
  destruct (is_white c) eqn:Hc; [exact IH | exact Hc].
Qed.

Lemma trim_start_fixed (s : jsstring) :
  no_leading_white s -> trim_start s = s.
Proof.
  destruct s as [|c s]; simpl; [reflexivity|].
  now intros ->.
Qed.

Lemma all_white_rev (w : jsstring) : all_white w -> all_white (rev w).
Proof. apply Forall_rev. Qed.

Lemma trim_end_split (s : jsstring) :
  exists w, s = trim_end s ++ w /\ all_white w.
Proof.
  unfold trim_end.
  destruct (trim_start_split (rev s)) as (w & Hs & Hw).
  exists (rev w). split.
  - rewrite <- rev_app_distr, <- Hs. symmetry. apply rev_involutive.
  - now apply all_white_rev.
Qed.

Lemma trim_end_no_trailing (s : jsstring) : no_trailing_white (trim_end s).
Proof.
  unfold no_trailing_white, trim_end.
  rewrite rev_involutive. apply trim_start_no_leading.
Qed.

Lemma trim_end_keeps_head (s : jsstring) :
  no_leading_white s -> no_leading_white (trim_end s).
Proof.
  intros Hs.
  destruct (trim_end_split s) as (w & Heq & _).
  destruct (trim_end s) as [|c r]; [exact I|].
  rewrite Heq in Hs. exact Hs.
Qed.

(** [trim] removes a run of white space at each end and nothing else, and
    what is left neither starts nor ends with white space. *)
Lemma trim_spec (s : jsstring) :
  (exists w1 w2, s = w1 ++ trim s ++ w2 /\ all_white w1 /\ all_white w2)
  /\ no_leading_white (trim s) /\ no_trailing_white (trim s).
Proof.
  unfold trim. split; [|split].
  - destruct (trim_start_split s) as (w1 & H1 & Hw1).
    destruct (trim_end_split (trim_start s)) as (w2 & H2 & Hw2).
    exists w1, w2. split; [|split]; trivial.
    now rewrite <- H2.
  - apply trim_end_keeps_head, trim_start_no_leading.
  - apply trim_end_no_trailing.
Qed.

Lemma trim_idempotent (s : jsstring) : trim (trim s) = trim s.
Proof.
  destruct (trim_spec s) as (_ & Hl & Ht).
  unfold trim at 1. rewrite (trim_start_fixed _ Hl).
  unfold trim_end. rewrite (trim_start_fixed _ Ht). apply rev_involutive.
Qed.

(* ------------------------------------------------------------------ *)
(** ** The store *)

Lemma read_alloc (st : store) (a : list SearchResult.t) :
  read (fst (alloc st a)) (snd (alloc st a)) = a.
Proof.
  unfold read, alloc; simpl.
  rewrite app_nth2 by lia. now rewrite Nat.sub_diag.
Qed.

Lemma read_alloc_old (st : store) (a : list SearchResult.t) (r : array_ref) :
  r < length st -> read (fst (alloc st a)) r = read st r.
Proof.
  intros Hr. unfold read, alloc; simpl. now apply app_nth1.
Qed.

Lemma length_write (st : store) (r : array_ref) (a : list SearchResult.t) :
  length (write st r a) = length st.
Proof.
  revert r; induction st as [|b st IH]; intros [|r]; simpl; auto.
Qed.

Lemma read_write_same (st : store) (r : array_ref) (a : list SearchResult.t) :
  r < length st -> read (write st r a) r = a.
Proof.
  revert r; induction st as [|b st IH]; intros [|r]; simpl; intros Hr;
    try lia; [reflexivity|].
  apply IH. lia.
Qed.

Lemma read_write_other (st : store) (r r' : array_ref) (a : list SearchResult.t) :
  r <> r' -> read (write st r a) r' = read st r'.
Proof.
  revert r r'; induction st as [|b st IH]; intros [|r] [|r'] Hne; simpl;
    try reflexivity; try congruence.
  apply IH. congruence.
Qed.

(* ------------------------------------------------------------------ *)
(** ** Validation of raw points *)

Lemma to_boolean_read_key (key : option jsval) :
  to_boolean (read_key key) = truthy key.
Proof.
  destruct key as [[| |b|x|[|c s]|shown]|]; try reflexivity.
  simpl. unfold number_truthy. now rewrite negb_orb.
Qed.

Lemma to_boolean_js_and (a b : jsval) :
  to_boolean (js_and a b) = to_boolean a && to_boolean b.
Proof. unfold js_and. destruct (to_boolean a) eqn:Ha; simpl; auto. Qed.

Lemma truthy_has_key (key : option jsval) :
  has_key key && truthy key = truthy key.
Proof. destruct key; reflexivity. Qed.

Lemma isValid_keeps (point : VectorStoreSearchResult.t) :
  to_boolean (Roosearch.isValid point) = keeps point.
Proof.
  unfold Roosearch.isValid, keeps.
  destruct (VectorStoreSearchResult.payload point) as [| |p]; try reflexivity.
  rewrite !to_boolean_js_and, !to_boolean_read_key.
  simpl to_boolean. now rewrite truthy_has_key.
Qed.

Lemma Roosearch_filter_keeps (W : World)
    (results : list VectorStoreSearchResult.t) :
  Roosearch.filterValidResults W (PointsArray results)
  = Returned (List.filter keeps results).
Proof.
  unfold Roosearch.filterValidResults. cbn [filter_receiver and_then].
  f_equal. apply filter_ext. intros point. apply isValid_keeps.
Qed.

Lemma Part000_filterValidResults (W : World) (results : points_slot) :
  Part000.filterValidResults W results = Roosearch.filterValidResults W results.
Proof. reflexivity. Qed.

Lemma Part000_filter_keeps (W : World)
    (results : list VectorStoreSearchResult.t) :
  Part000.filterValidResults W (PointsArray results)
  = Returned (List.filter keeps results).
Proof. rewrite Part000_filterValidResults. apply Roosearch_filter_keeps. Qed.

Lemma truthy_false_iff (key : option jsval) :
  truthy key = false <-> missing_or_falsy key.
Proof.
  unfold missing_or_falsy, falsy. split.
  - destruct key as [[| |[|]|x|[|c s]|shown]|]; simpl; intros H;
      try discriminate H; auto; right; eexists; (split; [reflexivity|]);
      auto 6.
    destruct (PrimFloat.is_zero x) eqn:Zx; [eauto 8|].
    destruct (PrimFloat.is_nan x) eqn:Nx; [eauto 8|]. discriminate H.
  - intros [->|(v & -> & H)]; [reflexivity|].
    destruct H as [->|[->|[->|[->|[(x & -> & H)|(x & -> & H)]]]]];
      try reflexivity; simpl; rewrite H; simpl; now rewrite ?andb_false_r.
Qed.

Lemma keeps_false_iff (point : VectorStoreSearchResult.t) :
  keeps point = false <->
  match VectorStoreSearchResult.payload point with
  | PayloadObject p => lacks_a_field p
  | _ => True
  end.
Proof.
  unfold keeps, lacks_a_field.
  destruct (VectorStoreSearchResult.payload point) as [| |p]; try tauto.
  rewrite <- !truthy_false_iff, !andb_false_iff. tauto.
Qed.

(** C3. [filterValid] keeps exactly the points whose payload is present and
    whose [filePath], [startLine], [endLine] and [codeChunk] are all truthy,
    in both source files: applied to an array of points it returns the
    array filtered by [keeps], a point is in the result if and only if it
    is in the input and [keeps] holds of it, and any point with a missing
    payload or with a missing or falsy field (a zero line number and an
    empty string included) is not in the result. *)
Theorem C3_filterValid_keeps_exactly_the_valid_points (W : World)
    (results : list VectorStoreSearchResult.t) :
  exists kept,
    Roosearch.filterValidResults W (PointsArray results) = Returned kept
    /\ Part000.filterValidResults W (PointsArray results) = Returned kept
    /\ kept = List.filter keeps results
    /\ (forall point,
          In point kept <-> In point results /\ keeps point = true)
    /\ (forall point,
          match VectorStoreSearchResult.payload point with
          | PayloadObject p => lacks_a_field p
          | _ => True
          end ->
          ~ In point kept).
Proof.
  exists (List.filter keeps results).
  rewrite Roosearch_filter_keeps, Part000_filter_keeps.
  split; [reflexivity|]. split; [reflexivity|]. split; [reflexivity|]. split.
  - intros point. apply filter_In.
  - intros point H. apply keeps_false_iff in H.
    intros Hin; apply filter_In in Hin; destruct Hin as [_ Hk]; congruence.
Qed.

(* ------------------------------------------------------------------ *)
(** ** Normalisation of raw points *)

(** The two source files normalise a point in the same way. *)
Lemma Part000_transformSearchResult (W : World) (point : VectorStoreSearchResult.t) :
  Part000.transformSearchResult W point = Roosearch.transformSearchResult W point.
Proof. reflexivity. Qed.

Lemma transformSearchResult_typed (W : World)
    (point : VectorStoreSearchResult.t) (p : Payload.t) (path : jsval)
    (chunk : jsstring) :
  VectorStoreSearchResult.payload point = PayloadObject p ->
  Payload.filePath p = Some path ->
  Payload.codeChunk p = Some (VString chunk) ->
  Roosearch.transformSearchResult W point =
  Returned (Some {|
    SearchResult.filePath := path;
    SearchResult.score := VectorStoreSearchResult.score point;
    SearchResult.startLine := Payload.startLine p;
    SearchResult.endLine := Payload.endLine p;
    SearchResult.codeChunk := trim chunk |}).
Proof.
  intros Hp Hf Hc. unfold Roosearch.transformSearchResult.
  now rewrite Hp, Hf, Hc.
Qed.

(** C5, as amended. For a point whose payload is present and holds
    [filePath] and a [codeChunk] string, [transformSearchResult] returns the
    normalised result: [filePath], [score], [startLine] and [endLine] are
    the point's, unchanged (whatever values the payload holds for them),
    and [codeChunk] is the payload's with the white space at both ends
    removed, so that it neither starts nor ends with white space. *)
Theorem C5_transformSearchResult_copies_and_trims (W : World)
    (point : VectorStoreSearchResult.t) (p : Payload.t) (path : jsval)
    (chunk : jsstring)
    (Hpayload : VectorStoreSearchResult.payload point = PayloadObject p)
    (Hpath : Payload.filePath p = Some path)
    (Hchunk : Payload.codeChunk p = Some (VString chunk)) :
  exists normalized,
    Roosearch.transformSearchResult W point = Returned (Some normalized)
    /\ SearchResult.filePath normalized = path
    /\ SearchResult.score normalized = VectorStoreSearchResult.score point
    /\ SearchResult.startLine normalized = Payload.startLine p
    /\ SearchResult.endLine normalized = Payload.endLine p
    /\ SearchResult.codeChunk normalized = trim chunk
    /\ (exists w1 w2,
          chunk = w1 ++ SearchResult.codeChunk normalized ++ w2
          /\ all_white w1 /\ all_white w2)
    /\ no_leading_white (SearchResult.codeChunk normalized)
    /\ no_trailing_white (SearchResult.codeChunk normalized).
Proof.
  eexists. split.
  - apply (transformSearchResult_typed W point Hpayload Hpath Hchunk).
  - simpl. repeat (split; [reflexivity|]). apply trim_spec.
Qed.

Lemma C5_witness :
  exists normalized,
    Roosearch.transformSearchResult Examples.healthy
      (Examples.point (lit "a.ts") 0.8%float (Some 10%float) (Some 20%float)
             (Some (lit "  foo()  ")))
    = Returned (Some normalized)
    /\ SearchResult.codeChunk normalized = lit "foo()".
Proof.
  destruct (@C5_transformSearchResult_copies_and_trims Examples.healthy
              (Examples.point (lit "a.ts") 0.8%float (Some 10%float) (Some 20%float)
                     (Some (lit "  foo()  ")))
              _ (VString (lit "a.ts")) (lit "  foo()  ")
              eq_refl eq_refl eq_refl)
    as (normalized & Hret & _ & _ & _ & _ & Hchunk & _).
  exists normalized. split; [exact Hret | exact Hchunk].
Defined.

(** C5 as stated fails: a payload that is present and contains [filePath]
    but no [codeChunk] makes [transformSearchResult] throw the runtime's
    TypeError, so no normalised result is returned. *)
Lemma C5_counterexample :
  let point :=
    VectorStoreSearchResult.mk (IdNumber 1%float) 0.8%float
      (PayloadObject
         (Payload.mk (Some (VString (lit "a.ts"))) None None None)) in
  (exists p, VectorStoreSearchResult.payload point = PayloadObject p
             /\ has_key (Payload.filePath p) = true)
  /\ Roosearch.transformSearchResult Examples.healthy point
     = Thrown (ErrorObject
                 (lit "Cannot read properties of undefined (reading 'trim')"))
  /\ ~ (exists normalized,
          Roosearch.transformSearchResult Examples.healthy point
          = Returned (Some normalized)).
Proof.
  simpl. split; [|split].
  - eexists. split; reflexivity.
  - reflexivity.
  - intros (normalized & H). discriminate H.
Qed.


(** A kept point whose code chunk is a string is normalised to a result,
    not to [null] and not by an exception. *)
Lemma keeps_transformSearchResult (W : World) (point : VectorStoreSearchResult.t) :
  keeps point = true ->
  chunk_is_string point = true ->
  exists normalized,
    Roosearch.transformSearchResult W point = Returned (Some normalized).
Proof.
  unfold keeps, chunk_is_string, Roosearch.transformSearchResult.
  destruct (VectorStoreSearchResult.payload point) as [| |[fp cc sl el]];
    try discriminate.
  cbn [Payload.filePath Payload.codeChunk].
  destruct fp as [path|]; [|discriminate].
  destruct cc as [[| | | |chunk|]|]; try discriminate.
  intros _ _. eexists. reflexivity.
Qed.

(** A kept point whose code chunk is not a string makes the normalisation
    throw a TypeError of the runtime. *)
Lemma kept_point_without_string_chunk (W : World)
    (point : VectorStoreSearchResult.t) :
  keeps point = true ->
  chunk_is_string point = false ->
  Roosearch.transformSearchResult W point
  = Thrown (ErrorObject (TypeError_message W TrimNotAFunction)).
Proof.
  unfold keeps, chunk_is_string, Roosearch.transformSearchResult.
  destruct (VectorStoreSearchResult.payload point) as [| |[fp cc sl el]];
    try discriminate.
  cbn [Payload.filePath Payload.codeChunk].
  destruct fp as [path|]; [|discriminate].
  destruct cc as [[| |[|]|x|chunk|shown]|]; cbn [truthy];
    rewrite ?andb_false_r; try discriminate; reflexivity.
Qed.

Lemma drop_nulls_map_Some {A : Type} (l : list A) : drop_nulls (map Some l) = l.
Proof. induction l as [|a l IH]; simpl; congruence. Qed.

Lemma map_outcome_kept (W : World) (points : list VectorStoreSearchResult.t) :
  Forall (fun point => keeps point = true) points ->
  Forall (fun point => chunk_is_string point = true) points ->
  exists normalized,
    map_outcome (Roosearch.transformSearchResult W) points
    = Returned (map Some normalized)
    /\ Forall2 (fun point n =>
                  Roosearch.transformSearchResult W point = Returned (Some n))
               points normalized.
Proof.
  induction 1 as [|point points Hpoint _ IH]; intros Hs.
  - exists []. split; [reflexivity | constructor].
  - inversion Hs as [|? ? Hstring Hs']; subst.
    destruct (keeps_transformSearchResult W point Hpoint Hstring) as (n & Hn).
    destruct (IH Hs') as (ns & Hmap & Hall).
    exists (n :: ns). simpl. rewrite Hn, Hmap. split; [reflexivity|].
    now constructor.
Qed.

Lemma filter_keeps_all (results : list VectorStoreSearchResult.t) :
  Forall (fun point => keeps point = true) (List.filter keeps results).
Proof.
  apply Forall_forall. intros point Hin. now apply filter_In in Hin.
Qed.

(** What [transformResults] does with an array of points, in terms of the
    kept points. *)
Lemma transformResults_array (W : World)
    (results : list VectorStoreSearchResult.t) :
  Roosearch.transformResults W (PointsArray results)
  = and_then
      (map_outcome (Roosearch.transformSearchResult W)
         (List.filter keeps results))
      (fun mapped => Returned (drop_nulls mapped)).
Proof.
  unfold Roosearch.transformResults.
  now rewrite Roosearch_filter_keeps.
Qed.

Lemma kept_strings (results : list VectorStoreSearchResult.t) :
  (forall point,
     In point results -> keeps point = true -> chunk_is_string point = true) ->
  Forall (fun point => chunk_is_string point = true)
    (List.filter keeps results).
Proof.
  intros H. apply Forall_forall. intros point Hin.
  apply filter_In in Hin. now apply H.
Qed.

Lemma transformResults_spec (W : World) (results : list VectorStoreSearchResult.t) :
  (forall point,
     In point results -> keeps point = true -> chunk_is_string point = true) ->
  exists normalized,
    Roosearch.transformResults W (PointsArray results) = Returned normalized
    /\ map_outcome (Roosearch.transformSearchResult W)
         (List.filter keeps results)
       = Returned (map Some normalized)
    /\ Forall2 (fun point n =>
                  Roosearch.transformSearchResult W point = Returned (Some n))
               (List.filter keeps results) normalized.
Proof.
  intros Hs. rewrite transformResults_array.
  destruct (map_outcome_kept W (filter_keeps_all results) (kept_strings _ Hs))
    as (ns & Hmap & Hall).
  exists ns. rewrite Hmap. cbn [and_then]. rewrite drop_nulls_map_Some. auto.
Qed.

Lemma Part000_transformResults (W : World) (results : points_slot) :
  Part000.transformResults W results = Roosearch.transformResults W results.
Proof. reflexivity. Qed.




(* ------------------------------------------------------------------ *)
(** ** The report *)

Lemma write_last (st : store) (a b : list SearchResult.t) :
  write (st ++ [a]) (length st) b = st ++ [b].
Proof. induction st as [|c st IH]; simpl; congruence. Qed.

(** What [formatResults] returns and what it leaves in the store: the
    store it was given, followed by the copy made by [Array.from] and by
    the sorted copy. *)
Lemma Roosearch_formatResults_spec (W : World) (st : store) (r : array_ref)
    (query : jsstring) :
  Roosearch.formatResults W st r query =
  match read st r with
  | [] => (st, Returned (empty_report query))
  | _ :: _ =>
    let sorted := sort Roosearch.by_score (read st r) in
    (st ++ [read st r] ++ [sorted],
     and_then (map_outcome (Roosearch.formatSearchResult W) sorted)
       (fun blocks => Returned (report blocks (length (read st r)) query)))
  end.
Proof.
  unfold Roosearch.formatResults.
  destruct (read st r) as [|x a] eqn:Ha; [reflexivity|].
  cbn [length Nat.eqb alloc sort_in_place].
  pose proof (read_alloc st (x :: a)) as E1.
  pose proof (read_alloc (st ++ [x :: a]) (x :: a)) as E2.
  pose proof (read_alloc (st ++ [x :: a]) (sort Roosearch.by_score (x :: a)))
    as Hr.
  cbn [alloc fst snd] in E1, E2, Hr.
  rewrite E1, E2, write_last.
  rewrite Hr. rewrite <- app_assoc. f_equal.
  destruct (map_outcome (Roosearch.formatSearchResult W)
              (sort Roosearch.by_score (x :: a))) as [blocks|error];
    [|reflexivity].
  cbn [and_then]. unfold report. destruct a as [|y a]; reflexivity.
Qed.

Lemma Part000_formatResults (W : World) (st : store) (r : array_ref)
    (query : jsstring) :
  Part000.formatResults W st r query = Roosearch.formatResults W st r query.
Proof. reflexivity. Qed.

Lemma Roosearch_format_fresh_spec (W : World) (results : list SearchResult.t)
    (query : jsstring) :
  Roosearch.format_fresh W results query =
  match results with
  | [] => Returned (empty_report query)
  | _ :: _ =>
    and_then
      (map_outcome (Roosearch.formatSearchResult W)
         (sort Roosearch.by_score results))
      (fun blocks => Returned (report blocks (length results) query))
  end.
Proof.
  unfold Roosearch.format_fresh. cbn [alloc app length].
  rewrite Roosearch_formatResults_spec. cbn [read nth].
  destruct results; reflexivity.
Qed.

Lemma Part000_format_fresh (W : World) (results : list SearchResult.t)
    (query : jsstring) :
  Part000.format_fresh W results query = Roosearch.format_fresh W results query.
Proof. reflexivity. Qed.

(** C6. Formatting an empty sequence of results returns exactly
    [Query: "q"], two newlines and [No results found.], in both source
    files, whether the empty array is fresh or sits in a store with other
    arrays (which is then left as it was); for the query [x] the report is,
    code unit by code unit, [Query: "x"\n\nNo results found.]. *)
Theorem C6_format_of_no_result (W : World) (query : jsstring) :
  Roosearch.format_fresh W [] query
  = Returned (lit "Query: " ++ [dquote] ++ query ++ [dquote] ++ [LF; LF]
              ++ lit "No results found.")
  /\ Part000.format_fresh W [] query = Roosearch.format_fresh W [] query
  /\ (forall st : store,
        Roosearch.formatResults W (st ++ [[]]) (length st) query
        = (st ++ [[]], Returned (empty_report query))
        /\ Part000.formatResults W (st ++ [[]]) (length st) query
           = (st ++ [[]], Returned (empty_report query)))
  /\ Roosearch.format_fresh W [] (lit "x")
     = Returned
         [81; 117; 101; 114; 121; 58; 32; 34; 120; 34; 10; 10;
          78; 111; 32; 114; 101; 115; 117; 108; 116; 115; 32;
          102; 111; 117; 110; 100; 46]%N.
Proof.
  split; [reflexivity|]. split; [reflexivity|]. split; [|reflexivity].
  intros st.
  pose proof (read_alloc st []) as E. cbn [alloc fst snd] in E.
  assert (H : Roosearch.formatResults W (st ++ [[]]) (length st) query
              = (st ++ [[]], Returned (empty_report query)))
    by (rewrite Roosearch_formatResults_spec, E; reflexivity).
  split; [exact H | exact H].
Qed.

(* ------------------------------------------------------------------ *)
(** ** The pipeline: what is returned *)

Lemma Roosearch_createEmbeddings_result (W : World) (text : jsstring) :
  result (Roosearch.createEmbeddings W text) = embedding_outcome W text.
Proof.
  unfold Roosearch.createEmbeddings, embedding_outcome; simpl.
  change (fetch W (lit "http://localhost:11434/api/embed")
            {| method := lit "POST";
               headers := [(lit "Content-Type", lit "application/json")];
               body := {| model := lit "nomic-embed-text"; input := text |} |})
    with (fetch W embed_url (embed_init text)).
  destruct (fetch W embed_url (embed_init text)) as [response|error];
    [|reflexivity].
  destruct response as [ok statusText [data|error]]; destruct ok; reflexivity.
Qed.

Lemma Part000_createEmbeddings_result (W : World) (text : jsstring) :
  result (Part000.createEmbeddings W text) = embedding_outcome W text.
Proof.
  unfold Part000.createEmbeddings, embedding_outcome; simpl.
  change (fetch W (lit "http://localhost:11434/api/embed")
            {| method := lit "POST";
               headers := [(lit "Content-Type", lit "application/json")];
               body := {| model := lit "nomic-embed-text"; input := text |} |})
    with (fetch W embed_url (embed_init text)).
  destruct (fetch W embed_url (embed_init text)) as [response|error];
    [|reflexivity].
  destruct response as [ok statusText [data|error]]; destruct ok; reflexivity.
Qed.

Lemma Roosearch_searchQdrant_result (W : World)
    (embedding : EmbeddingResponse.t) (workspacePath : jsstring) :
  result (Roosearch.searchQdrant W embedding workspacePath)
  = search_outcome W (Roosearch.getWorkspaceVectorStoreName workspacePath)
      embedding.
Proof.
  unfold Roosearch.searchQdrant, search_outcome.
  destruct (Roosearch.first_embedding W embedding) as [vector|error];
    [|reflexivity].
  simpl.
  change {| query := vector; filter := tt;
            score_threshold := 0.40%float; limit := 50;
            params := {| hnsw_ef := 128; exact := false |};
            with_payload_include :=
              [lit "filePath"; lit "codeChunk"; lit "startLine";
               lit "endLine"; lit "pathSegments"] |}
    with (request_for vector).
  destruct (qdrant_query W _ (request_for vector)); reflexivity.
Qed.

Lemma Part000_searchQdrant_result (W : World) (embedding : EmbeddingResponse.t) :
  result (Part000.searchQdrant W embedding)
  = search_outcome W fixed_collection embedding.
Proof.
  unfold Part000.searchQdrant, search_outcome.
  change (Part000.first_embedding W embedding)
    with (Roosearch.first_embedding W embedding).
  destruct (Roosearch.first_embedding W embedding) as [vector|error];
    [|reflexivity].
  simpl.
  change (qdrant_query W (lit "ws-e9be3207f7247f18") _)
    with (qdrant_query W fixed_collection (request_for vector)).
  destruct (qdrant_query W fixed_collection (request_for vector)); reflexivity.
Qed.

Lemma result_bind {A B} (m : M A) (k : A -> M B) :
  result (bind m k) =
  match result m with
  | Returned a => result (k a)
  | Thrown error => Thrown error
  end.
Proof.
  destruct m as [tr [a|error]]; simpl; [|reflexivity].
  destruct (k a); reflexivity.
Qed.

Lemma result_try_catch {A} (m : M A) (handler : thrown -> M A) :
  result (try_catch m handler) =
  match result m with
  | Returned a => Returned a
  | Thrown error => result (handler error)
  end.
Proof.
  destruct m as [tr [a|error]]; simpl; [reflexivity|].
  destruct (handler error); reflexivity.
Qed.

Lemma result_lift {A} (o : outcome A) : result (lift o) = o.
Proof. reflexivity. Qed.

Lemma Roosearch_pipeline_result (W : World) (query workspacePath : jsstring) :
  result (Roosearch.executeSearchPipeline W query workspacePath)
  = Returned (pipeline_text W
                (Roosearch.getWorkspaceVectorStoreName workspacePath) query).
Proof.
  unfold Roosearch.executeSearchPipeline, pipeline_text.
  rewrite result_try_catch, result_bind, Roosearch_createEmbeddings_result.
  destruct (embedding_outcome W query) as [embedding|error]; [|reflexivity].
  rewrite result_bind, Roosearch_searchQdrant_result.
  destruct (search_outcome W _ embedding) as [points|error]; [|reflexivity].
  rewrite result_bind, result_lift.
  destruct (Roosearch.transformResults W points) as [normalized|error];
    [|reflexivity].
  rewrite result_lift.
  destruct (Roosearch.format_fresh W normalized query); reflexivity.
Qed.

Lemma Part000_pipeline_result (W : World) (query : jsstring) :
  result (Part000.executeSearchPipeline W query)
  = Returned (pipeline_text W fixed_collection query).
Proof.
  unfold Part000.executeSearchPipeline, pipeline_text.
  rewrite result_try_catch, result_bind, Part000_createEmbeddings_result.
  destruct (embedding_outcome W query) as [embedding|error]; [|reflexivity].
  rewrite result_bind, Part000_searchQdrant_result.
  destruct (search_outcome W _ embedding) as [points|error]; [|reflexivity].
  rewrite result_bind, result_lift, Part000_transformResults.
  destruct (Roosearch.transformResults W points) as [normalized|error];
    [|reflexivity].
  rewrite result_lift, Part000_format_fresh.
  destruct (Roosearch.format_fresh W normalized query); reflexivity.
Qed.

(* ------------------------------------------------------------------ *)
(** ** The pipeline: what leaves the process *)

Lemma trace_bind {A B} (m : M A) (k : A -> M B) :
  trace (bind m k) =
  trace m ++ match result m with
             | Returned a => trace (k a)
             | Thrown _ => []
             end.
Proof.
  destruct m as [tr [a|error]]; simpl.
  - destruct (k a); reflexivity.
  - now rewrite app_nil_r.
Qed.

Lemma trace_try_catch {A} (m : M A) (handler : thrown -> M A) :
  trace (try_catch m handler) =
  trace m ++ match result m with
             | Returned _ => []
             | Thrown error => trace (handler error)
             end.
Proof.
  destruct m as [tr [a|error]]; simpl.
  - now rewrite app_nil_r.
  - destruct (handler error); reflexivity.
Qed.

Lemma network_calls_app (tr tr' : list event) :
  network_calls (tr ++ tr') = network_calls tr ++ network_calls tr'.
Proof. apply filter_app. Qed.

Lemma Roosearch_createEmbeddings_calls (W : World) (text : jsstring) :
  network_calls (trace (Roosearch.createEmbeddings W text))
  = [Fetch embed_url (embed_init text)].
Proof.
  unfold Roosearch.createEmbeddings; simpl.
  change (fetch W (lit "http://localhost:11434/api/embed")
            {| method := lit "POST";
               headers := [(lit "Content-Type", lit "application/json")];
               body := {| model := lit "nomic-embed-text"; input := text |} |})
    with (fetch W embed_url (embed_init text)).
  destruct (fetch W embed_url (embed_init text)) as [response|error];
    [|reflexivity].
  destruct response as [ok statusText [data|error]]; destruct ok; reflexivity.
Qed.

Lemma Part000_createEmbeddings_trace (W : World) (text : jsstring) :
  trace (Part000.createEmbeddings W text) = [Fetch embed_url (embed_init text)].
Proof.
  unfold Part000.createEmbeddings; simpl.
  change (fetch W (lit "http://localhost:11434/api/embed")
            {| method := lit "POST";
               headers := [(lit "Content-Type", lit "application/json")];
               body := {| model := lit "nomic-embed-text"; input := text |} |})
    with (fetch W embed_url (embed_init text)).
  destruct (fetch W embed_url (embed_init text)) as [response|error];
    [|reflexivity].
  destruct response as [ok statusText [data|error]]; destruct ok; reflexivity.
Qed.

Lemma Roosearch_searchQdrant_trace (W : World)
    (embedding : EmbeddingResponse.t) (workspacePath : jsstring) :
  trace (Roosearch.searchQdrant W embedding workspacePath)
  = match Roosearch.first_embedding W embedding with
    | Returned vector =>
      [Query (Roosearch.getWorkspaceVectorStoreName workspacePath)
             (request_for vector)]
    | Thrown _ => []
    end.
Proof.
  unfold Roosearch.searchQdrant.
  destruct (Roosearch.first_embedding W embedding) as [vector|error];
    [|reflexivity].
  simpl. destruct (qdrant_query W _ _); reflexivity.
Qed.

Lemma Part000_searchQdrant_trace (W : World) (embedding : EmbeddingResponse.t) :
  trace (Part000.searchQdrant W embedding)
  = match Roosearch.first_embedding W embedding with
    | Returned vector => [Query fixed_collection (request_for vector)]
    | Thrown _ => []
    end.
Proof.
  unfold Part000.searchQdrant.
  change (Part000.first_embedding W embedding)
    with (Roosearch.first_embedding W embedding).
  destruct (Roosearch.first_embedding W embedding) as [vector|error];
    [|reflexivity].
  simpl. destruct (qdrant_query W _ _); reflexivity.
Qed.

Lemma Roosearch_pipeline_calls (W : World) (query workspacePath : jsstring) :
  network_calls (trace (Roosearch.executeSearchPipeline W query workspacePath))
  = expected_calls W (Roosearch.getWorkspaceVectorStoreName workspacePath) query.
Proof.
  unfold Roosearch.executeSearchPipeline, expected_calls.
  rewrite trace_try_catch, network_calls_app, trace_bind, network_calls_app.
  rewrite Roosearch_createEmbeddings_calls, result_bind.
  rewrite Roosearch_createEmbeddings_result.
  destruct (embedding_outcome W query) as [embedding|error]; [|reflexivity].
  rewrite trace_bind, result_bind, Roosearch_searchQdrant_trace,
    Roosearch_searchQdrant_result.
  unfold search_outcome.
  destruct (Roosearch.first_embedding W embedding) as [vector|error];
    [|reflexivity].
  destruct (qdrant_query W _ _) as [operationResult|error]; [|reflexivity].
  simpl. destruct (Roosearch.transformResults W _) as [normalized|error];
    [|reflexivity].
  cbn [trace result fst snd].
  destruct (Roosearch.format_fresh W normalized query); reflexivity.
Qed.

Lemma Part000_pipeline_trace (W : World) (query : jsstring) :
  trace (Part000.executeSearchPipeline W query)
  = expected_calls W fixed_collection query.
Proof.
  unfold Part000.executeSearchPipeline, expected_calls.
  rewrite trace_try_catch, trace_bind.
  rewrite Part000_createEmbeddings_trace, result_bind.
  rewrite Part000_createEmbeddings_result.
  destruct (embedding_outcome W query) as [embedding|error]; [|reflexivity].
  rewrite trace_bind, result_bind, Part000_searchQdrant_trace,
    Part000_searchQdrant_result.
  unfold search_outcome.
  destruct (Roosearch.first_embedding W embedding) as [vector|error];
    [|reflexivity].
  destruct (qdrant_query W _ _) as [operationResult|error]; [|reflexivity].
  simpl. destruct (Part000.transformResults W _) as [normalized|error];
    [|reflexivity].
  cbn [trace result fst snd].
  destruct (Part000.format_fresh W normalized query); reflexivity.
Qed.

(* ------------------------------------------------------------------ *)
(** ** The pipeline never raises *)

Lemma Roosearch_catches_every_stage (W : World) (query workspacePath : jsstring) :
  catches_every_stage
    (Roosearch.executeSearchPipeline W query workspacePath)
    (Roosearch.createEmbeddings W query)
    (fun embedding => Roosearch.searchQdrant W embedding workspacePath)
    (Roosearch.transformResults W)
    (fun normalized => Roosearch.format_fresh W normalized query).
Proof.
  unfold catches_every_stage.
  rewrite Roosearch_pipeline_result, Roosearch_createEmbeddings_result.
  unfold pipeline_text.
  split; [eexists; reflexivity|]. split; [|split; [|split; [|split]]].
  - now intros error ->.
  - intros embedding error ->. rewrite Roosearch_searchQdrant_result.
    now intros ->.
  - intros embedding points error ->. rewrite Roosearch_searchQdrant_result.
    now intros -> ->.
  - intros embedding points normalized error ->.
    rewrite Roosearch_searchQdrant_result. now intros -> -> ->.
  - intros embedding points normalized text ->.
    rewrite Roosearch_searchQdrant_result. now intros -> -> ->.
Qed.

Lemma Part000_catches_every_stage (W : World) (query : jsstring) :
  catches_every_stage
    (Part000.executeSearchPipeline W query)
    (Part000.createEmbeddings W query)
    (Part000.searchQdrant W)
    (Part000.transformResults W)
    (fun normalized => Part000.format_fresh W normalized query).
Proof.
  unfold catches_every_stage.
  rewrite Part000_pipeline_result, Part000_createEmbeddings_result.
  unfold pipeline_text.
  split; [eexists; reflexivity|]. split; [|split; [|split; [|split]]].
  - now intros error ->.
  - intros embedding error ->. rewrite Part000_searchQdrant_result.
    now intros ->.
  - intros embedding points error ->. rewrite Part000_searchQdrant_result.
    rewrite Part000_transformResults. now intros -> ->.
  - intros embedding points normalized error ->.
    rewrite Part000_searchQdrant_result, Part000_transformResults.
    intros -> ->. rewrite Part000_format_fresh. now intros ->.
  - intros embedding points normalized text ->.
    rewrite Part000_searchQdrant_result, Part000_transformResults.
    intros -> ->. rewrite Part000_format_fresh. now intros ->.
Qed.

Lemma http_failure_text (W : World) (collection query : jsstring)
    (response : Response.t) :
  fetch W embed_url (embed_init query) = Returned response ->
  Response.ok response = false ->
  pipeline_text W collection query
  = lit "Error executing search: Embedding creation failed"
    ++ lit ": Failed to create embeddings: " ++ Response.statusText response.
Proof.
  intros Hfetch Hok. unfold pipeline_text, embedding_outcome.
  now rewrite Hfetch, Hok.
Qed.

(** C1. In both source files a run of the pipeline returns a string and
    never ends in an exception: when the embedding call, the vector
    search, the transformation of the points or the formatting of the
    results throws, the string returned is exactly
    [Error executing search: ] followed by the message of what was thrown
    ([Unknown error] when it is not an Error), and when none of them
    throws it is the report; and when the embedding service answers with
    a status that is not a success, the string returned is
    [Error executing search: Embedding creation failed] followed by the
    cause. *)
Theorem C1_pipeline_never_raises (W : World) (query workspacePath : jsstring) :
  catches_every_stage
    (Roosearch.executeSearchPipeline W query workspacePath)
    (Roosearch.createEmbeddings W query)
    (fun embedding => Roosearch.searchQdrant W embedding workspacePath)
    (Roosearch.transformResults W)
    (fun normalized => Roosearch.format_fresh W normalized query)
  /\ catches_every_stage
       (Part000.executeSearchPipeline W query)
       (Part000.createEmbeddings W query)
       (Part000.searchQdrant W)
       (Part000.transformResults W)
       (fun normalized => Part000.format_fresh W normalized query)
  /\ (forall response,
        fetch W embed_url (embed_init query) = Returned response ->
        Response.ok response = false ->
        let text :=
          lit "Error executing search: Embedding creation failed"
          ++ lit ": Failed to create embeddings: "
          ++ Response.statusText response in
        result (Roosearch.executeSearchPipeline W query workspacePath)
        = Returned text
        /\ result (Part000.executeSearchPipeline W query) = Returned text).
Proof.
  split; [apply Roosearch_catches_every_stage|].
  split; [apply Part000_catches_every_stage|].
  intros response Hfetch Hok text.
  rewrite Roosearch_pipeline_result, Part000_pipeline_result.
  now rewrite !(@http_failure_text W _ query response Hfetch Hok).
Qed.

(** The failure scenario of the specification (the embedding service
    answers HTTP 500), a rejection that is not an Error, and the three
    failures after the search: a kept point whose code chunk is a number,
    a reply without [points], and a path that has no string form. *)
Lemma C1_witness :
  result (Roosearch.executeSearchPipeline Examples.embedding_down
            (lit "parse json") (lit "/home/me/project"))
  = Returned (lit "Error executing search: Embedding creation failed"
              ++ lit ": Failed to create embeddings: Internal Server Error")
  /\ result (Roosearch.executeSearchPipeline Examples.network_down
               (lit "parse json") (lit "/home/me/project"))
     = Returned (lit "Error executing search: Embedding creation failed"
                 ++ lit ": Unknown error")
  /\ result (Roosearch.executeSearchPipeline Examples.ill_typed_reply
               (lit "parse json") (lit "/home/me/project"))
     = Returned (lit "Error executing search: "
                 ++ lit "result.payload.codeChunk.trim is not a function")
  /\ result (Roosearch.executeSearchPipeline Examples.reply_without_points
               (lit "parse json") (lit "/home/me/project"))
     = Returned (lit "Error executing search: "
                 ++ lit "Cannot read properties of undefined (reading 'filter')")
  /\ result (Roosearch.executeSearchPipeline Examples.unprintable_path
               (lit "parse json") (lit "/home/me/project"))
     = Returned (lit "Error executing search: "
                 ++ lit "Cannot convert object to primitive value").
Proof.
  split; [|split; [|split; [|split]]].
  - destruct (C1_pipeline_never_raises Examples.embedding_down
                (lit "parse json") (lit "/home/me/project"))
      as (_ & _ & Hhttp).
    destruct (Hhttp _ eq_refl eq_refl) as [H _]. exact H.
  - destruct (C1_pipeline_never_raises Examples.network_down
                (lit "parse json") (lit "/home/me/project"))
      as ((_ & Hembed & _) & _).
    exact (Hembed _ eq_refl).
  - destruct (C1_pipeline_never_raises Examples.ill_typed_reply
                (lit "parse json") (lit "/home/me/project"))
      as ((_ & _ & _ & Htransform & _) & _).
    exact (Htransform Examples.embedding_body
             (PointsArray [Examples.ill_typed_point]) _
             eq_refl eq_refl eq_refl).
  - destruct (C1_pipeline_never_raises Examples.reply_without_points
                (lit "parse json") (lit "/home/me/project"))
      as ((_ & _ & _ & Htransform & _) & _).
    exact (Htransform Examples.embedding_body PointsUndefined _
             eq_refl eq_refl eq_refl).
  - destruct (C1_pipeline_never_raises Examples.unprintable_path
                (lit "parse json") (lit "/home/me/project"))
      as ((_ & _ & _ & _ & Hformat & _) & _).
    exact (Hformat Examples.embedding_body _ _ _
             eq_refl eq_refl eq_refl eq_refl).
Defined.

(* ------------------------------------------------------------------ *)
(** ** The query vector *)

(** C7. When the embedding service answers successfully with a body whose
    [embeddings] is a sequence of vectors starting with [vector], [embed]
    (the embedding call, which returns that body, followed by the indexing
    of its [embeddings]) produces [vector], and the one query the run sends
    to the vector database carries exactly [vector] as its query vector
    (in the workspace's collection for the plugin, in the fixed collection
    for the stand-alone tool). *)
Theorem C7_query_vector_is_first_embedding (W : World)
    (text workspacePath : jsstring) (response : Response.t)
    (data : EmbeddingResponse.t) (vector : list float) (others : list (list float))
    (Hfetch : fetch W embed_url (embed_init text) = Returned response)
    (Hok : Response.ok response = true)
    (Hjson : Response.json response = Returned data)
    (Hembeddings : EmbeddingResponse.embeddings data = Some (vector :: others)) :
  result (embed W text) = Returned (Some vector)
  /\ result (Roosearch.createEmbeddings W text) = Returned data
  /\ Roosearch.first_embedding W data = Returned (Some vector)
  /\ network_calls (trace (Roosearch.executeSearchPipeline W text workspacePath))
     = [Fetch embed_url (embed_init text);
        Query (Roosearch.getWorkspaceVectorStoreName workspacePath)
              (request_for (Some vector))]
  /\ trace (Part000.executeSearchPipeline W text)
     = [Fetch embed_url (embed_init text);
        Query fixed_collection (request_for (Some vector))]
  /\ query (request_for (Some vector)) = Some vector.
Proof.
  assert (He : embedding_outcome W text = Returned data).
  { unfold embedding_outcome. now rewrite Hfetch, Hok, Hjson. }
  assert (Hv : Roosearch.first_embedding W data = Returned (Some vector)).
  { unfold Roosearch.first_embedding. now rewrite Hembeddings. }
  split; [|split; [|split; [|split; [|split]]]].
  - unfold embed. rewrite result_bind, Roosearch_createEmbeddings_result, He.
    exact Hv.
  - now rewrite Roosearch_createEmbeddings_result.
  - exact Hv.
  - rewrite Roosearch_pipeline_calls. unfold expected_calls.
    now rewrite He, Hv.
  - rewrite Part000_pipeline_trace. unfold expected_calls.
    now rewrite He, Hv.
  - reflexivity.
Qed.

Lemma C7_witness :
  network_calls
    (trace (Roosearch.executeSearchPipeline Examples.healthy
              (lit "parse json") (lit "/home/me/project")))
  = [Fetch embed_url (embed_init (lit "parse json"));
     Query (lit "ws-225df3094012a213")
           (request_for (Some [0.1%float; 0.2%float]))].
Proof.
  destruct (@C7_query_vector_is_first_embedding Examples.healthy
              (lit "parse json") (lit "/home/me/project")
              _ _ [0.1%float; 0.2%float] [] eq_refl eq_refl eq_refl eq_refl)
    as (_ & _ & _ & H & _).
  exact H.
Defined.

(* ------------------------------------------------------------------ *)
(** ** The two source files *)

Lemma expected_calls_fixed (W : World) (collection text : jsstring) :
  map in_fixed_collection (expected_calls W collection text)
  = expected_calls W fixed_collection text.
Proof.
  unfold expected_calls.
  destruct (embedding_outcome W text) as [embedding|error]; [|reflexivity].
  destruct (Roosearch.first_embedding W embedding); reflexivity.
Qed.

Lemma pipeline_text_same_answers (W : World) (collection text : jsstring) :
  (forall request,
     qdrant_query W collection request = qdrant_query W fixed_collection request) ->
  pipeline_text W collection text = pipeline_text W fixed_collection text.
Proof.
  intros Hsame. unfold pipeline_text, search_outcome.
  destruct (embedding_outcome W text) as [embedding|error]; [|reflexivity].
  destruct (Roosearch.first_embedding W embedding) as [vector|error];
    [|reflexivity].
  now rewrite Hsame.
Qed.

Lemma pipelines_agree (W : World) (text workspacePath : jsstring) :
  (forall request,
     qdrant_query W (Roosearch.getWorkspaceVectorStoreName workspacePath) request
     = qdrant_query W fixed_collection request) ->
  result (Part000.executeSearchPipeline W text)
  = result (Roosearch.executeSearchPipeline W text workspacePath)
  /\ trace (Part000.executeSearchPipeline W text)
     = map in_fixed_collection
         (network_calls
            (trace (Roosearch.executeSearchPipeline W text workspacePath))).
Proof.
  intros Hsame.
  rewrite Part000_pipeline_result, Roosearch_pipeline_result,
    Part000_pipeline_trace, Roosearch_pipeline_calls.
  rewrite (pipeline_text_same_answers W _ text Hsame).
  now rewrite expected_calls_fixed.
Qed.

(** The stand-alone tool is the plugin's tool for any workspace whose
    collection name is the fixed one. *)
Lemma Part000_is_Roosearch_at_the_fixed_collection (W : World)
    (text workspacePath : jsstring) :
  Roosearch.getWorkspaceVectorStoreName workspacePath = fixed_collection ->
  result (execute (Part000.default_tool W) text)
  = result (execute (Roosearch.RooSearchPlugin W workspacePath) text)
  /\ trace (execute (Part000.default_tool W) text)
     = network_calls
         (trace (execute (Roosearch.RooSearchPlugin W workspacePath) text)).
Proof.
  intros Hname. simpl.
  rewrite Part000_pipeline_result, Roosearch_pipeline_result,
    Part000_pipeline_trace, Roosearch_pipeline_calls, Hname.
  split; reflexivity.
Qed.

(** What the two tools do not share: the text that describes them, and the
    diagnostics only the plugin writes to the console. *)
Lemma descriptions_differ (W : World) (workspacePath : jsstring) :
  description (Part000.default_tool W)
  <> description (Roosearch.RooSearchPlugin W workspacePath).
Proof. discriminate. Qed.

Lemma only_the_plugin_logs :
  trace (Part000.executeSearchPipeline Examples.network_down (lit "q"))
  = [Fetch embed_url (embed_init (lit "q"))]
  /\ trace (Roosearch.executeSearchPipeline Examples.network_down (lit "q")
              (lit "/w"))
     = [Fetch embed_url (embed_init (lit "q"));
        ConsoleError (lit "Embedding creation failed:")
          (OtherValue (lit "ECONNREFUSED"));
        ConsoleError (lit "Error executing search pipeline:")
          (ErrorObject (lit "Embedding creation failed: Unknown error"))].
Proof. split; reflexivity. Qed.

(** C10. The filter, transform and format stages of the two source files
    are the same functions: on every sequence of raw points and every query
    they give the same output. Hence, for every behaviour of the two
    services, the stand-alone tool returns what the plugin returns for a
    workspace path whose collection the database answers as it answers the
    fixed collection [ws-e9be3207f7247f18] (in particular a path whose
    collection name is that one), and it sends the same requests, the query
    going to the fixed collection. *)
Theorem C10_fixed_tool_is_the_plugin_at_one_collection (W : World)
    (text workspacePath : jsstring)
    (Hsame : forall request,
        qdrant_query W (Roosearch.getWorkspaceVectorStoreName workspacePath)
          request
        = qdrant_query W (lit "ws-e9be3207f7247f18") request) :
  (forall points,
     Part000.filterValidResults W points
     = Roosearch.filterValidResults W points
     /\ Part000.transformResults W points = Roosearch.transformResults W points)
  /\ (forall results,
        Part000.format_fresh W results text
        = Roosearch.format_fresh W results text)
  /\ (forall st results,
        Part000.formatResults W st results text
        = Roosearch.formatResults W st results text)
  /\ result (Part000.executeSearchPipeline W text)
     = result (Roosearch.executeSearchPipeline W text workspacePath)
  /\ result (execute (Part000.default_tool W) text)
     = result (execute (Roosearch.RooSearchPlugin W workspacePath) text)
  /\ trace (Part000.executeSearchPipeline W text)
     = map in_fixed_collection
         (network_calls
            (trace (Roosearch.executeSearchPipeline W text workspacePath))).
Proof.
  destruct (pipelines_agree W text workspacePath Hsame) as [Hres Htr].
  split; [|split; [|split; [|split; [|split]]]]; trivial.
  intros points. split.
  - apply Part000_filterValidResults.
  - apply Part000_transformResults.
Qed.

Lemma C10_witness :
  result (Part000.executeSearchPipeline Examples.healthy (lit "parse json"))
  = result (Roosearch.executeSearchPipeline Examples.healthy (lit "parse json")
              (lit "/home/me/project")).
Proof.
  destruct (@C10_fixed_tool_is_the_plugin_at_one_collection Examples.healthy
              (lit "parse json") (lit "/home/me/project")
              (fun _ => eq_refl))
    as (_ & _ & _ & H & _).
  exact H.
Defined.

(* ------------------------------------------------------------------ *)
(** ** Scenarios *)

(** One valid point and one without [codeChunk]: one block, for [a.ts],
    with the code trimmed, and the singular in the summary. *)
Example end_to_end_scenario :
  result (Roosearch.executeSearchPipeline Examples.healthy
            (lit "parse json") (lit "/home/me/project"))
  = Returned
      (lit "Query: " ++ [dquote] ++ lit "parse json" ++ [dquote; LF; LF]
       ++ lit "Found 1 result:" ++ [LF; LF]
       ++ lit "File: a.ts" ++ [LF]
       ++ lit "Score: 0.800" ++ [LF]
       ++ lit "Lines: 10-20" ++ [LF]
       ++ lit "Code:" ++ [LF]
       ++ lit "```" ++ [LF]
       ++ lit "foo()" ++ [LF]
       ++ lit "```" ++ [LF]
       ++ [LF; LF] ++ lit "---" ++ [LF]
       ++ lit "Search completed with 1 result.").
Proof. vm_compute. reflexivity. Qed.

(** A response body without [embeddings]: the TypeError raised when it is
    indexed is not wrapped by [searchQdrant], and is still caught. *)
Example body_without_embeddings :
  result (Roosearch.executeSearchPipeline Examples.odd_body
            (lit "parse json") (lit "/home/me/project"))
  = Returned (lit "Error executing search: "
              ++ lit "Cannot read properties of undefined (reading '0')").
Proof. vm_compute. reflexivity. Qed.

Example database_failure :
  result (Part000.executeSearchPipeline Examples.database_down
            (lit "parse json"))
  = Returned (lit "Error executing search: Search operation failed: Not Found").
Proof. vm_compute. reflexivity. Qed.

(** With an empty [embeddings] the query is sent without a vector. *)
Lemma empty_embeddings_give_no_vector (W : World) :
  Roosearch.first_embedding W (EmbeddingResponse.mk (Some []))
  = Returned None.
Proof. reflexivity. Qed.

(** [result] for one result, [results] for none or several. *)
Lemma pluralization (blocks : list jsstring) (text : jsstring) :
  report blocks 1 text
  = lit "Query: " ++ [dquote] ++ text ++ [dquote; LF; LF]
    ++ lit "Found 1 result:" ++ [LF; LF] ++ join [LF; LF] blocks
    ++ [LF; LF] ++ lit "---" ++ [LF]
    ++ lit "Search completed with 1 result."
  /\ report blocks 2 text
     = lit "Query: " ++ [dquote] ++ text ++ [dquote; LF; LF]
       ++ lit "Found 2 results:" ++ [LF; LF] ++ join [LF; LF] blocks
       ++ [LF; LF] ++ lit "---" ++ [LF]
       ++ lit "Search completed with 2 results.".
Proof.
  split; reflexivity.
Qed.

(* ------------------------------------------------------------------ *)
(** ** The collection name *)

(** Test vectors of FIPS 180-4 and one string that is not ASCII. *)
Example sha256_abc :
  sha256_hex (lit "abc")
  = lit "ba7816bf8f01cfea414140de5dae2223b00361a396177a9cb410ff61f20015ad".
Proof. vm_compute. reflexivity. Qed.

Example sha256_empty :
  sha256_hex []
  = lit "e3b0c44298fc1c149afbf4c8996fb92427ae41e4649b934ca495991b7852b855".
Proof. vm_compute. reflexivity. Qed.

Example sha256_two_blocks :
  sha256_hex (lit "abcdbcdecdefdefgefghfghighijhijkijkljklmklmnlmnomnopnopq")
  = lit "248d6a61d20638b8e5c026930c3e6039a33ce45964ff2167f6ecedd419db06c1".
Proof. vm_compute. reflexivity. Qed.

Lemma substring_from_start (s : jsstring) (n : nat) :
  substring s 0 n = firstn n s.
Proof.
  unfold substring. rewrite Nat.min_0_l, Nat.min_0_l, Nat.max_0_l, Nat.sub_0_r.
  simpl skipn.
  destruct (Nat.le_ge_cases n (length s)) as [H|H].
  - now rewrite Nat.min_l.
  - rewrite Nat.min_r by exact H.
    now rewrite !firstn_all2 by lia.
Qed.

Lemma be_bytes_length (count : nat) (x : N) :
  length (SHA256.be_bytes count x) = count.
Proof.
  unfold SHA256.be_bytes. now rewrite length_map, length_rev, length_seq.
Qed.

Lemma be_bytes_bound (count : nat) (x : N) :
  Forall (fun b => (b < 256)%N) (SHA256.be_bytes count x).
Proof.
  unfold SHA256.be_bytes. apply Forall_forall. intros b Hb.
  apply in_map_iff in Hb. destruct Hb as (i & <- & _).
  now apply N.mod_lt.
Qed.

Lemma digest_length (msg : list byte) : length (SHA256.digest msg) = 32.
Proof.
  unfold SHA256.digest. cbn [flat_map].
  now rewrite !length_app, !be_bytes_length.
Qed.

Lemma digest_bound (msg : list byte) :
  Forall (fun b => (b < 256)%N) (SHA256.digest msg).
Proof.
  unfold SHA256.digest. apply Forall_flat_map.
  apply Forall_forall. intros w _. apply be_bytes_bound.
Qed.

Lemma hex_length (bs : list byte) : length (hex bs) = 2 * length bs.
Proof.
  unfold hex. induction bs as [|b bs IH]; simpl in *; [reflexivity|].
  rewrite IH. lia.
Qed.

Lemma firstn_hex (k : nat) (bs : list byte) :
  firstn (2 * k) (hex bs) = hex (firstn k bs).
Proof.
  revert bs. induction k as [|k IH]; intros bs; [reflexivity|].
  destruct bs as [|b bs]; [reflexivity|].
  replace (2 * S k) with (S (S (2 * k))) by lia.
  unfold hex in *. simpl. now rewrite <- IH.
Qed.

Lemma hex_digit_lower (d : N) : (d < 16)%N -> is_lower_hex (hex_digit d) = true.
Proof.
  intros Hd. unfold is_lower_hex, hex_digit.
  destruct (N.ltb_spec d 10).
  - apply orb_true_iff. left. apply andb_true_iff.
    split; apply N.leb_le; lia.
  - apply orb_true_iff. right. apply andb_true_iff.
    split; apply N.leb_le; lia.
Qed.

Lemma hex_lower (bs : list byte) :
  Forall (fun b => (b < 256)%N) bs ->
  Forall (fun c => is_lower_hex c = true) (hex bs).
Proof.
  induction 1 as [|b bs Hb _ IH]; [constructor|].
  unfold hex in *. simpl. constructor; [|constructor]; trivial.
  - apply hex_digit_lower. apply N.Div0.div_lt_upper_bound. lia.
  - apply hex_digit_lower. now apply N.mod_lt.
Qed.

Lemma Forall_firstn {A : Type} (P : A -> Prop) (n : nat) (l : list A) :
  Forall P l -> Forall P (firstn n l).
Proof.
  intros H. revert n. induction H as [|a l Ha _ IH]; intros [|n]; simpl;
    constructor; auto.
Qed.

(** The name is the prefix and the hexadecimal form of the first eight
    bytes of the digest. *)
Lemma name_of_first_bytes (workspacePath : jsstring) :
  Roosearch.getWorkspaceVectorStoreName workspacePath
  = lit "ws-" ++ hex (firstn 8 (SHA256.digest (utf8_encode workspacePath))).
Proof.
  unfold Roosearch.getWorkspaceVectorStoreName. cbn [Roosearch.hashLength
    Roosearch.ROO_SEARCH_CONFIG].
  rewrite substring_from_start. unfold sha256_hex.
  now rewrite (firstn_hex 8).
Qed.

(** C2. The collection name of a workspace path is [ws-] followed by the
    first 16 characters of the lowercase hexadecimal SHA-256 digest of the
    path's UTF-8 bytes: there are exactly 16 of them, each one of
    [0-9a-f], so the name has 19 characters. The name is a function of the
    path alone: equal paths give equal names. (The source function calls
    nothing outside the process; accordingly its embedding is a function on
    strings and not a computation with an event trace.) *)
Theorem C2_collection_name_is_prefix_and_truncated_digest
    (workspacePath : jsstring) :
  let digest_hex := hex (SHA256.digest (utf8_encode workspacePath)) in
  Roosearch.getWorkspaceVectorStoreName workspacePath
  = lit "ws-" ++ firstn 16 digest_hex
  /\ length digest_hex = 64
  /\ length (firstn 16 digest_hex) = 16
  /\ Forall (fun c => is_lower_hex c = true) digest_hex
  /\ length (Roosearch.getWorkspaceVectorStoreName workspacePath) = 19
  /\ (forall other : jsstring,
        other = workspacePath ->
        Roosearch.getWorkspaceVectorStoreName other
        = Roosearch.getWorkspaceVectorStoreName workspacePath).
Proof.
  intros digest_hex.
  assert (Hlen : length digest_hex = 64).
  { unfold digest_hex. now rewrite hex_length, digest_length. }
  assert (Hname : Roosearch.getWorkspaceVectorStoreName workspacePath
                  = lit "ws-" ++ firstn 16 digest_hex).
  { unfold Roosearch.getWorkspaceVectorStoreName.
    now rewrite substring_from_start. }
  split; [exact Hname|]. split; [exact Hlen|].
  assert (H16 : length (firstn 16 digest_hex) = 16).
  { rewrite length_firstn, Hlen. reflexivity. }
  split; [exact H16|]. split; [|split].
  - apply hex_lower, digest_bound.
  - rewrite Hname, length_app, H16. reflexivity.
  - now intros other ->.
Qed.

Example collection_name_example :
  Roosearch.getWorkspaceVectorStoreName (lit "/home/me/project")
  = lit "ws-225df3094012a213".
Proof. vm_compute. reflexivity. Qed.

Example sha256_padding_boundaries :
  sha256_hex (repeat 97%N 55)
  = lit "9f4390f8d30c2dd92ec9f095b65e2b9ae9b0a925a5258e241c9f1e910f734318"
  /\ sha256_hex (repeat 97%N 56)
     = lit "b35439a4ac6f0948b6d6f9e3c6af0f5f590ce20f1bde7090ef7970686ec6738a"
  /\ sha256_hex (repeat 97%N 64)
     = lit "ffe054fe7ae0cb6dc65c3af9b61d5209f439851db43d0ba5997337df154668eb"
  /\ sha256_hex (repeat 97%N 119)
     = lit "31eba51c313a5c08226adf18d4a359cfdfd8d2e816b13f4af952f7ea6584dcfb".
Proof. vm_compute. repeat split. Qed.

(** U+00E9, U+20AC and U+1F600 (a surrogate pair) in UTF-8. *)
Example sha256_beyond_ascii :
  sha256_hex [233%N]
  = lit "4a99557e4033c3539de2eb65472017cad5f9557f7a0625a09f1c3f6e2ba69c4c"
  /\ sha256_hex [8364%N]
     = lit "c4cc90ed3d26f12d4b08a75140970a7904035c31cbb4515a83f19b9003c00d1d"
  /\ sha256_hex [55357%N; 56832%N]
     = lit "f0443a342c5ef54783a111b51ba56c938e474c32324d90c3a60c9c8e3a37e2d9".
Proof. vm_compute. repeat split. Qed.

(** Hexadecimal is injective on bytes. *)
Lemma hex_digit_inj (d e : N) :
  (d < 16)%N -> (e < 16)%N -> hex_digit d = hex_digit e -> d = e.
Proof.
  unfold hex_digit. intros Hd He.
  destruct (N.ltb_spec d 10), (N.ltb_spec e 10); lia.
Qed.

Lemma hex_byte_inj (a b : byte) :
  (a < 256)%N -> (b < 256)%N -> hex_byte a = hex_byte b -> a = b.
Proof.
  intros Ha Hb H. unfold hex_byte in H. injection H as Hq Hr.
  apply hex_digit_inj in Hq; try (apply N.Div0.div_lt_upper_bound; lia).
  apply hex_digit_inj in Hr; try (now apply N.mod_lt).
  rewrite (N.div_mod a 16), (N.div_mod b 16) by lia. now rewrite Hq, Hr.
Qed.

Lemma hex_inj (l1 l2 : list byte) :
  Forall (fun b => (b < 256)%N) l1 ->
  Forall (fun b => (b < 256)%N) l2 ->
  hex l1 = hex l2 -> l1 = l2.
Proof.
  intros H1. revert l2.
  induction H1 as [|a l1 Ha _ IH]; intros l2 H2 H.
  - destruct l2; [reflexivity | discriminate].
  - destruct H2 as [|b l2 Hb H2]; [discriminate|].
    unfold hex in *. simpl in H.
    injection H as Hq Hr Hrest.
    f_equal.
    + apply hex_byte_inj; trivial. unfold hex_byte. now rewrite Hq, Hr.
    + now apply IH.
Qed.

(** Two paths have the same collection name exactly when the first eight
    bytes of their digests are the same. *)
Lemma same_name_iff_same_first_bytes (p1 p2 : jsstring) :
  Roosearch.getWorkspaceVectorStoreName p1
  = Roosearch.getWorkspaceVectorStoreName p2
  <-> firstn 8 (SHA256.digest (utf8_encode p1))
      = firstn 8 (SHA256.digest (utf8_encode p2)).
Proof.
  rewrite !name_of_first_bytes. split.
  - intros H. apply app_inv_head in H.
    apply hex_inj in H; trivial; apply Forall_firstn, digest_bound.
  - now intros ->.
Qed.

Lemma bytes_value_bound (bs : list byte) :
  Forall (fun b => (b < 256)%N) bs ->
  (bytes_value bs < 256 ^ N.of_nat (length bs))%N.
Proof.
  induction 1 as [|b bs Hb _ IH].
  - simpl. lia.
  - cbn [bytes_value length]. rewrite Nat2N.inj_succ, N.pow_succ_r'. lia.
Qed.

Lemma bytes_value_inj (l1 l2 : list byte) :
  Forall (fun b => (b < 256)%N) l1 ->
  Forall (fun b => (b < 256)%N) l2 ->
  length l1 = length l2 ->
  bytes_value l1 = bytes_value l2 -> l1 = l2.
Proof.
  intros H1. revert l2.
  induction H1 as [|a l1 Ha _ IH]; intros l2 H2 Hlen H.
  - destruct l2; [reflexivity | discriminate].
  - destruct H2 as [|b l2 Hb H2]; [discriminate|].
    cbn [bytes_value] in H. injection Hlen as Hlen.
    assert (a = b /\ bytes_value l1 = bytes_value l2) as [-> Hv] by lia.
    f_equal. now apply IH.
Qed.

(** The pigeonhole principle: [n + 1] values below [n] are not distinct. *)
Lemma bounded_search (f : nat -> nat) (v n : nat) :
  (exists i, i <= n /\ f i = v) \/ (forall i, i <= n -> f i <> v).
Proof.
  induction n as [|n [(i & Hi & Hv)|IH]].
  - destruct (Nat.eq_dec (f 0) v) as [H|H].
    + left. exists 0. auto.
    + right. intros i Hi. now replace i with 0 by lia.
  - left. exists i. split; [lia | exact Hv].
  - destruct (Nat.eq_dec (f (S n)) v) as [H|H].
    + left. exists (S n). auto.
    + right. intros i Hi.
      destruct (Nat.eq_dec i (S n)) as [->|Hne]; [exact H|].
      apply IH. lia.
Qed.

Lemma pigeonhole (n : nat) :
  forall f : nat -> nat,
    (forall i, i <= n -> f i < n) ->
    exists i j, i < j /\ j <= n /\ f i = f j.
Proof.
  induction n as [|n IH]; intros f Hf.
  - specialize (Hf 0 (Nat.le_refl 0)). lia.
  - destruct (bounded_search f (f (S n)) n) as [(i & Hi & Hv)|Hfresh].
    + exists i, (S n). split; [lia|]. split; [lia | exact Hv].
    + set (v := f (S n)) in *.
      destruct (IH (fun i => if f i <? v then f i else f i - 1)) as
        (i & j & Hij & Hj & Heq).
      * intros i Hi.
        assert (f i < S n) by (apply Hf; lia).
        assert (v < S n) by (apply Hf; lia).
        assert (f i <> v) by now apply Hfresh.
        destruct (Nat.ltb_spec (f i) v); lia.
      * exists i, j. split; [exact Hij|]. split; [lia|].
        assert (f i <> v) by (apply Hfresh; lia).
        assert (f j <> v) by (apply Hfresh; lia).
        destruct (Nat.ltb_spec (f i) v), (Nat.ltb_spec (f j) v); lia.
Qed.

Lemma first_bytes_value_bound (workspacePath : jsstring) :
  (first_bytes_value workspacePath < 18446744073709551616)%N.
Proof.
  unfold first_bytes_value.
  pose proof (bytes_value_bound
    (Forall_firstn 8 (digest_bound (utf8_encode workspacePath)))) as H.
  rewrite length_firstn, digest_length in H. exact H.
Qed.

Lemma digits_value_le (count : nat) (n : N) :
  (n < 16 ^ N.of_nat count)%N -> digits_value (digits_le count n) = n.
Proof.
  revert n. induction count as [|count IH]; intros n Hn.
  - simpl in *. lia.
  - cbn [digits_le digits_value].
    rewrite Nat2N.inj_succ, N.pow_succ_r' in Hn.
    rewrite IH by (apply N.Div0.div_lt_upper_bound; lia).
    symmetry. rewrite N.add_comm. apply N.div_mod. lia.
Qed.

Lemma digits_le_bound (count : nat) (n : N) :
  Forall (fun d => (d < 16)%N) (digits_le count n).
Proof.
  revert n. induction count as [|count IH]; intros n; cbn [digits_le];
    constructor; [now apply N.mod_lt | apply IH].
Qed.

Lemma map_hex_digit_inj (l1 l2 : list N) :
  Forall (fun d => (d < 16)%N) l1 ->
  Forall (fun d => (d < 16)%N) l2 ->
  map hex_digit l1 = map hex_digit l2 -> l1 = l2.
Proof.
  intros H1. revert l2.
  induction H1 as [|a l1 Ha _ IH]; intros l2 H2 H.
  - destruct l2; [reflexivity | discriminate].
  - destruct H2 as [|b l2 Hb H2]; [discriminate|].
    cbn [map] in H. injection H as Hd Hrest.
    f_equal; [now apply hex_digit_inj | now apply IH].
Qed.

Lemma path_of_index_inj (i j : nat) :
  (N.of_nat i < 16 ^ 17)%N -> (N.of_nat j < 16 ^ 17)%N ->
  path_of_index i = path_of_index j -> i = j.
Proof.
  intros Hi Hj H. unfold path_of_index in H.
  apply map_hex_digit_inj in H; try apply digits_le_bound.
  apply (f_equal digits_value) in H.
  rewrite (@digits_value_le 17 (N.of_nat i) Hi) in H.
  rewrite (@digits_value_le 17 (N.of_nat j) Hj) in H.
  apply Nat2N.inj. exact H.
Qed.

Lemma path_of_index_shape (i : nat) :
  length (path_of_index i) = 17
  /\ Forall (fun c => is_lower_hex c = true) (path_of_index i).
Proof.
  unfold path_of_index. split; [reflexivity|].
  apply Forall_forall. intros c Hc. apply in_map_iff in Hc.
  destruct Hc as (d & <- & Hd). apply hex_digit_lower.
  pose proof (digits_le_bound 17 (N.of_nat i)) as Hb.
  rewrite Forall_forall in Hb. now apply Hb.
Qed.

Lemma index_bound (k : nat) (x : N) :
  (x <= 18446744073709551616)%N -> k <= N.to_nat x ->
  (N.of_nat k < 16 ^ 17)%N.
Proof.
  intros Hx Hk. apply N.le_lt_trans with x.
  - rewrite <- (N2Nat.id x). unfold N.le.
    rewrite <- Nat2N.inj_compare. apply Nat.compare_le_iff. exact Hk.
  - apply N.le_lt_trans with 18446744073709551616%N; [exact Hx | reflexivity].
Qed.

(** Two of the first 2^64 + 1 numbers give paths whose digests start
    with the same eight bytes. *)
Lemma colliding_indices :
  exists i j : nat,
    i <> j
    /\ first_bytes_value (path_of_index i) = first_bytes_value (path_of_index j)
    /\ (N.of_nat i < 16 ^ 17)%N /\ (N.of_nat j < 16 ^ 17)%N.
Proof.
  assert (Hf : forall i, i <= N.to_nat 18446744073709551616 ->
                N.to_nat (first_bytes_value (path_of_index i))
                < N.to_nat 18446744073709551616).
  { intros i _.
    pose proof (first_bytes_value_bound (path_of_index i)) as H.
    apply N.compare_lt_iff in H. rewrite N2Nat.inj_compare in H.
    apply Nat.compare_lt_iff. exact H. }
  destruct (pigeonhole _ Hf) as (i & j & Hij & Hj & Heq).
  exists i, j. split; [|split; [|split]].
  - intros E. rewrite E in Hij. exact (Nat.lt_irrefl _ Hij).
  - apply N2Nat.inj. exact Heq.
  - apply (@index_bound i 18446744073709551616 (N.le_refl _)).
    apply Nat.lt_le_incl. exact (Nat.lt_le_trans _ _ _ Hij Hj).
  - apply (@index_bound j 18446744073709551616 (N.le_refl _)). exact Hj.
Qed.

Lemma same_value_same_name (p1 p2 : jsstring) :
  first_bytes_value p1 = first_bytes_value p2 ->
  Roosearch.getWorkspaceVectorStoreName p1
  = Roosearch.getWorkspaceVectorStoreName p2.
Proof.
  intros Heq. apply same_name_iff_same_first_bytes.
  unfold first_bytes_value in Heq.
  apply bytes_value_inj in Heq.
  - exact Heq.
  - apply Forall_firstn, digest_bound.
  - apply Forall_firstn, digest_bound.
  - rewrite !length_firstn, !digest_length. reflexivity.
Qed.

(** Among the paths of 17 lowercase hexadecimal characters two different
    ones have the same name: there are more such paths than values of the
    first eight bytes of a digest. *)
Lemma collision_exists :
  exists p1 p2 : jsstring,
    p1 <> p2
    /\ length p1 = 17 /\ length p2 = 17
    /\ Forall (fun c => is_lower_hex c = true) p1
    /\ Forall (fun c => is_lower_hex c = true) p2
    /\ Roosearch.getWorkspaceVectorStoreName p1
       = Roosearch.getWorkspaceVectorStoreName p2.
Proof.
  destruct colliding_indices as (i & j & Hne & Heq & Hi & Hj).
  exists (path_of_index i), (path_of_index j).
  destruct (path_of_index_shape i) as [Hli Hhi].
  destruct (path_of_index_shape j) as [Hlj Hhj].
  split; [|split; [exact Hli|split; [exact Hlj|split; [exact Hhi|
    split; [exact Hhj|]]]]].
  - intros H. apply Hne. exact (path_of_index_inj Hi Hj H).
  - exact (same_value_same_name _ _ Heq).
Qed.

(** C8 as stated fails: the names of distinct paths are not always
    distinct. There are more paths (already of 17 characters) than values
    of the first eight bytes of a digest, so two of them have one name. *)
Lemma C8_counterexample :
  ~ (forall p1 p2 : jsstring,
       p1 <> p2 ->
       Roosearch.getWorkspaceVectorStoreName p1
       <> Roosearch.getWorkspaceVectorStoreName p2).
Proof.
  intros Hinj.
  destruct collision_exists as (p1 & p2 & Hne & _ & _ & _ & _ & Heq).
  exact (Hinj p1 p2 Hne Heq).
Qed.

(** Two strings that differ only in an unpaired surrogate are digested as
    the same bytes, and so share a name. *)
Example unpaired_surrogates_collide :
  [55296%N] <> [55297%N]
  /\ utf8_encode [55296%N] = [239; 191; 189]%N
  /\ utf8_encode [55297%N] = [239; 191; 189]%N
  /\ Roosearch.getWorkspaceVectorStoreName [55296%N]
     = Roosearch.getWorkspaceVectorStoreName [55297%N].
Proof. split; [discriminate|]. vm_compute. repeat split. Qed.

(** C8, as amended. Two workspace paths get the same collection name
    exactly when the first eight bytes (64 bits) of the SHA-256 digests of
    their UTF-8 encodings coincide; so distinct paths get distinct names
    unless their truncated digests collide. *)
Theorem C8_names_differ_iff_truncated_digests_differ (p1 p2 : jsstring) :
  Roosearch.getWorkspaceVectorStoreName p1
  <> Roosearch.getWorkspaceVectorStoreName p2
  <-> firstn 8 (SHA256.digest (utf8_encode p1))
      <> firstn 8 (SHA256.digest (utf8_encode p2)).
Proof.
  split; intros H Heq; apply H; now apply same_name_iff_same_first_bytes.
Qed.

(* ------------------------------------------------------------------ *)
(** ** Binary64 arithmetic: order and the sign of a difference

    From the specification of the primitive floats: the comparisons agree
    with the order of the exact values, and a difference of two numbers is
    above zero exactly when the first is above the second (rounding never
    turns a non-zero difference into zero, nor changes its sign). *)

Section Binary64.
Local Open Scope Z_scope.

Lemma digits2_bounds (m : positive) :
  2 ^ (Zpos (digits2_pos m) - 1) <= Zpos m < 2 ^ Zpos (digits2_pos m).
Proof.
  induction m as [m IH|m IH|]; cbn [digits2_pos].
  - rewrite Pos2Z.inj_succ. replace (Z.succ (Z.pos (digits2_pos m)) - 1) with (Z.succ (Z.pos (digits2_pos m) - 1)) by lia.
    rewrite !Z.pow_succ_r by lia. lia.
  - rewrite Pos2Z.inj_succ. replace (Z.succ (Z.pos (digits2_pos m)) - 1) with (Z.succ (Z.pos (digits2_pos m) - 1)) by lia.
    rewrite !Z.pow_succ_r by lia. lia.
  - simpl. lia.
Qed.

Lemma valid_finite (s : bool) (m : positive) (e : Z) :
  valid_binary (S754_finite s m e) = true ->
  -1074 <= e <= 971
  /\ Zpos (digits2_pos m) <= 53
  /\ (-1074 < e -> Zpos (digits2_pos m) = 53).
Proof.
  unfold SpecFloat.valid_binary, bounded, canonical_mantissa, fexp, emin, prec, emax.
  intros H. apply andb_true_iff in H. destruct H as [H1 H2].
  apply Z.eqb_eq in H1. apply Z.leb_le in H2. lia.
Qed.

Lemma magnitude_pos m e : -1074 <= e -> 0 < magnitude m e.
Proof.
  intros He. unfold magnitude.
  pose proof (Z.pow_pos_nonneg 2 (e + 1074)). lia.
Qed.

Lemma magnitude_bound s m e :
  valid_binary (S754_finite s m e) = true -> magnitude m e < 2 ^ 2100.
Proof.
  intros H. apply valid_finite in H. destruct H as (He & Hd & _).
  pose proof (digits2_bounds m) as [_ Hm].
  assert (Zpos m < 2 ^ 53).
  { eapply Z.lt_le_trans; [exact Hm|]. apply Z.pow_le_mono_r; lia. }
  assert (2 ^ (e + 1074) <= 2 ^ 2045) by (apply Z.pow_le_mono_r; lia).
  unfold magnitude.
  assert (0 < 2 ^ (e + 1074)) by (apply Z.pow_pos_nonneg; lia).
  apply Z.le_lt_trans with (Zpos m * 2 ^ 2045).
  - apply Z.mul_le_mono_nonneg_l; lia.
  - apply Z.lt_le_trans with (2 ^ 53 * 2 ^ 2045).
    + apply Z.mul_lt_mono_pos_r; [reflexivity | assumption].
    + rewrite <- Z.pow_add_r by lia. apply Z.pow_le_mono_r; lia.
Qed.

Lemma magnitude_compare s1 m1 e1 s2 m2 e2 :
  valid_binary (S754_finite s1 m1 e1) = true ->
  valid_binary (S754_finite s2 m2 e2) = true ->
  match e1 ?= e2 with
  | Lt => Lt
  | Gt => Gt
  | Eq => Pos.compare_cont Eq m1 m2
  end = (magnitude m1 e1 ?= magnitude m2 e2).
Proof.
  intros H1 H2.
  apply valid_finite in H1. destruct H1 as (He1 & Hd1 & Hn1).
  apply valid_finite in H2. destruct H2 as (He2 & Hd2 & Hn2).
  pose proof (digits2_bounds m1) as [Hl1 Hu1].
  pose proof (digits2_bounds m2) as [Hl2 Hu2].
  assert (Hlt : forall ma ea mb eb,
             -1074 <= ea -> ea < eb ->
             Zpos ma < 2 ^ 53 -> 2 ^ 52 <= Zpos mb ->
             magnitude ma ea < magnitude mb eb).
  { intros ma ea mb eb Hea Hab Ha Hb. unfold magnitude.
    replace (eb + 1074) with ((ea + 1074) + (eb - ea)) by lia.
    rewrite (Z.pow_add_r 2 (ea + 1074) (eb - ea)) by lia.
    assert (0 < 2 ^ (ea + 1074)) by (apply Z.pow_pos_nonneg; lia).
    assert (2 ^ 1 <= 2 ^ (eb - ea)) by (apply Z.pow_le_mono_r; lia).
    change (2 ^ 1) with 2 in *.
    assert (Hq : Zpos ma < Zpos mb * 2 ^ (eb - ea)).
    { apply Z.lt_le_trans with (2 ^ 52 * 2); [exact Ha|].
      apply Z.mul_le_mono_nonneg; lia. }
    replace (Zpos mb * (2 ^ (ea + 1074) * 2 ^ (eb - ea)))
      with (Zpos mb * 2 ^ (eb - ea) * 2 ^ (ea + 1074)) by ring.
    now apply Z.mul_lt_mono_pos_r. }
  assert (Hu : forall m, Zpos (digits2_pos m) <= 53 -> Zpos m < 2 ^ 53).
  { intros m Hd. pose proof (digits2_bounds m) as [_ Hm].
    eapply Z.lt_le_trans; [exact Hm|]. apply Z.pow_le_mono_r; lia. }
  assert (Hl : forall m, Zpos (digits2_pos m) = 53 -> 2 ^ 52 <= Zpos m).
  { intros m Hd. pose proof (digits2_bounds m) as [Hm _].
    rewrite Hd in Hm. exact Hm. }
  destruct (Z.compare_spec e1 e2) as [->|Hc|Hc].
  - unfold magnitude. 
    assert (0 < 2 ^ (e2 + 1074)) by (apply Z.pow_pos_nonneg; lia).
    change (Pos.compare_cont Eq m1 m2) with (Zpos m1 ?= Zpos m2).
    destruct (Z.compare_spec (Zpos m1) (Zpos m2)) as [E|E|E]; symmetry.
    + apply Z.compare_eq_iff. now rewrite E.
    + apply Z.compare_lt_iff. nia.
    + apply Z.compare_gt_iff. nia.
  - symmetry. apply Z.compare_lt_iff. apply Hlt; try lia; auto. apply Hl. apply Hn2. lia.
  - symmetry. apply Z.compare_gt_iff. apply Hlt; try lia; auto. apply Hl. apply Hn1. lia.
Qed.

Lemma SFcompare_scaled (x y : spec_float) :
  valid_binary x = true -> valid_binary y = true ->
  x <> S754_nan -> y <> S754_nan ->
  SFcompare x y = Some (scaled x ?= scaled y).
Proof.
  intros Vx Vy Nx Ny.
  destruct x as [sx|sx| |sx mx ex], y as [sy|sy| |sy my ey]; try congruence;
    cbn [SFcompare scaled].
  - reflexivity.
  - destruct sy; reflexivity.
  - pose proof (@valid_finite _ _ _ Vy) as (He & _).
    pose proof (@magnitude_pos my ey ltac:(lia)). fold (magnitude my ey).
    destruct sy; f_equal; symmetry;
      [apply Z.compare_gt_iff | apply Z.compare_lt_iff]; lia.
  - destruct sx; reflexivity.
  - destruct sx, sy; reflexivity.
  - pose proof (@valid_finite _ _ _ Vy) as (He & _).
    pose proof (@magnitude_pos my ey ltac:(lia)).
    pose proof (@magnitude_bound _ _ _ Vy). fold (magnitude my ey).
    destruct sx, sy; f_equal; symmetry;
      try (apply Z.compare_gt_iff; lia); try (apply Z.compare_lt_iff; lia).
  - pose proof (@valid_finite _ _ _ Vx) as (He & _).
    pose proof (@magnitude_pos mx ex ltac:(lia)). fold (magnitude mx ex).
    destruct sx; f_equal; symmetry;
      [apply Z.compare_lt_iff | apply Z.compare_gt_iff]; lia.
  - pose proof (@valid_finite _ _ _ Vx) as (He & _).
    pose proof (@magnitude_pos mx ex ltac:(lia)).
    pose proof (@magnitude_bound _ _ _ Vx). fold (magnitude mx ex).
    destruct sx, sy; f_equal; symmetry;
      try (apply Z.compare_gt_iff; lia); try (apply Z.compare_lt_iff; lia).
  - pose proof (@valid_finite _ _ _ Vx) as (Hex & _).
    pose proof (@valid_finite _ _ _ Vy) as (Hey & _).
    pose proof (@magnitude_pos mx ex ltac:(lia)).
    pose proof (@magnitude_pos my ey ltac:(lia)).
    fold (magnitude mx ex). fold (magnitude my ey).
    destruct sx, sy; f_equal.
    + rewrite Z.compare_opp.
      rewrite <- (@magnitude_compare _ _ _ _ _ _ Vy Vx).
      rewrite (Z.compare_antisym ey ex).
      destruct (ey ?= ex) eqn:E; simpl; try reflexivity.
      rewrite Pos.compare_cont_antisym. reflexivity.
    + symmetry. apply Z.compare_lt_iff. lia.
    + symmetry. apply Z.compare_gt_iff. lia.
    + apply (@magnitude_compare _ _ _ _ _ _ Vx Vy).
Qed.

Lemma iter_xO (m d : positive) :
  Zpos (Pos.iter xO m d) = Zpos m * 2 ^ Zpos d.
Proof.
  induction d as [|d IH] using Pos.peano_ind.
  - simpl. lia.
  - rewrite Pos.iter_succ, Pos2Z.inj_succ, Z.pow_succ_r by lia.
    rewrite Pos2Z.inj_xO, IH. ring.
Qed.

Lemma shl_align_value (m : positive) (e ez : Z) :
  ez <= e ->
  Zpos (fst (shl_align m e ez)) = Zpos m * 2 ^ (e - ez).
Proof.
  intros He. unfold shl_align.
  destruct (ez - e) as [|d|d] eqn:Hd; try lia.
  - replace (e - ez) with 0 by lia. simpl. lia.
  - cbn [fst]. rewrite iter_xO. f_equal. f_equal. lia.
Qed.

Lemma shl_align_exponent (m : positive) (e e' : Z) :
  -1074 <= e -> -1074 <= e' -> -1074 <= snd (shl_align m e e').
Proof.
  intros He He'. unfold shl_align. destruct (e' - e); simpl; lia.
Qed.

Lemma shr_1_m (mrs : shr_record) :
  0 <= shr_m mrs -> shr_m (shr_1 mrs) = shr_m mrs / 2.
Proof.
  destruct mrs as [m r s]. cbn [shr_m]. intros Hm.
  destruct m as [|[p|p|]|p]; try lia; cbn [shr_1 shr_m].
  - reflexivity.
  - rewrite Pos2Z.inj_xI. apply Z.div_unique with 1; lia.
  - rewrite Pos2Z.inj_xO. apply Z.div_unique with 0; lia.
  - reflexivity.
Qed.

Lemma iter_shr_1_m (p : positive) :
  forall mrs, 0 <= shr_m mrs ->
    shr_m (iter_pos shr_1 p mrs) = shr_m mrs / 2 ^ Zpos p.
Proof.
  assert (Hnn : forall mrs, 0 <= shr_m mrs -> 0 <= shr_m mrs / 2).
  { intros. apply Z.div_pos; lia. }
  induction p as [p IH|p IH|]; intros mrs Hm; cbn [iter_pos].
  - assert (H1 : 0 <= shr_m (shr_1 mrs)) by (rewrite shr_1_m; auto).
    assert (H2 : 0 <= shr_m (iter_pos shr_1 p (shr_1 mrs))).
    { rewrite IH by exact H1. apply Z.div_pos; [exact H1|].
      apply Z.pow_pos_nonneg; lia. }
    rewrite IH by exact H2. rewrite IH by exact H1. rewrite shr_1_m by exact Hm.
    rewrite !Z.div_div
      by (first [apply Z.pow_nonzero; lia | apply Z.pow_pos_nonneg; lia | lia]).
    f_equal. rewrite Pos2Z.inj_xI.
    rewrite Z.pow_add_r, Z.pow_mul_r by lia.
    change (2 ^ 2) with 4. change (2 ^ 1) with 2.
    replace (4 ^ Zpos p) with (2 ^ Zpos p * 2 ^ Zpos p).
    + ring.
    + rewrite <- Z.pow_add_r by lia. replace (Zpos p + Zpos p) with (2 * Zpos p) by lia.
      now rewrite Z.pow_mul_r by lia.
  - assert (H2 : 0 <= shr_m (iter_pos shr_1 p mrs)).
    { rewrite IH by exact Hm. apply Z.div_pos; [exact Hm|].
      apply Z.pow_pos_nonneg; lia. }
    rewrite IH by exact H2. rewrite IH by exact Hm.
    rewrite Z.div_div
      by (first [apply Z.pow_nonzero; lia | apply Z.pow_pos_nonneg; lia | lia]).
    f_equal. rewrite Pos2Z.inj_xO.
    rewrite <- Z.pow_add_r by lia. f_equal. lia.
  - rewrite shr_1_m by exact Hm. reflexivity.
Qed.

Lemma shr_record_of_loc_m (m : Z) (l : location) :
  shr_m (shr_record_of_loc m l) = m.
Proof. destruct l as [|[| |]]; reflexivity. Qed.

Lemma shr_fexp_positive (m : positive) (e : Z) (l : location) :
  -1074 <= e ->
  0 < shr_m (fst (shr_fexp prec emax (Zpos m) e l))
  /\ -1074 <= snd (shr_fexp prec emax (Zpos m) e l).
Proof.
  intros He. unfold shr_fexp, shr, fexp, emin, prec, emax. cbn [Zdigits2].
  pose proof (digits2_bounds m) as [Hl Hu].
  set (d := Zpos (digits2_pos m)) in *.
  destruct (Z.max (d + e - 53) (3 - 1024 - 53) - e) as [|n|n] eqn:Hn;
    cbn [fst snd]; rewrite ?shr_record_of_loc_m; try lia.
  rewrite iter_shr_1_m by (rewrite shr_record_of_loc_m; lia).
  rewrite shr_record_of_loc_m. split; [|lia].
  assert (Hdn : Zpos n = d - 53) by lia.
  apply Z.div_str_pos. split; [apply Z.pow_pos_nonneg; lia|].
  apply Z.le_trans with (2 ^ (d - 1)); [|exact Hl].
  apply Z.pow_le_mono_r; lia.
Qed.

Lemma round_nearest_even_positive (m : Z) (l : location) :
  0 < m -> 0 < round_nearest_even m l.
Proof.
  intros Hm. destruct l as [|[| |]]; cbn [round_nearest_even]; try lia.
  destruct (Z.even m); lia.
Qed.

(** Rounding a positive magnitude never gives a zero or NaN. *)
Lemma binary_round_aux_positive (s : bool) (m : positive) (e : Z) (l : location) :
  -1074 <= e ->
  (exists m' e', binary_round_aux prec emax s (Zpos m) e l = S754_finite s m' e')
  \/ binary_round_aux prec emax s (Zpos m) e l = S754_infinity s.
Proof.
  intros He. unfold binary_round_aux.
  pose proof (@shr_fexp_positive m e l He) as [H1 H1e].
  destruct (shr_fexp prec emax (Zpos m) e l) as [mrs' e'].
  cbn [fst snd] in H1, H1e.
  pose proof (@round_nearest_even_positive _ (loc_of_shr_record mrs') H1) as Hr.
  destruct (round_nearest_even (shr_m mrs') (loc_of_shr_record mrs'))
    as [|m1|m1]; try lia.
  pose proof (@shr_fexp_positive m1 e' loc_Exact H1e) as [H2 _].
  destruct (shr_fexp prec emax (Zpos m1) e' loc_Exact) as [mrs'' e''].
  cbn [fst] in H2.
  destruct (shr_m mrs'') as [|m2|m2]; try lia.
  destruct (Z.leb e'' (emax - prec)); eauto.
Qed.

Lemma binary_round_positive (s : bool) (m : positive) (e : Z) :
  -1074 <= e ->
  (exists m' e', binary_round prec emax s m e = S754_finite s m' e')
  \/ binary_round prec emax s m e = S754_infinity s.
Proof.
  intros He. unfold binary_round.
  pose proof (@shl_align_exponent m e
                (fexp prec emax (Zpos (digits2_pos m) + e)) He) as Hs.
  destruct (shl_align m e (fexp prec emax (Zpos (digits2_pos m) + e)))
    as [mz ez].
  apply binary_round_aux_positive. apply Hs.
  unfold fexp, emin, prec, emax. lia.
Qed.

(** Whatever is rounded with a negative sign is not above zero. *)
Lemma binary_round_negative (m : positive) (e : Z) :
  SFltb (S754_zero false) (binary_round prec emax true m e) = false.
Proof.
  unfold binary_round, binary_round_aux.
  destruct (shl_align _ _ _) as [mz ez].
  destruct (shr_fexp _ _ _ _ _) as [mrs' e'].
  destruct (shr_fexp _ _ _ _ _) as [mrs'' e''].
  destruct (shr_m mrs''); try reflexivity.
  destruct (Z.leb _ _); reflexivity.
Qed.

Lemma cond_Zopp_scaled (s : bool) (m : positive) (e ez : Z) :
  -1074 <= ez -> ez <= e ->
  cond_Zopp s (Zpos (fst (shl_align m e ez))) * 2 ^ (ez + 1074)
  = scaled (S754_finite s m e).
Proof.
  intros Hz He. rewrite shl_align_value by exact He.
  cbn [scaled]. unfold magnitude.
  replace (e + 1074) with ((e - ez) + (ez + 1074)) by lia.
  rewrite (Z.pow_add_r 2 (e - ez) (ez + 1074)) by lia.
  destruct s; cbn [cond_Zopp]; ring.
Qed.

(** The sign of a difference: [y - x] is above zero exactly when [x] is
    below [y]. *)
Lemma SFsub_sign (x y : spec_float) :
  valid_binary x = true -> valid_binary y = true ->
  x <> S754_nan -> y <> S754_nan ->
  SFltb (S754_zero false) (SF64sub y x) = (scaled x <? scaled y).
Proof.
  intros Vx Vy Nx Ny. unfold SF64sub.
  destruct x as [sx|sx| |sx mx ex], y as [sy|sy| |sy my ey]; try congruence;
    cbn [SFsub scaled].
  - destruct sx, sy; reflexivity.
  - destruct sy; reflexivity.
  - pose proof (@valid_finite _ _ _ Vy) as (He & _).
    pose proof (@magnitude_pos my ey ltac:(lia)). fold (magnitude my ey).
    destruct sy; cbn [SFltb SFcompare]; symmetry;
      [apply Z.ltb_ge | apply Z.ltb_lt]; lia.
  - destruct sx, sy; reflexivity.
  - destruct sx, sy; reflexivity.
  - pose proof (@valid_finite _ _ _ Vy) as (He & _).
    pose proof (@magnitude_pos my ey ltac:(lia)).
    pose proof (@magnitude_bound _ _ _ Vy). fold (magnitude my ey).
    destruct sx, sy; cbn [SFltb SFcompare negb]; symmetry;
      try (apply Z.ltb_ge; lia); try (apply Z.ltb_lt; lia).
  - pose proof (@valid_finite _ _ _ Vx) as (He & _).
    pose proof (@magnitude_pos mx ex ltac:(lia)). fold (magnitude mx ex).
    destruct sx; cbn [SFltb SFcompare negb]; symmetry;
      [apply Z.ltb_lt | apply Z.ltb_ge]; lia.
  - pose proof (@valid_finite _ _ _ Vx) as (He & _).
    pose proof (@magnitude_pos mx ex ltac:(lia)).
    pose proof (@magnitude_bound _ _ _ Vx). fold (magnitude mx ex).
    destruct sx, sy; cbn [SFltb SFcompare negb]; symmetry;
      try (apply Z.ltb_ge; lia); try (apply Z.ltb_lt; lia).
  - pose proof (@valid_finite _ _ _ Vx) as (Hex & _).
    pose proof (@valid_finite _ _ _ Vy) as (Hey & _).
    set (ez := Z.min ey ex).
    assert (Hz : -1074 <= ez) by (unfold ez; lia).
    pose proof (@cond_Zopp_scaled sx mx ex ez Hz ltac:(unfold ez; lia)) as Hx.
    pose proof (@cond_Zopp_scaled sy my ey ez Hz ltac:(unfold ez; lia)) as Hy.
    cbn [scaled] in Hx, Hy.
    set (X := if sx then _ else _) in *.
    set (Y := if sy then _ else _) in *.
    set (D := cond_Zopp sy _ - cond_Zopp sx _).
    assert (HD : D * 2 ^ (ez + 1074) = Y - X).
    { unfold D. rewrite Z.mul_sub_distr_r. now rewrite Hx, Hy. }
    assert (Hp : 0 < 2 ^ (ez + 1074)) by (apply Z.pow_pos_nonneg; lia).
    unfold binary_normalize.
    destruct D as [|d|d].
    + symmetry. apply Z.ltb_ge. lia.
    + destruct (@binary_round_positive false d ez Hz) as [(m' & e' & ->)| ->];
        cbn [SFltb SFcompare]; symmetry; apply Z.ltb_lt; nia.
    + rewrite binary_round_negative. symmetry. apply Z.ltb_ge. nia.
Qed.

End Binary64.

Lemma Prim2SF_zero : Prim2SF 0%float = S754_zero false.
Proof. reflexivity. Qed.

Lemma not_nan_spec (x : float) :
  PrimFloat.is_nan x = false -> Prim2SF x <> S754_nan.
Proof.
  unfold PrimFloat.is_nan. rewrite eqb_spec. intros H E.
  rewrite E in H. discriminate H.
Qed.

Lemma compare_exact (a b : float) :
  PrimFloat.is_nan a = false -> PrimFloat.is_nan b = false ->
  SFcompare (Prim2SF a) (Prim2SF b)
  = Some (exact_value a ?= exact_value b)%Z.
Proof.
  intros Ha Hb. apply SFcompare_scaled; auto using Prim2SF_valid, not_nan_spec.
Qed.

Lemma ltb_exact (a b : float) :
  PrimFloat.is_nan a = false -> PrimFloat.is_nan b = false ->
  (a <? b)%float = (exact_value a <? exact_value b)%Z.
Proof.
  intros Ha Hb. rewrite ltb_spec. unfold SFltb, Z.ltb.
  now rewrite (compare_exact a b Ha Hb).
Qed.


Lemma eqb_exact (a b : float) :
  PrimFloat.is_nan a = false -> PrimFloat.is_nan b = false ->
  (a =? b)%float = (exact_value a =? exact_value b)%Z.
Proof.
  intros Ha Hb. rewrite eqb_spec, Z.eqb_compare. unfold SFeqb.
  now rewrite (compare_exact a b Ha Hb).
Qed.


(** [b - a > 0] exactly when [a < b]. *)
Lemma sub_sign (a b : float) :
  PrimFloat.is_nan a = false -> PrimFloat.is_nan b = false ->
  (0 <? b - a)%float = (exact_value a <? exact_value b)%Z.
Proof.
  intros Ha Hb. rewrite ltb_spec, sub_spec, Prim2SF_zero.
  apply SFsub_sign; auto using Prim2SF_valid, not_nan_spec.
Qed.

(* ------------------------------------------------------------------ *)
(** ** The sort *)

Section SortFacts.
Variable A : Type.
Variable comparefn : A -> A -> float.

(** A key the comparison function is consistent with, on the elements
    that satisfy [P]: [x] has to come after [e] exactly when its key is
    smaller. *)
Variable key : A -> Z.
Variable P : A -> Prop.
Hypothesis consistent :
  forall x e, P x -> P e -> comes_after comparefn x e = (key x <? key e)%Z.

Lemma insert_permutation (x : A) (l : list A) :
  Permutation (insert comparefn x l) (x :: l).
Proof.
  induction l as [|e l IH]; simpl; [reflexivity|].
  destruct (comes_after comparefn x e); [|reflexivity].
  rewrite IH. apply perm_swap.
Qed.

Lemma sort_permutation (l : list A) : Permutation (sort comparefn l) l.
Proof.
  induction l as [|x l IH]; simpl; [reflexivity|].
  rewrite insert_permutation. now constructor.
Qed.






End SortFacts.









(** [formatResults] leaves every array it was given as it found it: the
    two arrays it creates are added to the store, and the sort changes the
    second of them only. *)
Lemma formatResults_keeps_the_store (W : World) (st : store)
    (results : array_ref) (text : jsstring) (r : array_ref) :
  r < length st ->
  read (fst (Roosearch.formatResults W st results text)) r = read st r.
Proof.
  intros Hr. rewrite Roosearch_formatResults_spec.
  destruct (read st results); cbn [fst]; [reflexivity|].
  unfold read. now apply app_nth1.
Qed.




(** Two results of the same score keep their input order: the order of
    the blocks is then descending, and not strictly. *)
Lemma equal_scores_keep_their_order :
  let results := [Examples.result_with_score (lit "a") 0.5%float;
                  Examples.result_with_score (lit "b") 0.5%float] in
  results <> []
  /\ no_NaN results
  /\ sort Roosearch.by_score results = results
  /\ ~ strictly_descending (sort Roosearch.by_score results).
Proof.
  intros results. split; [discriminate|]. split; [repeat constructor|].
  split; [reflexivity|].
  intros H. change (sort Roosearch.by_score results) with results in H.
  inversion H as [|? ? _ Hall]; subst.
  inversion Hall as [|? ? Hlt _]; subst.
  discriminate Hlt.
Qed.


(* ================================================================== *)
(** * Further properties of the two source files *)

(* ------------------------------------------------------------------ *)
(** ** The embedding call *)

Lemma embedding_failure_outcome (W : World) (text : jsstring) :
  embedding_outcome W text =
  match embedding_failure W text with
  | Some cause =>
    Thrown (ErrorObject (lit "Embedding creation failed: "
                           ++ message_or_unknown cause))
  | None =>
    match fetch W embed_url (embed_init text) with
    | Returned response => Response.json response
    | Thrown error => Thrown error
    end
  end.
Proof.
  unfold embedding_outcome, embedding_failure.
  destruct (fetch W embed_url (embed_init text)) as [response|error];
    [|reflexivity].
  destruct (Response.ok response); [|reflexivity].
  destruct (Response.json response); reflexivity.
Qed.

Lemma embedding_failure_none (W : World) (text : jsstring) :
  embedding_failure W text = None ->
  exists response data,
    fetch W embed_url (embed_init text) = Returned response
    /\ Response.ok response = true
    /\ Response.json response = Returned data
    /\ embedding_outcome W text = Returned data.
Proof.
  unfold embedding_failure, embedding_outcome.
  destruct (fetch W embed_url (embed_init text)) as [response|error];
    [|discriminate].
  destruct (Response.ok response) eqn:Hok; [|discriminate].
  destruct (Response.json response) as [data|error] eqn:Hjson; [|discriminate].
  intros _. exists response, data. repeat split; assumption.
Qed.

(** X1. Every way the embedding call can fail ends in the same kind of
    exception, in both source files: whether [fetch] rejects, the status is
    not a success or the body cannot be parsed, [createEmbeddings] throws
    an Error whose message is [Embedding creation failed: ] followed by the
    message of the cause ([Unknown error] when the cause is not an Error).
    It returns only when the service answered with a success status and a
    body that parses, and then it returns that body. *)
Theorem X1_createEmbeddings_wraps_every_failure (W : World) (text : jsstring) :
  match embedding_failure W text with
  | Some cause =>
    result (Roosearch.createEmbeddings W text)
    = Thrown (ErrorObject (lit "Embedding creation failed: "
                             ++ message_or_unknown cause))
    /\ result (Part000.createEmbeddings W text)
       = result (Roosearch.createEmbeddings W text)
  | None =>
    exists response data,
      fetch W embed_url (embed_init text) = Returned response
      /\ Response.ok response = true
      /\ Response.json response = Returned data
      /\ result (Roosearch.createEmbeddings W text) = Returned data
      /\ result (Part000.createEmbeddings W text) = Returned data
  end.
Proof.
  rewrite Roosearch_createEmbeddings_result, Part000_createEmbeddings_result.
  destruct (embedding_failure W text) as [cause|] eqn:Hf.
  - rewrite embedding_failure_outcome, Hf. auto.
  - destruct (embedding_failure_none W text Hf)
      as (response & data & H1 & H2 & H3 & H4).
    exists response, data. repeat split; assumption.
Qed.

Lemma Roosearch_createEmbeddings_trace (W : World) (text : jsstring) :
  trace (Roosearch.createEmbeddings W text)
  = Fetch embed_url (embed_init text)
    :: match embedding_failure W text with
       | Some cause => [ConsoleError (lit "Embedding creation failed:") cause]
       | None => []
       end.
Proof.
  unfold Roosearch.createEmbeddings, embedding_failure; simpl.
  change (fetch W (lit "http://localhost:11434/api/embed")
            {| method := lit "POST";
               headers := [(lit "Content-Type", lit "application/json")];
               body := {| model := lit "nomic-embed-text"; input := text |} |})
    with (fetch W embed_url (embed_init text)).
  destruct (fetch W embed_url (embed_init text)) as [response|error];
    [|reflexivity].
  destruct response as [ok statusText [data|error]]; destruct ok; reflexivity.
Qed.

(** X2. One call of [createEmbeddings] makes exactly one request, whatever
    the outcome (no retry): a POST to the embedding endpoint with the JSON
    content type, the model name and the text as given. The plugin writes
    one console diagnostic, carrying the cause, exactly when the call
    fails; the stand-alone tool writes none. *)
Theorem X2_createEmbeddings_makes_one_request (W : World) (text : jsstring) :
  trace (Roosearch.createEmbeddings W text)
  = Fetch (lit "http://localhost:11434/api/embed")
          {| method := lit "POST";
             headers := [(lit "Content-Type", lit "application/json")];
             body := {| model := lit "nomic-embed-text"; input := text |} |}
    :: match embedding_failure W text with
       | Some cause => [ConsoleError (lit "Embedding creation failed:") cause]
       | None => []
       end
  /\ trace (Part000.createEmbeddings W text)
     = network_calls (trace (Roosearch.createEmbeddings W text)).
Proof.
  rewrite Roosearch_createEmbeddings_calls, Part000_createEmbeddings_trace.
  split; [apply Roosearch_createEmbeddings_trace | reflexivity].
Qed.

(* ------------------------------------------------------------------ *)
(** ** The search *)

Lemma first_embedding_cases (W : World) (embedding : EmbeddingResponse.t) :
  Roosearch.first_embedding W embedding =
  match EmbeddingResponse.embeddings embedding with
  | None => Thrown (ErrorObject (TypeError_message W IndexOfUndefined))
  | Some vectors => Returned (first_or_undefined vectors)
  end.
Proof.
  unfold Roosearch.first_embedding.
  destruct (EmbeddingResponse.embeddings embedding) as [[|v vs]|]; reflexivity.
Qed.

Lemma Roosearch_searchQdrant_cases (W : World)
    (embedding : EmbeddingResponse.t) (workspacePath : jsstring) :
  Roosearch.searchQdrant W embedding workspacePath =
  match Roosearch.first_embedding W embedding with
  | Thrown error => ([], Thrown error)
  | Returned vector =>
    ([Query (Roosearch.getWorkspaceVectorStoreName workspacePath)
            (request_for vector)],
     match qdrant_query W (Roosearch.getWorkspaceVectorStoreName workspacePath)
             (request_for vector) with
     | Returned operationResult =>
       Returned (QueryResponse.points operationResult)
     | Thrown error =>
       Thrown (ErrorObject (lit "Search operation failed: "
                              ++ message_or_unknown error))
     end)
  end.
Proof.
  rewrite (surjective_pairing (Roosearch.searchQdrant W embedding workspacePath)).
  change (fst (Roosearch.searchQdrant W embedding workspacePath))
    with (trace (Roosearch.searchQdrant W embedding workspacePath)).
  change (snd (Roosearch.searchQdrant W embedding workspacePath))
    with (result (Roosearch.searchQdrant W embedding workspacePath)).
  rewrite Roosearch_searchQdrant_trace, Roosearch_searchQdrant_result.
  unfold search_outcome.
  destruct (Roosearch.first_embedding W embedding); reflexivity.
Qed.

Lemma Part000_searchQdrant_cases (W : World) (embedding : EmbeddingResponse.t) :
  Part000.searchQdrant W embedding =
  match Roosearch.first_embedding W embedding with
  | Thrown error => ([], Thrown error)
  | Returned vector =>
    ([Query fixed_collection (request_for vector)],
     match qdrant_query W fixed_collection (request_for vector) with
     | Returned operationResult =>
       Returned (QueryResponse.points operationResult)
     | Thrown error =>
       Thrown (ErrorObject (lit "Search operation failed: "
                              ++ message_or_unknown error))
     end)
  end.
Proof.
  rewrite (surjective_pairing (Part000.searchQdrant W embedding)).
  change (fst (Part000.searchQdrant W embedding))
    with (trace (Part000.searchQdrant W embedding)).
  change (snd (Part000.searchQdrant W embedding))
    with (result (Part000.searchQdrant W embedding)).
  rewrite Part000_searchQdrant_trace, Part000_searchQdrant_result.
  unfold search_outcome.
  destruct (Roosearch.first_embedding W embedding); reflexivity.
Qed.

(** X3. What [searchQdrant] does with the embedding response, in both
    source files. Without an [embeddings] key nothing is sent to the
    database and the runtime's TypeError leaves the function as it is, not
    wrapped as a search failure. Otherwise exactly one query is sent, to
    the workspace's collection (the fixed one in the stand-alone tool),
    with [embeddings[0]] as vector ([undefined] for an empty [embeddings])
    and with parameters that never vary: threshold 0.40, limit 50,
    [hnsw_ef] 128, not exact, and the five payload keys. The points of the
    answer are returned as they are, and a rejection becomes an Error
    [Search operation failed: ] followed by the cause's message. *)
Theorem X3_searchQdrant_by_cases (W : World)
    (embedding : EmbeddingResponse.t) (workspacePath : jsstring) :
  match EmbeddingResponse.embeddings embedding with
  | None =>
    Roosearch.searchQdrant W embedding workspacePath
    = ([], Thrown (ErrorObject (TypeError_message W IndexOfUndefined)))
    /\ Part000.searchQdrant W embedding
       = ([], Thrown (ErrorObject (TypeError_message W IndexOfUndefined)))
  | Some vectors =>
    let request := {|
      query := first_or_undefined vectors;
      filter := tt;
      score_threshold := 0.40%float;
      limit := 50;
      params := {| hnsw_ef := 128; exact := false |};
      with_payload_include :=
        [lit "filePath"; lit "codeChunk"; lit "startLine"; lit "endLine";
         lit "pathSegments"] |} in
    let answer collection :=
      match qdrant_query W collection request with
      | Returned operationResult =>
        Returned (QueryResponse.points operationResult)
      | Thrown error =>
        Thrown (ErrorObject (lit "Search operation failed: "
                               ++ message_or_unknown error))
      end in
    Roosearch.searchQdrant W embedding workspacePath
    = ([Query (Roosearch.getWorkspaceVectorStoreName workspacePath) request],
       answer (Roosearch.getWorkspaceVectorStoreName workspacePath))
    /\ Part000.searchQdrant W embedding
       = ([Query (lit "ws-e9be3207f7247f18") request],
          answer (lit "ws-e9be3207f7247f18"))
  end.
Proof.
  rewrite Roosearch_searchQdrant_cases, Part000_searchQdrant_cases,
    first_embedding_cases.
  destruct (EmbeddingResponse.embeddings embedding) as [vectors|];
    split; reflexivity.
Qed.

(* ------------------------------------------------------------------ *)
(** ** How the stages after the search end *)

Lemma transformResults_throws (W : World)
    (points : list VectorStoreSearchResult.t) :
  forallb chunk_is_string (List.filter keeps points) = false ->
  Roosearch.transformResults W (PointsArray points)
  = Thrown (ErrorObject (TypeError_message W TrimNotAFunction)).
Proof.
  rewrite transformResults_array.
  pose proof (filter_keeps_all points) as Hkept.
  induction Hkept as [|point kept Hpoint _ IH]; [discriminate|].
  cbn [forallb map_outcome].
  destruct (chunk_is_string point) eqn:Hstring.
  - destruct (keeps_transformSearchResult W point Hpoint Hstring) as (n & ->).
    cbn [andb]. intros Hrest. specialize (IH Hrest).
    destruct (map_outcome (Roosearch.transformSearchResult W) kept)
      as [mapped|error]; [discriminate IH | exact IH].
  - intros _.
    now rewrite (kept_point_without_string_chunk W point Hpoint Hstring).
Qed.

Lemma transformResults_returns (W : World)
    (points : list VectorStoreSearchResult.t) :
  forallb chunk_is_string (List.filter keeps points) = true ->
  exists normalized,
    Roosearch.transformResults W (PointsArray points) = Returned normalized
    /\ Forall2 (fun point n =>
                  Roosearch.transformSearchResult W point = Returned (Some n))
               (List.filter keeps points) normalized.
Proof.
  intros Hs.
  destruct (transformResults_spec W points) as (normalized & Hret & _ & Hall).
  - intros point Hin Hk. rewrite forallb_forall in Hs. apply Hs.
    apply filter_In. now split.
  - exists normalized. now split.
Qed.

Lemma has_string_form_rendered (W : World) (v : jsval) :
  has_string_form v = true -> exists shown, template_value W v = Returned shown.
Proof. destruct v as [| |b|x|s|[shown|]]; try discriminate; eexists; reflexivity. Qed.

Lemma no_string_form_thrown (W : World) (v : jsval) :
  has_string_form v = false ->
  template_value W v
  = Thrown (ErrorObject (TypeError_message W ObjectToPrimitive)).
Proof. destruct v as [| |b|x|s|[shown|]]; try discriminate; reflexivity. Qed.

Lemma formatSearchResult_rendered (W : World) (r : SearchResult.t) :
  can_be_rendered r = true ->
  exists rendered, Roosearch.formatSearchResult W r = Returned rendered.
Proof.
  unfold can_be_rendered, Roosearch.formatSearchResult. intros H.
  apply andb_prop in H as [H Hlast]. apply andb_prop in H as [Hpath Hfirst].
  destruct (has_string_form_rendered W _ Hpath) as (path & ->).
  destruct (has_string_form_rendered W _ Hfirst) as (first & ->).
  destruct (has_string_form_rendered W _ Hlast) as (last & ->).
  eexists. reflexivity.
Qed.

Lemma formatSearchResult_not_rendered (W : World) (r : SearchResult.t) :
  can_be_rendered r = false ->
  Roosearch.formatSearchResult W r
  = Thrown (ErrorObject (TypeError_message W ObjectToPrimitive)).
Proof.
  unfold can_be_rendered, Roosearch.formatSearchResult. intros H.
  destruct (has_string_form (SearchResult.filePath r)) eqn:Hpath.
  - destruct (has_string_form_rendered W _ Hpath) as (path & ->).
    cbn [and_then].
    destruct (has_string_form (read_key (SearchResult.startLine r)))
      eqn:Hfirst.
    + destruct (has_string_form_rendered W _ Hfirst) as (first & ->).
      cbn [and_then]. cbn [andb] in H.
      now rewrite (no_string_form_thrown W _ H).
    + now rewrite (no_string_form_thrown W _ Hfirst).
  - now rewrite (no_string_form_thrown W _ Hpath).
Qed.

Lemma blocks_rendered (W : World) (results : list SearchResult.t) :
  forallb can_be_rendered results = true ->
  exists blocks,
    map_outcome (Roosearch.formatSearchResult W) results = Returned blocks
    /\ Forall2 (fun r rendered =>
                  Roosearch.formatSearchResult W r = Returned rendered)
               results blocks.
Proof.
  induction results as [|r results IH]; cbn [forallb map_outcome]; intros H.
  - exists []. split; [reflexivity | constructor].
  - apply andb_prop in H as [Hr Hrest].
    destruct (formatSearchResult_rendered W r Hr) as (rendered & Hrendered).
    destruct (IH Hrest) as (blocks & Hblocks & Hall).
    exists (rendered :: blocks). rewrite Hrendered, Hblocks.
    split; [reflexivity | now constructor].
Qed.

Lemma blocks_not_rendered (W : World) (results : list SearchResult.t) :
  forallb can_be_rendered results = false ->
  map_outcome (Roosearch.formatSearchResult W) results
  = Thrown (ErrorObject (TypeError_message W ObjectToPrimitive)).
Proof.
  induction results as [|r results IH]; cbn [forallb map_outcome];
    [discriminate|].
  destruct (can_be_rendered r) eqn:Hr.
  - destruct (formatSearchResult_rendered W r Hr) as (rendered & ->).
    cbn [andb]. intros Hrest. now rewrite (IH Hrest).
  - intros _. now rewrite (formatSearchResult_not_rendered W r Hr).
Qed.

Lemma forallb_permutation {A : Type} (f : A -> bool) (l l' : list A) :
  Permutation l l' -> forallb f l = forallb f l'.
Proof.
  induction 1 as [|x l l' _ IH|x y l|l l' l'' _ IH1 _ IH2]; cbn [forallb].
  - reflexivity.
  - now rewrite IH.
  - now rewrite !andb_assoc, (andb_comm (f y)).
  - now rewrite IH1.
Qed.

Lemma format_fresh_not_rendered (W : World) (results : list SearchResult.t)
    (query : jsstring) :
  forallb can_be_rendered results = false ->
  Roosearch.format_fresh W results query
  = Thrown (ErrorObject (TypeError_message W ObjectToPrimitive)).
Proof.
  intros H. rewrite Roosearch_format_fresh_spec.
  destruct results as [|r results]; [discriminate H|].
  rewrite blocks_not_rendered; [reflexivity|].
  now rewrite (forallb_permutation _
                 (sort_permutation Roosearch.by_score (r :: results))).
Qed.

Lemma format_fresh_rendered (W : World) (results : list SearchResult.t)
    (query : jsstring) :
  forallb can_be_rendered results = true ->
  exists text, Roosearch.format_fresh W results query = Returned text.
Proof.
  intros H. rewrite Roosearch_format_fresh_spec.
  destruct results as [|r results]; [eexists; reflexivity|].
  destruct (blocks_rendered W (sort Roosearch.by_score (r :: results)))
    as (blocks & -> & _).
  - now rewrite (forallb_permutation _
                   (sort_permutation Roosearch.by_score (r :: results))).
  - eexists. reflexivity.
Qed.

(* ------------------------------------------------------------------ *)
(** ** The pipeline, by what happened *)

Lemma text_after_search (W : World) (query : jsstring) (points : points_slot) :
  output_after_search W query points
    match Roosearch.transformResults W points with
    | Thrown error => error_prefix ++ message_or_unknown error
    | Returned normalized =>
      match Roosearch.format_fresh W normalized query with
      | Thrown error => error_prefix ++ message_or_unknown error
      | Returned text => text
      end
    end.
Proof.
  destruct points as [| | |points]; try reflexivity.
  unfold output_after_search.
  destruct (forallb chunk_is_string (List.filter keeps points)) eqn:Hs.
  - destruct (transformResults_returns W points Hs)
      as (normalized & -> & Hall).
    exists normalized. split; [exact Hall|].
    destruct (forallb can_be_rendered normalized) eqn:Hr.
    + destruct (format_fresh_rendered W normalized query Hr) as (text & ->).
      reflexivity.
    + now rewrite (format_fresh_not_rendered W normalized query Hr).
  - now rewrite (transformResults_throws W points Hs).
Qed.

Lemma pipeline_text_by_cause (W : World) (collection query : jsstring) :
  output_by_cause W collection query (pipeline_text W collection query).
Proof.
  unfold output_by_cause, pipeline_text.
  rewrite embedding_failure_outcome.
  destruct (embedding_failure W query) as [cause|] eqn:Hf; [reflexivity|].
  destruct (embedding_failure_none W query Hf)
    as (response & data & Hfetch & Hok & Hjson & Hout).
  rewrite Hfetch, Hjson. exists data. split; [first [exact Hout | reflexivity]|].
  unfold search_outcome. rewrite first_embedding_cases.
  destruct (EmbeddingResponse.embeddings data) as [vectors|]; [|reflexivity].
  destruct (qdrant_query W collection _) as [operationResult|error];
    [|reflexivity].
  apply text_after_search.
Qed.

(** X4. Everything a run of the pipeline can return, in both source
    files, by what happened. If the embedding call fails the text is
    [Error executing search: Embedding creation failed: ] and the cause's
    message; if its result has no [embeddings], the prefix and the
    runtime's TypeError message; if the database rejects the query,
    [Error executing search: Search operation failed: ] and the cause's
    message. If the database answers: the prefix and a TypeError message
    when the reply holds no array of points, when a kept point has a code
    chunk that is not a string, or when a normalised result has a field
    without a string form; otherwise what [formatResults] returns for the
    kept points, normalised in their order. What reaches the outer
    [catch] is therefore always an Error: the outer [Unknown error]
    alternative is never the one taken. (A reply is as the database
    produces it: each point has a number as score and an object, [null]
    or nothing as payload; what the payload holds is free.) *)
Theorem X4_every_output_of_the_pipeline (W : World)
    (query workspacePath : jsstring) :
  exists text text',
    result (Roosearch.executeSearchPipeline W query workspacePath)
    = Returned text
    /\ output_by_cause W
         (Roosearch.getWorkspaceVectorStoreName workspacePath) query text
    /\ result (Part000.executeSearchPipeline W query) = Returned text'
    /\ output_by_cause W (lit "ws-e9be3207f7247f18") query text'.
Proof.
  exists (pipeline_text W
            (Roosearch.getWorkspaceVectorStoreName workspacePath) query),
         (pipeline_text W fixed_collection query).
  split; [apply Roosearch_pipeline_result|].
  split; [apply pipeline_text_by_cause|].
  split; [apply Part000_pipeline_result|].
  apply (pipeline_text_by_cause W fixed_collection query).
Qed.

Lemma sent_vector_calls (W : World) (collection text : jsstring) :
  expected_calls W collection text
  = Fetch embed_url (embed_init text)
    :: match sent_vector W text with
       | Some vector => [Query collection (request_for vector)]
       | None => []
       end.
Proof.
  unfold expected_calls, sent_vector.
  destruct (embedding_outcome W text) as [data|error]; [|reflexivity].
  rewrite first_embedding_cases.
  destruct (EmbeddingResponse.embeddings data); reflexivity.
Qed.

(** X5. What the two tools send, for every behaviour of the services:
    first the POST to the embedding service and then at most one query,
    which goes to the collection of the host's directory (the plugin) or
    to the fixed collection (the stand-alone tool) and to no other. When
    the embedding call fails the database is not queried at all. *)
Theorem X5_tools_query_only_their_collection (W : World)
    (query directory : jsstring) :
  network_calls
    (trace (execute (Roosearch.RooSearchPlugin W directory) query))
  = Fetch embed_url (embed_init query)
    :: match sent_vector W query with
       | Some vector =>
         [Query (Roosearch.getWorkspaceVectorStoreName directory)
                (request_for vector)]
       | None => []
       end
  /\ trace (execute (Part000.default_tool W) query)
     = Fetch embed_url (embed_init query)
       :: match sent_vector W query with
          | Some vector =>
            [Query (lit "ws-e9be3207f7247f18") (request_for vector)]
          | None => []
          end
  /\ (embedding_failure W query <> None -> sent_vector W query = None).
Proof.
  cbn [execute Roosearch.RooSearchPlugin Part000.default_tool].
  rewrite Roosearch_pipeline_calls, Part000_pipeline_trace, !sent_vector_calls.
  split; [reflexivity|]. split; [reflexivity|].
  intros Hf. unfold sent_vector. rewrite embedding_failure_outcome.
  destruct (embedding_failure W query); [reflexivity | contradiction].
Qed.

(* ------------------------------------------------------------------ *)
(** ** What is written to the console *)

Lemma console_errors_app (tr tr' : list event) :
  console_errors (tr ++ tr') = console_errors tr ++ console_errors tr'.
Proof. apply filter_app. Qed.

Lemma Roosearch_createEmbeddings_console (W : World) (text : jsstring) :
  console_errors (trace (Roosearch.createEmbeddings W text))
  = match embedding_failure W text with
    | Some cause => [ConsoleError (lit "Embedding creation failed:") cause]
    | None => []
    end.
Proof.
  rewrite Roosearch_createEmbeddings_trace.
  cbn [console_errors List.filter is_network_call negb].
  destruct (embedding_failure W text); reflexivity.
Qed.

Lemma Roosearch_searchQdrant_console (W : World)
    (embedding : EmbeddingResponse.t) (workspacePath : jsstring) :
  console_errors (trace (Roosearch.searchQdrant W embedding workspacePath))
  = [].
Proof.
  rewrite Roosearch_searchQdrant_trace.
  destruct (Roosearch.first_embedding W embedding); reflexivity.
Qed.

(** X6. What the plugin writes to the console, for every behaviour of
    the services: when the embedding call fails, two diagnostics (the
    cause under [Embedding creation failed:], then the wrapped error
    under [Error executing search pipeline:]); when a later stage throws
    (the search, the transformation of the points or the formatting of
    the results), one diagnostic, [Error executing search pipeline:] with
    what that stage threw; when no stage throws, nothing. The stand-alone
    tool never writes to the console. (A reply is as the database
    produces it: each point has a number as score and an object, [null]
    or nothing as payload; what the payload holds is free.) *)
Theorem X6_console_diagnostics (W : World) (query workspacePath : jsstring) :
  console_errors
    (trace (Roosearch.executeSearchPipeline W query workspacePath))
  = match embedding_failure W query with
    | Some cause =>
      [ConsoleError (lit "Embedding creation failed:") cause;
       ConsoleError (lit "Error executing search pipeline:")
         (ErrorObject (lit "Embedding creation failed: "
                         ++ message_or_unknown cause))]
    | None =>
      match result (Roosearch.createEmbeddings W query) with
      | Returned data =>
        match result (Roosearch.searchQdrant W data workspacePath) with
        | Thrown error =>
          [ConsoleError (lit "Error executing search pipeline:") error]
        | Returned points =>
          match Roosearch.transformResults W points with
          | Thrown error =>
            [ConsoleError (lit "Error executing search pipeline:") error]
          | Returned normalized =>
            match Roosearch.format_fresh W normalized query with
            | Thrown error =>
              [ConsoleError (lit "Error executing search pipeline:") error]
            | Returned _ => []
            end
          end
        end
      | Thrown _ => []
      end
    end
  /\ console_errors (trace (Part000.executeSearchPipeline W query)) = [].
Proof.
  split.
  - unfold Roosearch.executeSearchPipeline.
    rewrite trace_try_catch, console_errors_app, trace_bind,
      console_errors_app, Roosearch_createEmbeddings_console, !result_bind.
    rewrite Roosearch_createEmbeddings_result, embedding_failure_outcome.
    destruct (embedding_failure W query) as [cause|] eqn:Hf; [reflexivity|].
    destruct (embedding_failure_none W query Hf)
      as (response & data & Hfetch & Hok & Hjson & Hout).
    rewrite Hfetch, Hjson.
    rewrite trace_bind, console_errors_app, Roosearch_searchQdrant_console,
      !result_bind.
    destruct (result (Roosearch.searchQdrant W data workspacePath))
      as [points|error]; [|reflexivity].
    rewrite trace_bind, result_bind, !result_lift.
    destruct (Roosearch.transformResults W points) as [normalized|error];
      [|reflexivity].
    rewrite result_lift.
    destruct (Roosearch.format_fresh W normalized query); reflexivity.
  - rewrite Part000_pipeline_trace, sent_vector_calls.
    destruct (sent_vector W query); reflexivity.
Qed.

(** A reply with a point that is kept and whose code chunk is a number:
    neither the embedding call nor the search fails, and the outer [catch]
    of the plugin writes its diagnostic. *)
Example ill_typed_reply_is_logged :
  trace (Roosearch.executeSearchPipeline Examples.ill_typed_reply (lit "q")
           (lit "/w"))
  = [Fetch embed_url (embed_init (lit "q"));
     Query (Roosearch.getWorkspaceVectorStoreName (lit "/w"))
           (request_for (Some [0.1%float; 0.2%float]));
     ConsoleError (lit "Error executing search pipeline:")
       (ErrorObject (lit "result.payload.codeChunk.trim is not a function"))]
  /\ trace (Roosearch.executeSearchPipeline Examples.reply_without_points
              (lit "q") (lit "/w"))
     = [Fetch embed_url (embed_init (lit "q"));
        Query (Roosearch.getWorkspaceVectorStoreName (lit "/w"))
              (request_for (Some [0.1%float; 0.2%float]));
        ConsoleError (lit "Error executing search pipeline:")
          (ErrorObject
             (lit "Cannot read properties of undefined (reading 'filter')"))].
Proof. split; vm_compute; reflexivity. Qed.

(* ------------------------------------------------------------------ *)
(** ** Workspaces that share a collection *)

Lemma bind_ext {A B} (m : M A) (k k' : A -> M B) :
  (forall a, k a = k' a) -> bind m k = bind m k'.
Proof.
  intros H. destruct m as [tr [a|error]]; simpl; [|reflexivity].
  now rewrite H.
Qed.

(** X7. The workspace path enters a run only through its collection
    name: for two paths with the same name the search stage and the whole
    pipeline are the same computation (same requests, same console
    output, same text), so the two workspaces read one index. *)
Theorem X7_same_name_same_run (W : World) (query p1 p2 : jsstring)
    (Hname : Roosearch.getWorkspaceVectorStoreName p1
             = Roosearch.getWorkspaceVectorStoreName p2) :
  (forall embedding,
     Roosearch.searchQdrant W embedding p1
     = Roosearch.searchQdrant W embedding p2)
  /\ Roosearch.executeSearchPipeline W query p1
     = Roosearch.executeSearchPipeline W query p2
  /\ execute (Roosearch.RooSearchPlugin W p1) query
     = execute (Roosearch.RooSearchPlugin W p2) query.
Proof.
  assert (Hsearch : forall embedding,
             Roosearch.searchQdrant W embedding p1
             = Roosearch.searchQdrant W embedding p2).
  { intros embedding. unfold Roosearch.searchQdrant. now rewrite Hname. }
  assert (Hrun : Roosearch.executeSearchPipeline W query p1
                 = Roosearch.executeSearchPipeline W query p2).
  { unfold Roosearch.executeSearchPipeline. f_equal.
    apply bind_ext. intros data. now rewrite Hsearch. }
  split; [exact Hsearch|]. split; exact Hrun.
Qed.

Lemma X7_witness :
  [55296%N] <> [55297%N]
  /\ Roosearch.executeSearchPipeline Examples.healthy (lit "q") [55296%N]
     = Roosearch.executeSearchPipeline Examples.healthy (lit "q") [55297%N].
Proof.
  split; [discriminate|].
  apply (@X7_same_name_same_run Examples.healthy (lit "q")
           [55296%N] [55297%N]).
  vm_compute. reflexivity.
Defined.

(* ------------------------------------------------------------------ *)
(** ** The normalised results *)

Lemma kept_point_well_formed (W : World) (point : VectorStoreSearchResult.t)
    (n : SearchResult.t) :
  keeps point = true ->
  well_typed point = true ->
  Roosearch.transformSearchResult W point = Returned (Some n) ->
  well_formed n
  /\ SearchResult.score n = VectorStoreSearchResult.score point
  /\ exists path first last,
       SearchResult.filePath n = VString path
       /\ SearchResult.startLine n = Some (VNumber first)
       /\ SearchResult.endLine n = Some (VNumber last)
       /\ Roosearch.formatSearchResult W n
          = Returned (block W n path first last).
Proof.
  unfold keeps, well_typed, Roosearch.transformSearchResult.
  destruct (VectorStoreSearchResult.payload point) as [| |[fp cc sl el]];
    try discriminate.
  cbn [Payload.filePath Payload.codeChunk Payload.startLine Payload.endLine].
  intros Hk Ht.
  apply andb_prop in Hk as [Hk Kcc]. apply andb_prop in Hk as [Hk Kel].
  apply andb_prop in Hk as [Kfp Ksl].
  apply andb_prop in Ht as [Ht Tel]. apply andb_prop in Ht as [Ht Tsl].
  apply andb_prop in Ht as [Tfp Tcc].
  destruct fp as [[| | | |[|c path]|]|]; try discriminate.
  destruct sl as [[| | |first| |]|]; try discriminate.
  destruct el as [[| | |last| |]|]; try discriminate.
  destruct cc as [[| | | |chunk|]|]; try discriminate.
  intros Hn. injection Hn as <-.
  cbn [truthy] in Ksl, Kel.
  apply andb_prop in Ksl as [Zf Nf]. apply andb_prop in Kel as [Zl Nl].
  apply negb_true_iff in Zf, Nf, Zl, Nl.
  destruct (trim_spec chunk) as (_ & Hl & Ht).
  split; [|split].
  - unfold well_formed; cbn. split; [|split; [|split; [|split]]]; trivial.
    + eexists. split; [reflexivity | discriminate].
    + eexists. repeat split; assumption.
    + eexists. repeat split; assumption.
  - reflexivity.
  - exists (c :: path), first, last. repeat split.
Qed.

(** X8. What [transformResults] hands to the formatter when the payloads
    of the kept points are stored with the declared types: it returns,
    one result per kept point with that point's score, and each result
    has a path that is a string and not empty, line numbers that are
    numbers other than 0 and NaN, and code with no white space at either
    end. So its block is rendered, with the path as it is and two numbers
    in the [Lines:] line. *)
Theorem X8_normalised_results_are_well_formed (W : World)
    (points : list VectorStoreSearchResult.t)
    (Htyped : forall point,
        In point points -> keeps point = true -> well_typed point = true) :
  exists normalized,
    Roosearch.transformResults W (PointsArray points) = Returned normalized
    /\ Part000.transformResults W (PointsArray points) = Returned normalized
    /\ map SearchResult.score normalized
       = map VectorStoreSearchResult.score (List.filter keeps points)
    /\ Forall well_formed normalized
    /\ Forall (fun n =>
                 exists path first last,
                   SearchResult.filePath n = VString path
                   /\ SearchResult.startLine n = Some (VNumber first)
                   /\ SearchResult.endLine n = Some (VNumber last)
                   /\ Roosearch.formatSearchResult W n
                      = Returned (block W n path first last))
              normalized.
Proof.
  assert (Hstrings : forall point,
             In point points -> keeps point = true ->
             chunk_is_string point = true).
  { intros point Hin Hk. specialize (Htyped point Hin Hk).
    revert Hk Htyped. unfold keeps, well_typed, chunk_is_string.
    destruct (VectorStoreSearchResult.payload point) as [| |[fp cc sl el]];
      try discriminate.
    cbn [Payload.filePath Payload.codeChunk Payload.startLine Payload.endLine].
    destruct cc as [[| | | |chunk|]|]; try reflexivity;
      rewrite ?andb_false_r; discriminate. }
  destruct (transformResults_spec W points Hstrings)
    as (normalized & Hret & _ & Hall).
  exists normalized. split; [exact Hret|].
  split; [now rewrite Part000_transformResults|].
  assert (Hk : Forall (fun point => keeps point = true /\ well_typed point = true)
                 (List.filter keeps points)).
  { apply Forall_forall. intros point Hin. apply filter_In in Hin as [Hin Hk].
    split; [exact Hk | now apply Htyped]. }
  clear Hret Hstrings Htyped.
  induction Hall as [|point n kept ns Hn _ IH]; [repeat constructor|].
  inversion Hk as [|? ? [Hpoint Htyped] Hk']; subst.
  destruct (kept_point_well_formed W point Hpoint Htyped Hn)
    as (Hwf & Hs & Hblock).
  destruct (IH Hk') as (IH1 & IH2 & IH3).
  split; [|split].
  - cbn [map]. now rewrite Hs, IH1.
  - now constructor.
  - now constructor.
Qed.

Lemma X8_witness :
  exists normalized,
    Roosearch.transformResults Examples.healthy
      (PointsArray Examples.two_points)
    = Returned normalized
    /\ Forall well_formed normalized
    /\ map SearchResult.score normalized = [0.8%float].
Proof.
  assert (Htyped : forall point,
             In point Examples.two_points -> keeps point = true ->
             well_typed point = true).
  { intros point [<-|[<-|[]]] Hkept; [reflexivity | discriminate Hkept]. }
  destruct (@X8_normalised_results_are_well_formed Examples.healthy
              Examples.two_points Htyped)
    as (normalized & Hret & _ & Hscores & Hwf & _).
  exists normalized. split; [exact Hret|]. split; [exact Hwf | exact Hscores].
Defined.

Lemma trim_all_white (s : jsstring) : all_white s -> trim s = [].
Proof.
  intros Hw. destruct (trim_spec s) as ((w1 & w2 & Hs & _) & Hl & _).
  destruct (trim s) as [|c t]; [reflexivity|].
  exfalso. unfold all_white in Hw. rewrite Hs in Hw.
  apply Forall_app in Hw as [_ Hw]. inversion Hw as [|? ? Hc _]; subst.
  cbn in Hl. congruence.
Qed.

(** X9. A code chunk made of white space only is truthy, so the filter
    keeps the point; after trimming nothing is left, and the result that
    reaches the formatter has an empty [codeChunk]. *)
Theorem X9_blank_chunk_gives_empty_code (W : World)
    (point : VectorStoreSearchResult.t) (p : Payload.t) (chunk : jsstring)
    (Hpayload : VectorStoreSearchResult.payload point = PayloadObject p)
    (Hchunk : Payload.codeChunk p = Some (VString chunk))
    (Hblank : all_white chunk)
    (Hkept : keeps point = true) :
  exists n,
    Roosearch.transformResults W (PointsArray [point]) = Returned [n]
    /\ Part000.transformResults W (PointsArray [point]) = Returned [n]
    /\ SearchResult.codeChunk n = [].
Proof.
  assert (Hstrings : forall point',
             In point' [point] -> keeps point' = true ->
             chunk_is_string point' = true).
  { intros point' [<-|[]] _. unfold chunk_is_string.
    now rewrite Hpayload, Hchunk. }
  destruct (transformResults_spec W [point] Hstrings)
    as (ns & Hret & _ & Hall).
  cbn [List.filter] in Hall. rewrite Hkept in Hall.
  inversion Hall as [|? n ? ns' Hn Hnil]; subst. inversion Hnil; subst.
  exists n. split; [exact Hret|].
  split; [now rewrite Part000_transformResults|].
  unfold Roosearch.transformSearchResult in Hn. rewrite Hpayload, Hchunk in Hn.
  destruct (Payload.filePath p); [|discriminate].
  injection Hn as <-. cbn. now apply trim_all_white.
Qed.

Lemma X9_witness :
  exists n,
    Roosearch.transformResults Examples.healthy
      (PointsArray
         [Examples.point (lit "a.ts") 0.8%float (Some 1%float) (Some 2%float)
            (Some (lit "  "))])
    = Returned [n]
    /\ SearchResult.codeChunk n = [].
Proof.
  destruct (@X9_blank_chunk_gives_empty_code Examples.healthy
              (Examples.point (lit "a.ts") 0.8%float (Some 1%float)
                 (Some 2%float) (Some (lit "  ")))
              _ (lit "  ") eq_refl eq_refl
              ltac:(repeat constructor) eq_refl)
    as (n & Hret & _ & Hcode).
  exists n. split; [exact Hret | exact Hcode].
Defined.

Lemma map_outcome_app {A B : Type} (f : A -> outcome B) (l1 l2 : list A) :
  map_outcome f (l1 ++ l2)
  = and_then (map_outcome f l1) (fun b1 =>
    and_then (map_outcome f l2) (fun b2 => Returned (b1 ++ b2))).
Proof.
  induction l1 as [|a l1 IH]; cbn [app map_outcome and_then].
  - destruct (map_outcome f l2); reflexivity.
  - destruct (f a) as [b|error]; [|reflexivity].
    rewrite IH. destruct (map_outcome f l1) as [b1|error]; [|reflexivity].
    cbn [and_then]. destruct (map_outcome f l2); reflexivity.
Qed.

Lemma drop_nulls_app {A : Type} (l1 l2 : list (option A)) :
  drop_nulls (l1 ++ l2) = drop_nulls l1 ++ drop_nulls l2.
Proof.
  induction l1 as [|[a|] l1 IH]; cbn [app drop_nulls]; now rewrite ?IH.
Qed.

Lemma filter_idempotent {A : Type} (f : A -> bool) (l : list A) :
  List.filter f (List.filter f l) = List.filter f l.
Proof.
  induction l as [|a l IH]; [reflexivity|].
  cbn [List.filter]. destruct (f a) eqn:Ha; [|exact IH].
  cbn [List.filter]. now rewrite Ha, IH.
Qed.

(** X10. [transformResults] works point by point, exceptions included:
    on two batches of points put end to end it ends as on the first batch
    followed by the second (it throws what the first batch makes it
    throw, else what the second does, else it returns the results of the
    first followed by those of the second). The filter is idempotent, and
    filtering beforehand changes nothing. *)
Theorem X10_transformResults_in_batches (W : World)
    (batch1 batch2 : list VectorStoreSearchResult.t) :
  Roosearch.transformResults W (PointsArray (batch1 ++ batch2))
  = and_then (Roosearch.transformResults W (PointsArray batch1)) (fun n1 =>
    and_then (Roosearch.transformResults W (PointsArray batch2)) (fun n2 =>
    Returned (n1 ++ n2)))
  /\ Part000.transformResults W (PointsArray (batch1 ++ batch2))
     = Roosearch.transformResults W (PointsArray (batch1 ++ batch2))
  /\ and_then (Roosearch.filterValidResults W (PointsArray batch1))
       (fun kept => Roosearch.filterValidResults W (PointsArray kept))
     = Roosearch.filterValidResults W (PointsArray batch1)
  /\ and_then (Roosearch.filterValidResults W (PointsArray batch1))
       (fun kept => Roosearch.transformResults W (PointsArray kept))
     = Roosearch.transformResults W (PointsArray batch1).
Proof.
  split; [|split; [reflexivity|split]].
  - rewrite !transformResults_array, filter_app, map_outcome_app.
    destruct (map_outcome (Roosearch.transformSearchResult W)
                (List.filter keeps batch1)) as [m1|error]; [|reflexivity].
    cbn [and_then].
    destruct (map_outcome (Roosearch.transformSearchResult W)
                (List.filter keeps batch2)) as [m2|error]; [|reflexivity].
    cbn [and_then]. now rewrite drop_nulls_app.
  - rewrite !Roosearch_filter_keeps. cbn [and_then].
    now rewrite Roosearch_filter_keeps, filter_idempotent.
  - rewrite Roosearch_filter_keeps. cbn [and_then].
    now rewrite !transformResults_array, filter_idempotent.
Qed.

(* ------------------------------------------------------------------ *)
(** ** The comparison function *)

Lemma nan_spec (x : float) :
  PrimFloat.is_nan x = true -> Prim2SF x = S754_nan.
Proof.
  unfold PrimFloat.is_nan. rewrite eqb_spec. unfold SFeqb.
  destruct (Prim2SF x) as [z|z| |z m e]; cbn [SFcompare]; intros H.
  - discriminate H.
  - destruct z; discriminate H.
  - reflexivity.
  - rewrite Z.compare_refl, Pos.compare_cont_refl in H.
    destruct z; discriminate H.
Qed.

Lemma sub_nan (a b : float) :
  PrimFloat.is_nan a = true \/ PrimFloat.is_nan b = true ->
  (0 <? b - a)%float = false.
Proof.
  intros H. rewrite ltb_spec, sub_spec, Prim2SF_zero. unfold SF64sub.
  destruct H as [H|H]; apply nan_spec in H; rewrite H.
  - destruct (Prim2SF b); reflexivity.
  - reflexivity.
Qed.

(** X11. On scores that are numbers, the sign of the comparison function
    is the order of the scores, with no exception for differences that
    round: [b.score - a.score] is above zero exactly when [a.score] is
    below [b.score], and neither of two results has to come after the
    other exactly when their scores are equal. *)
Theorem X11_comparison_sign_is_the_order (a b : SearchResult.t)
    (Ha : PrimFloat.is_nan (SearchResult.score a) = false)
    (Hb : PrimFloat.is_nan (SearchResult.score b) = false) :
  (0 <? Roosearch.by_score a b)%float
  = (SearchResult.score a <? SearchResult.score b)%float
  /\ (0 <? Part000.by_score a b)%float
     = (SearchResult.score a <? SearchResult.score b)%float
  /\ comes_after Roosearch.by_score a b
       || comes_after Roosearch.by_score b a
     = negb (SearchResult.score a =? SearchResult.score b)%float.
Proof.
  assert (H : forall x y : SearchResult.t,
             PrimFloat.is_nan (SearchResult.score x) = false ->
             PrimFloat.is_nan (SearchResult.score y) = false ->
             (0 <? Roosearch.by_score x y)%float
             = (SearchResult.score x <? SearchResult.score y)%float).
  { intros x y Hx Hy. unfold Roosearch.by_score.
    now rewrite sub_sign, ltb_exact. }
  split; [now apply H|]. split; [now apply (H a b)|].
  unfold comes_after. rewrite !H, !ltb_exact, eqb_exact by assumption.
  destruct (Z.ltb_spec (exact_value (SearchResult.score a))
                       (exact_value (SearchResult.score b)));
    destruct (Z.ltb_spec (exact_value (SearchResult.score b))
                         (exact_value (SearchResult.score a)));
    destruct (Z.eqb_spec (exact_value (SearchResult.score a))
                         (exact_value (SearchResult.score b)));
    try reflexivity; lia.
Qed.

Lemma X11_witness :
  comes_after Roosearch.by_score
    (Examples.result_with_score (lit "a") 0.3%float)
    (Examples.result_with_score (lit "b") 0.7%float)
  || comes_after Roosearch.by_score
       (Examples.result_with_score (lit "b") 0.7%float)
       (Examples.result_with_score (lit "a") 0.3%float)
  = true.
Proof.
  exact (proj2 (proj2 (@X11_comparison_sign_is_the_order
           (Examples.result_with_score (lit "a") 0.3%float)
           (Examples.result_with_score (lit "b") 0.7%float)
           eq_refl eq_refl))).
Defined.

(** X12. A score that is NaN makes the comparison function return NaN,
    which the sort reads as zero: the result neither has to come after
    nor before any other, whatever the other's score. *)
Theorem X12_NaN_score_compares_as_a_tie (a b : SearchResult.t)
    (Hnan : PrimFloat.is_nan (SearchResult.score a) = true) :
  comes_after Roosearch.by_score a b = false
  /\ comes_after Roosearch.by_score b a = false
  /\ comes_after Part000.by_score a b = false
  /\ comes_after Part000.by_score b a = false
  /\ PrimFloat.is_nan (Roosearch.by_score a b) = true.
Proof.
  unfold comes_after, Roosearch.by_score, Part000.by_score.
  rewrite !sub_nan by auto. repeat split.
  apply nan_spec in Hnan.
  unfold PrimFloat.is_nan. rewrite eqb_spec, sub_spec, Hnan. unfold SF64sub.
  destruct (Prim2SF (SearchResult.score b)); reflexivity.
Qed.

Lemma X12_witness :
  comes_after Roosearch.by_score
    (Examples.result_with_score (lit "a") PrimFloat.nan)
    (Examples.result_with_score (lit "b") 0.7%float) = false
  /\ comes_after Roosearch.by_score
       (Examples.result_with_score (lit "b") 0.7%float)
       (Examples.result_with_score (lit "a") PrimFloat.nan) = false.
Proof.
  destruct (@X12_NaN_score_compares_as_a_tie
              (Examples.result_with_score (lit "a") PrimFloat.nan)
              (Examples.result_with_score (lit "b") 0.7%float) eq_refl)
    as (H1 & H2 & _).
  split; [exact H1 | exact H2].
Defined.

(* ------------------------------------------------------------------ *)
(** ** The report, for every sequence of results *)

Lemma formatResults_keeps_its_argument (W : World) (st : store)
    (r : array_ref) (query : jsstring) :
  read (fst (Roosearch.formatResults W st r query)) r = read st r.
Proof.
  destruct (Nat.lt_ge_cases r (length st)) as [Hlt|Hge].
  - now apply formatResults_keeps_the_store.
  - rewrite Roosearch_formatResults_spec.
    assert (E : read st r = []) by (unfold read; now apply nth_overflow).
    now rewrite E.
Qed.

Lemma map_outcome_Forall2 {A B : Type} (f : A -> outcome B)
    (l : list A) (bs : list B) :
  map_outcome f l = Returned bs <->
  Forall2 (fun a b => f a = Returned b) l bs.
Proof.
  revert bs. induction l as [|a l IH]; intros bs; cbn [map_outcome].
  - split.
    + intros H. injection H as <-. constructor.
    + intros H. inversion H. reflexivity.
  - split.
    + destruct (f a) as [b|error] eqn:Hb; [|discriminate].
      destruct (map_outcome f l) as [bs'|error]; [|discriminate].
      intros H. injection H as <-. constructor; [exact Hb|].
      now apply IH.
    + intros H. inversion H as [|? b ? bs' Hb Hrest]; subst.
      rewrite Hb. apply IH in Hrest. now rewrite Hrest.
Qed.

Lemma Forall2_permutation {A B : Type} (R : A -> B -> Prop)
    (l l' : list A) (bs : list B) :
  Permutation l l' -> Forall2 R l bs ->
  exists bs', Permutation bs bs' /\ Forall2 R l' bs'.
Proof.
  intros Hp. revert bs.
  induction Hp as [|x l l' _ IH|x y l|l l' l'' _ IH1 _ IH2]; intros bs H.
  - inversion H; subst. exists []. split; constructor.
  - inversion H as [|? b ? bs0 Hb Hrest]; subst.
    destruct (IH _ Hrest) as (bs' & Hperm & Hall).
    exists (b :: bs'). split; [now constructor | now constructor].
  - inversion H as [|? b ? bs0 Hb Hrest]; subst.
    inversion Hrest as [|? c ? bs1 Hc Hrest']; subst.
    exists (c :: b :: bs1). split; [apply perm_swap|].
    constructor; [exact Hc|]. now constructor.
  - destruct (IH1 _ H) as (bs' & Hperm & Hall).
    destruct (IH2 _ Hall) as (bs'' & Hperm' & Hall').
    exists bs''. split; [now transitivity bs' | exact Hall'].
Qed.

Lemma formatSearchResult_thrown (W : World) (r : SearchResult.t)
    (error : thrown) :
  Roosearch.formatSearchResult W r = Thrown error ->
  can_be_rendered r = false
  /\ error = ErrorObject (TypeError_message W ObjectToPrimitive).
Proof.
  destruct (can_be_rendered r) eqn:Hr.
  - destruct (formatSearchResult_rendered W r Hr) as (rendered & ->).
    discriminate.
  - rewrite (formatSearchResult_not_rendered W r Hr).
    intros H. injection H as <-. now split.
Qed.

(** X13. For every sequence of results, whatever the scores (NaN
    included). When each result can be rendered, the report of a
    non-empty sequence is made of the blocks of its results, each exactly
    once, and announces their number; when one cannot, [formatResults]
    throws what rendering that result throws. The report of one result
    says [1 result] at both places and holds that result's block. The
    array handed in is left as it was, although the sort works in place. *)
Theorem X13_report_renders_every_result_once (W : World)
    (results : list SearchResult.t) (query : jsstring) :
  (forall blocks,
     Forall2 (fun r rendered =>
                Roosearch.formatSearchResult W r = Returned rendered)
             results blocks ->
     exists arranged,
       Permutation arranged blocks
       /\ Roosearch.format_fresh W results query
          = Returned
              match results with
              | [] => empty_report query
              | _ :: _ => report arranged (length results) query
              end)
  /\ (forall r error,
        In r results ->
        Roosearch.formatSearchResult W r = Thrown error ->
        Roosearch.format_fresh W results query = Thrown error)
  /\ Part000.format_fresh W results query
     = Roosearch.format_fresh W results query
  /\ (forall r rendered,
        Roosearch.formatSearchResult W r = Returned rendered ->
        Roosearch.format_fresh W [r] query
        = Returned
            (lit "Query: " ++ [dquote] ++ query ++ [dquote; LF; LF]
             ++ lit "Found 1 result:" ++ [LF; LF]
             ++ rendered
             ++ [LF; LF] ++ lit "---" ++ [LF]
             ++ lit "Search completed with 1 result."))
  /\ (forall (st : store) (r : array_ref),
        read st r = results ->
        read (fst (Roosearch.formatResults W st r query)) r = results
        /\ read (fst (Part000.formatResults W st r query)) r = results).
Proof.
  split; [|split; [|split; [reflexivity|split]]].
  - intros blocks Hblocks. rewrite Roosearch_format_fresh_spec.
    destruct results as [|r results].
    + exists blocks. split; reflexivity.
    + destruct (Forall2_permutation
                  (Permutation_sym
                     (sort_permutation Roosearch.by_score (r :: results)))
                  Hblocks)
        as (arranged & Hperm & Hall).
      apply map_outcome_Forall2 in Hall. rewrite Hall.
      exists arranged. split; [now symmetry | reflexivity].
  - intros r error Hin Hthrown.
    destruct (formatSearchResult_thrown W r Hthrown) as [Hr ->].
    apply format_fresh_not_rendered.
    destruct (forallb can_be_rendered results) eqn:Hall; [|reflexivity].
    rewrite forallb_forall in Hall. rewrite (Hall r Hin) in Hr.
    discriminate Hr.
  - intros r rendered Hrendered. rewrite Roosearch_format_fresh_spec.
    cbn [sort fold_right insert map_outcome]. rewrite Hrendered. reflexivity.
  - intros st r <-.
    pose proof (formatResults_keeps_its_argument W st r query) as H.
    split; exact H.
Qed.

Lemma format_fresh_starts_with_the_query (W : World)
    (results : list SearchResult.t) (query text : jsstring) :
  Roosearch.format_fresh W results query = Returned text ->
  exists rest,
    text = lit "Query: " ++ [dquote] ++ query ++ [dquote; LF; LF] ++ rest.
Proof.
  rewrite Roosearch_format_fresh_spec.
  destruct results as [|r results].
  - intros H. injection H as <-. eexists. unfold empty_report.
    rewrite <- ?app_assoc. reflexivity.
  - destruct (map_outcome _ _) as [blocks|error]; [|discriminate].
    cbn [and_then]. intros H. injection H as <-. eexists. unfold report.
    rewrite <- ?app_assoc. reflexivity.
Qed.

Lemma pipeline_text_shape (W : World) (collection query : jsstring) :
  exists rest,
    pipeline_text W collection query = lit "Error executing search: " ++ rest
    \/ pipeline_text W collection query
       = lit "Query: " ++ [dquote] ++ query ++ [dquote; LF; LF] ++ rest.
Proof.
  unfold pipeline_text.
  destruct (embedding_outcome W query) as [data|error];
    [|eexists; left; reflexivity].
  destruct (search_outcome W collection data) as [points|error];
    [|eexists; left; reflexivity].
  destruct (Roosearch.transformResults W points) as [normalized|error];
    [|eexists; left; reflexivity].
  destruct (Roosearch.format_fresh W normalized query) as [text|error] eqn:Hf;
    [|eexists; left; reflexivity].
  destruct (format_fresh_starts_with_the_query W normalized query Hf)
    as (rest & Hrest).
  exists rest. now right.
Qed.

(** X14. Whatever the two services do, a call of either tool returns a
    string of one of two shapes: an error line, which starts with
    [Error executing search: ], or a report, which starts with [Query: ]
    and the query between double quotes, as given (no escaping), and two
    newlines. *)
Theorem X14_tools_return_an_error_line_or_a_report (W : World)
    (query directory : jsstring) :
  (exists text rest,
     result (execute (Roosearch.RooSearchPlugin W directory) query)
     = Returned text
     /\ (text = lit "Error executing search: " ++ rest
         \/ text = lit "Query: " ++ [dquote] ++ query ++ [dquote; LF; LF]
                   ++ rest))
  /\ (exists text rest,
        result (execute (Part000.default_tool W) query) = Returned text
        /\ (text = lit "Error executing search: " ++ rest
            \/ text = lit "Query: " ++ [dquote] ++ query ++ [dquote; LF; LF]
                      ++ rest)).
Proof.
  cbn [execute Roosearch.RooSearchPlugin Part000.default_tool].
  rewrite Roosearch_pipeline_result, Part000_pipeline_result.
  split.
  - destruct (pipeline_text_shape W
                (Roosearch.getWorkspaceVectorStoreName directory) query)
      as (rest & H).
    eexists; exists rest. split; [reflexivity | exact H].
  - destruct (pipeline_text_shape W fixed_collection query) as (rest & H).
    eexists; exists rest. split; [reflexivity | exact H].
Qed.

(* ------------------------------------------------------------------ *)
(** ** The collection name of a path of ASCII characters *)

Lemma utf8_encode_ascii (s : jsstring) :
  Forall (fun c => (c < 128)%N) s -> utf8_encode s = s.
Proof.
  induction 1 as [|c s Hc _ IH]; [reflexivity|].
  cbn [utf8_encode].
  assert (Hh : is_high_surrogate c = false).
  { unfold is_high_surrogate. apply andb_false_intro1, N.leb_gt. lia. }
  assert (Hl : is_low_surrogate c = false).
  { unfold is_low_surrogate. apply andb_false_intro1, N.leb_gt. lia. }
  rewrite Hh, Hl. unfold utf8_code_point.
  apply N.ltb_lt in Hc. rewrite Hc. cbn [app]. now rewrite IH.
Qed.

(** X15. For a workspace path of ASCII characters the bytes digested are
    the characters themselves, one byte each: the collection name is
    [ws-] and the first 16 hexadecimal digits of the SHA-256 digest of
    the path's characters. *)
Theorem X15_name_of_an_ASCII_path (workspacePath : jsstring)
    (Hascii : Forall (fun c => (c < 128)%N) workspacePath) :
  utf8_encode workspacePath = workspacePath
  /\ Roosearch.getWorkspaceVectorStoreName workspacePath
     = lit "ws-" ++ firstn 16 (hex (SHA256.digest workspacePath)).
Proof.
  pose proof (utf8_encode_ascii Hascii) as He.
  split; [exact He|].
  rewrite name_of_first_bytes, He. now rewrite (firstn_hex 8).
Qed.

Lemma X15_witness :
  Roosearch.getWorkspaceVectorStoreName (lit "/w")
  = lit "ws-" ++ firstn 16 (hex (SHA256.digest (lit "/w"))).
Proof.
  apply (@X15_name_of_an_ASCII_path (lit "/w")).
  repeat constructor.
Defined.
